(** * NeMo: punctuation/capitalization evaluation callbacks and the
      SGD schema-embedding preprocessor

    A shallow embedding of
    - [nemo/collections/nlp/callbacks/punctuation_capitalization_callback.py]
    - [nemo/collections/nlp/data/datasets/sgd_dataset/schema_processor.py]

    Python dictionaries whose iteration order matters are association
    lists, the others are [gmap]s; exceptions are an explicit result type;
    the mutable [global_vars] dictionary is threaded through a state and
    exception monad that keeps the state reached when an exception is
    raised.  Finite floating-point numbers are exact rationals, and the only
    operations the callbacks apply to them are order comparisons; the
    arithmetic of [round(x * 100, 2)] is idealised as exact rational
    arithmetic. *)

From Stdlib Require Import String Ascii ZArith QArith Qround Qabs Lia Lqa Sorted.
From stdpp Require Import base gmap strings list.

Open Scope string_scope.
Open Scope list_scope.

(** ** Python values, exceptions and builtins *)

Module Py.

Inductive exn :=
| KeyError (key : string)
| ValueError (msg : string)
| RuntimeError
| IndexError
| TypeError.

Inductive result (A : Type) :=
| Ok (a : A)
| Raise (e : exn).
Arguments Ok {A} a.
Arguments Raise {A} e.

#[export] Instance result_ret : MRet result := fun _ a => Ok a.
#[export] Instance result_bind : MBind result := fun _ _ f m =>
  match m with Ok a => f a | Raise e => Raise e end.

(** A computation over a mutable object of type [S]: the final state is
    kept also when the computation raises. *)
Definition py (S A : Type) : Type := S -> S * result A.

#[export] Instance py_ret {S} : MRet (py S) := fun _ a s => (s, Ok a).
#[export] Instance py_bind {S} : MBind (py S) := fun _ _ f m s =>
  match m s with
  | (s', Ok a) => f a s'
  | (s', Raise e) => (s', Raise e)
  end.

Definition lift {S A} (r : result A) : py S A := fun s => (s, r).
Definition modify {S} (f : S -> S) : py S unit := fun s => (f s, Ok tt).

(** A nested Python list of numbers, as [Tensor.tolist()] builds it. *)
#[warning="-register-all"]
Inductive pyval :=
| PNum (q : Q)
| PList (items : list pyval).

(** [sub in s] and [s.find(sub)] *)
Fixpoint str_find (sub s : string) : option nat :=
  if String.prefix sub s then Some 0
  else match s with
       | EmptyString => None
       | String _ s' => S <$> str_find sub s'
       end.

Definition str_in (sub s : string) : bool :=
  match str_find sub s with Some _ => true | None => false end.

(** [s.index(sub)] raises [ValueError] where [find] returns -1. *)
Definition str_index (s sub : string) : result nat :=
  match str_find sub s with
  | Some i => Ok i
  | None => Raise (ValueError "substring not found")
  end.

Fixpoint str_take (n : nat) (s : string) : string :=
  match n, s with
  | S n', String c s' => String c (str_take n' s')
  | _, _ => EmptyString
  end.

(** The slice [s[:stop]]: a negative [stop] counts from the end, and both
    ends are clamped. *)
Definition str_slice_to (s : string) (stop : Z) : string :=
  if (stop <? 0)%Z
  then str_take (Z.to_nat (Z.of_nat (String.length s) + stop)) s
  else str_take (Z.to_nat stop) s.

Definition str_startswith (s p : string) : bool := String.prefix p s.

Fixpoint str_endswith_char (s : string) (c : ascii) : bool :=
  match s with
  | EmptyString => false
  | String a EmptyString => bool_decide (a = c)
  | String _ s' => str_endswith_char s' c
  end.

(** [s.split(sep)] for a non-empty separator: left to right, without
    overlaps.  [skip] counts the characters of a separator just matched
    that are still to be dropped, [cur] is the piece being read. *)
Fixpoint str_split_go (sep : string) (skip : nat) (cur s : string)
  : list string :=
  match s with
  | EmptyString => [cur]
  | String c s' =>
      match skip with
      | S k => str_split_go sep k cur s'
      | O =>
          if String.prefix sep s
          then cur :: str_split_go sep (String.length sep - 1) EmptyString s'
          else str_split_go sep 0 (cur +:+ String c EmptyString) s'
      end
  end.

Definition str_split (s sep : string) : list string :=
  str_split_go sep 0 EmptyString s.

(** [posixpath.join(a, *p)] *)
Definition join_one (path b : string) : string :=
  if str_startswith b "/" then b
  else if bool_decide (path = "") || str_endswith_char path "/"%char
       then path +:+ b
       else path +:+ "/" +:+ b.

Definition os_path_join (a : string) (p : list string) : string :=
  foldl join_one a p.

End Py.
Import Py.

(** ** Arrays *)

Module Np.

(** A dense array (a [torch.Tensor] or a [numpy.ndarray]): its shape and
    its elements in row-major order. *)
Record ndarray := Array { shape : list nat; data : list Q }.

Definition numel (s : list nat) : nat := foldr Nat.mul 1 s.

Definition wf (t : ndarray) : Prop := length (data t) = numel (shape t).

End Np.

(** ** schema_processor.py *)

Module SchemaProcessor.
Import Np.

(** One persisted record: the embeddings of one service, by name. *)
Abbreviation service := (gmap string ndarray).

(** The embedding files on disk: path to the sequence of records that
    [np.load] reads back. *)
Abbreviation filesystem := (gmap string (list service)).

(** State of [torch.distributed]. *)
Record dist_env := { is_initialized : bool; get_rank : Z }.

(** What the constructor does to the outside world, in order. *)
Inductive event :=
| LogInfo (msg : string)
| SaveEmbeddings (path : string) (records : list service).

(** File-system accesses of the loader, in order. *)
Inductive fs_access :=
| FsExists (path : string)
| FsOpen (path : string).

Record SchemaPreprocessor := {
  schemas_dict : gmap string unit;
  _schema_embedding_dir : string
}.

Definition os_path_exists (fs : filesystem) (path : string) : bool :=
  bool_decide (is_Some (fs !! path)).

Definition _get_schema_embedding_file_name
  (self : SchemaPreprocessor) (dataset_split : string) : string :=
  os_path_join (_schema_embedding_dir self)
    [dataset_split +:+ "_pretrained_schema_embedding.npy"].

Section Constructor.
(** The collaborators handed to the constructor ([tokenizer],
    [bert_model], [nf], [max_seq_length], [embedding_dim],
    [bert_ckpt_dir]): from the path of a [schema.json], the records that
    [BertInferDataLayer], the encoder, [nf.infer] and [concatenate]
    produce and that [save_embeddings] writes. *)
Variable infer_schema_embeddings : string -> list service.
Variable data_dir : string.
Variable schema_embedding_dir : string.
Variable overwrite_schema_emb_files : bool.
Variable env : dist_env.

Definition self0 : SchemaPreprocessor :=
  {| schemas_dict := ∅; _schema_embedding_dir := schema_embedding_dir |}.

(** [not torch.distributed.is_initialized() or
     torch.distributed.get_rank() == 0] *)
Definition master_device : bool :=
  negb (is_initialized env) || (get_rank env =? 0)%Z.

(** The guard of line 74.  In Python [and] binds tighter than [or]. *)
Definition generate_guard (fs : filesystem) (schema_embedding_file : string)
  : bool :=
  (master_device && negb (os_path_exists fs schema_embedding_file))
  || overwrite_schema_emb_files.

(** The body of the [if]: lines 75 to 98. *)
Definition generate (dataset_split schema_embedding_file : string)
  (fs : filesystem) : filesystem * list event :=
  let schema_json_path :=
    os_path_join data_dir [dataset_split; "schema.json"] in
  let records := infer_schema_embeddings schema_json_path in
  (<[schema_embedding_file := records]> fs,
   [LogInfo ("Start generating the schema embeddings for "
             +:+ dataset_split +:+ " dataset.");
    SaveEmbeddings schema_embedding_file records;
    LogInfo ("The schema embeddings saved at " +:+ schema_embedding_file);
    LogInfo "Finish generating the schema embeddings."]).

(** One iteration of [for dataset_split in datasets]. *)
Definition init_split (st : filesystem * list event) (dataset_split : string)
  : filesystem * list event :=
  let schema_embedding_file :=
    _get_schema_embedding_file_name self0 dataset_split in
  if generate_guard st.1 schema_embedding_file
  then let '(fs', evs) := generate dataset_split schema_embedding_file st.1 in
       (fs', st.2 ++ evs)
  else st.

(** [SchemaPreprocessor.__init__]: the object, the files afterwards and
    the trace. *)
Definition __init__ (datasets : list string) (fs : filesystem)
  : SchemaPreprocessor * filesystem * list event :=
  let '(fs', evs) := foldl init_split (fs, []) datasets in
  (self0, fs', evs).

(** The tokenize-encode-persist pass ran for [dataset_split]. *)
Definition generated (dataset_split : string) (evs : list event) : Prop :=
  SaveEmbeddings (_get_schema_embedding_file_name self0 dataset_split)
    (infer_schema_embeddings
       (os_path_join data_dir [dataset_split; "schema.json"])) ∈ evs.
End Constructor.

(** [collections.defaultdict(list)]: a missing key reads as the empty list. *)
Abbreviation defaultdict_list := (gmap string (list ndarray)).

Definition dd_getitem (d : defaultdict_list) (k : string) : list ndarray :=
  default [] (d !! k).

Definition getitem (s : service) (k : string) : result ndarray :=
  match s !! k with
  | Some v => Ok v
  | None => Raise (KeyError k)
  end.

(** [d[k].append(service[k])] *)
Definition append_field (k : string) (s : service) (d : defaultdict_list)
  : result defaultdict_list :=
  let l := dd_getitem d k in
  v ← getitem s k;
  mret (<[k := l ++ [v]]> d).

(** The body of [for service in schema_data]. *)
Definition transpose_step (d : result defaultdict_list) (s : service)
  : result defaultdict_list :=
  d ← d;
  d ← append_field "cat_slot_emb" s d;
  d ← append_field "cat_slot_value_emb" s d;
  d ← append_field "noncat_slot_emb" s d;
  d ← append_field "req_slot_emb" s d;
  append_field "intent_emb" s d.

Definition get_schema_embeddings
  (self : SchemaPreprocessor) (fs : filesystem) (dataset_split : string)
  : list fs_access * result defaultdict_list :=
  let schema_embedding_file :=
    _get_schema_embedding_file_name self dataset_split in
  match fs !! schema_embedding_file with
  | None =>
      ([FsExists schema_embedding_file],
       Raise (ValueError (schema_embedding_file +:+ " not found.")))
  | Some schema_data =>
      ([FsExists schema_embedding_file; FsOpen schema_embedding_file],
       foldl transpose_step (Ok ∅) schema_data)
  end.

Definition EMB_KINDS : list string :=
  ["cat_slot_emb"; "cat_slot_value_emb"; "noncat_slot_emb"; "req_slot_emb";
   "intent_emb"].

End SchemaProcessor.

(** ** The tensor operations the callbacks use *)

Module Torch.
Import Np.

(** A boolean tensor, the result of an elementwise comparison. *)
Record mask := Mask { mshape : list nat; mdata : list bool }.

Definition Qgtb (x y : Q) : bool := negb (Qle_bool x y).

(** [k] consecutive rows of [n] elements each. *)
Fixpoint chunks {A} (k n : nat) (l : list A) : list (list A) :=
  match k with
  | O => []
  | S k' => take n l :: chunks k' n (drop n l)
  end.

(** The elements of [xs] at the positions where [bs] is true. *)
Fixpoint select {A} (bs : list bool) (xs : list A) : list A :=
  match bs, xs with
  | b :: bs', x :: xs' => if b then x :: select bs' xs' else select bs' xs'
  | _, _ => []
  end.

Definition dim0 (t : ndarray) : nat := hd 0%nat (shape t).

(** [torch.cat(tensors)], along dimension 0.  One-dimensional empty tensors
    are skipped; the others need at least one dimension and equal sizes in
    the dimensions after the first. *)
Definition cat (ts : list ndarray) : result ndarray :=
  match ts with
  | [] => Raise RuntimeError
  | _ =>
      match filter (fun t => shape t <> [0%nat]) ts with
      | [] => Ok (Array [0%nat] [])
      | t0 :: rest =>
          match shape t0 with
          | [] => Raise RuntimeError
          | _ :: tl =>
              if forallb (fun t => bool_decide (tail (shape t) = tl
                                                /\ shape t <> [])) rest
              then Ok (Array (sum_list (dim0 <$> t0 :: rest) :: tl)
                             (concat (data <$> t0 :: rest)))
              else Raise RuntimeError
          end
      end
  end.

(** [t > c], elementwise. *)
Definition gt (t : ndarray) (c : Q) : mask :=
  Mask (shape t) ((fun x => Qgtb x c) <$> data t).

(** Index of the first maximal element. *)
Fixpoint argmax_from (best : Q) (besti i : nat) (l : list Q) : nat :=
  match l with
  | [] => besti
  | x :: l' =>
      if Qgtb x best then argmax_from x i (S i) l'
      else argmax_from best besti (S i) l'
  end.

Definition argmax_list (l : list Q) : nat :=
  match l with
  | [] => 0
  | x :: l' => argmax_from x 0 1 l'
  end.

Definition class_index (l : list Q) : Q := inject_Z (Z.of_nat (argmax_list l)).

(** [torch.argmax(t, -1)]: the last dimension is reduced and must not be
    empty; a zero-dimensional tensor gives index 0. *)
Definition argmax (t : ndarray) : result ndarray :=
  match last (shape t) with
  | None => Ok (Array [] [0%Q])
  | Some c =>
      if (c =? 0)%nat then Raise IndexError
      else let s' := removelast (shape t) in
           Ok (Array s' (class_index <$> chunks (numel s') c (data t)))
  end.

Fixpoint strip_prefix (p s : list nat) : option (list nat) :=
  match p, s with
  | [], _ => Some s
  | a :: p', b :: s' => if (a =? b)%nat then strip_prefix p' s' else None
  | _ :: _, [] => None
  end.

(** [x[m]] for a boolean tensor [m]: the shape of [m] must be a prefix of
    the shape of [x]; the result lists the sub-tensors of [x] at the true
    positions of [m]. *)
Definition masked_select (x : ndarray) (m : mask) : result ndarray :=
  match strip_prefix (mshape m) (shape x) with
  | None => Raise IndexError
  | Some rest =>
      let kept :=
        select (mdata m) (chunks (numel (mshape m)) (numel rest) (data x)) in
      Ok (Array (length kept :: rest) (concat kept))
  end.

(** [t.tolist()] *)
Fixpoint to_py (s : list nat) (d : list Q) : pyval :=
  match s with
  | [] => PNum (hd 0%Q d)
  | n :: s' => PList (to_py s' <$> chunks n (numel s') d)
  end.

Definition tolist (t : ndarray) : pyval := to_py (shape t) (data t).

End Torch.

(** ** schema_processor.py: the helper [concatenate] *)

Module SchemaHelpers.
Import Np Torch.

(** The arrays after the first must have as many dimensions as the first
    and its sizes in the dimensions after the first; the first array that
    does not decides the error.  The messages of numpy are abridged. *)
Fixpoint check_shapes (tl : list nat) (rest : list ndarray) : result unit :=
  match rest with
  | [] => Ok tt
  | a :: rest' =>
      if bool_decide (length (shape a) = S (length tl))
      then if bool_decide (tail (shape a) = tl)
           then check_shapes tl rest'
           else Raise (ValueError
                  ("all the input array dimensions except for the "
                   +:+ "concatenation axis must match exactly"))
      else Raise (ValueError
             "all the input arrays must have same number of dimensions")
  end.

(** [np.concatenate(arrays)], along axis 0. *)
Definition np_concatenate (arrays : list ndarray) : result ndarray :=
  match arrays with
  | [] => Raise (ValueError "need at least one array to concatenate")
  | a0 :: rest =>
      match shape a0 with
      | [] => Raise (ValueError
                "zero-dimensional arrays cannot be concatenated")
      | _ :: tl =>
          _ ← check_shapes tl rest;
          mret (Array (sum_list (dim0 <$> arrays) :: tl)
                      (concat (data <$> arrays)))
      end
  end.

(** [t.cpu()] moves a tensor to host memory and keeps its value. *)
Definition cpu (t : ndarray) : ndarray := t.

(** [concatenate(lists)]: [np.concatenate([t.cpu() for t in lists])] *)
Definition concatenate (lists : list ndarray) : result ndarray :=
  np_concatenate (cpu <$> lists).

End SchemaHelpers.

(** ** punctuation_capitalization_callback.py *)

Module PunctCallback.
Import Np Torch.

(** [global_vars]: the accumulator lists by name. *)
Abbreviation global_vars_t := (gmap string (list pyval)).

(** [tensors]: a dict from tensor names to the list of tensors collected
    for the batch, in iteration (insertion) order. *)
Abbreviation tensors_t := (list (string * list ndarray)).

Abbreviation output_t := (gmap string ndarray).

(** Modelled from the spec: [tensor2list] of
    [nemo.collections.nlp.utils.callback_utils] is not among the sources;
    it turns a tensor into the Python list that the running lists are
    extended with ([tensor.detach().cpu().tolist()]). *)
Definition tensor2list (t : ndarray) : pyval := tolist t.

(** [if key not in global_vars: global_vars[key] = []] *)
Definition init_key (key : string) (global_vars : global_vars_t)
  : global_vars_t :=
  match global_vars !! key with
  | Some _ => global_vars
  | None => <[key := []]> global_vars
  end.

Definition GLOBAL_KEYS : list string :=
  ["punct_labels"; "capit_labels"; "punct_preds"; "capit_preds"].

(** The body of [for k, v in tensors.items()]. *)
Definition output_step (output : result output_t) (kv : string * list ndarray)
  : result output_t :=
  output ← output;
  let name := str_split kv.1 "~~~" in
  if (1 <? length name)%nat
  then t ← cat kv.2; mret (<[hd "" name := t]> output)
  else mret output.

Definition build_output (tensors : tensors_t) : result output_t :=
  foldl output_step (Ok ∅) tensors.

Definition getitem (output : output_t) (key : string) : result ndarray :=
  match output !! key with
  | Some t => Ok t
  | None => Raise (KeyError key)
  end.

(** Iterating over the argument of [list.extend]. *)
Definition iter_items (v : pyval) : result (list pyval) :=
  match v with
  | PList items => Ok items
  | PNum _ => Raise TypeError
  end.

(** [global_vars[key].extend(items)]: the list is looked up before the
    argument is evaluated. *)
Definition extend (key : string) (items : result (list pyval))
  : py global_vars_t unit :=
  fun global_vars =>
    match global_vars !! key with
    | None => (global_vars, Raise (KeyError key))
    | Some l =>
        match items with
        | Ok xs => (<[key := l ++ xs]> global_vars, Ok tt)
        | Raise e => (global_vars, Raise e)
        end
    end.

(** [tensor2list(torch.argmax(output[key], axis=-1)[subtokens_mask])] *)
Definition masked_preds (output : output_t) (key : string)
  (subtokens_mask : mask) : result (list pyval) :=
  logits ← getitem output key;
  a ← argmax logits;
  s ← masked_select a subtokens_mask;
  iter_items (tensor2list s).

(** [tensor2list(output[key][subtokens_mask])] *)
Definition masked_labels (output : output_t) (key : string)
  (subtokens_mask : mask) : result (list pyval) :=
  labels ← getitem output key;
  s ← masked_select labels subtokens_mask;
  iter_items (tensor2list s).

(** Lines 55 to 60. *)
Definition part_sent_block (output : output_t) : py global_vars_t unit :=
  if bool_decide (is_Some (output !! "part_sent_logits"))
  then
    modify (fun global_vars =>
              match global_vars !! "part_sent_preds" with
              | Some _ => global_vars
              | None => <["part_sent_labels" := []]>
                          (<["part_sent_preds" := []]> global_vars)
              end);;
    extend "part_sent_preds"
      (logits ← getitem output "part_sent_logits";
       a ← argmax logits;
       iter_items (tensor2list a));;
    extend "part_sent_labels"
      (labels ← getitem output "part_sent_labels";
       iter_items (tensor2list labels))
  else mret tt.

Definition eval_iter_callback (tensors : tensors_t) : py global_vars_t unit :=
  modify (init_key "punct_all_preds");;
  modify (init_key "punct_all_labels");;
  modify (init_key "capit_all_preds");;
  modify (init_key "capit_all_labels");;
  modify (init_key "all_subtokens_mask");;
  modify (fun global_vars => foldl (fun g key => init_key key g)
                               global_vars GLOBAL_KEYS);;
  output ← lift (build_output tensors);
  m ← lift (getitem output "subtokens_mask");
  let subtokens_mask := gt m (1 # 2) in
  extend "punct_preds" (masked_preds output "punct_logits" subtokens_mask);;
  extend "capit_preds" (masked_preds output "capit_logits" subtokens_mask);;
  extend "punct_labels" (masked_labels output "punct_labels" subtokens_mask);;
  extend "capit_labels" (masked_labels output "capit_labels" subtokens_mask);;
  part_sent_block output.

(** The evaluation loop calls the callback once per batch; an exception
    ends the loop. *)
Definition eval_iter_callbacks (batches : list tensors_t)
  : py global_vars_t unit :=
  foldl (fun acc tensors => acc;; eval_iter_callback tensors) (mret tt) batches.

(** One entry of a classification report. *)
Record metrics := Metrics {
  precision : Q; recall : Q; f1_score : Q; support : Q
}.

(** A classification report as a dict, in iteration order. *)
Abbreviation class_report_t := (list (string * metrics)).

Abbreviation results_t := (gmap string Q).

Fixpoint report_get (class_report : class_report_t) (label : string)
  : result metrics :=
  match class_report with
  | [] => Raise (KeyError label)
  | (l, m) :: rest => if bool_decide (l = label) then Ok m
                      else report_get rest label
  end.

(** Nearest integer, ties to the even one. *)
Definition round_half_even (x : Q) : Z :=
  let f := Qfloor x in
  let r := (x - inject_Z f)%Q in
  if Qgtb (1 # 2) r then f
  else if Qgtb r (1 # 2) then (f + 1)%Z
  else if Z.even f then f else (f + 1)%Z.

(** [round(x, 2)] *)
Definition round2 (x : Q) : Q := (inject_Z (round_half_even (x * 100)) / 100)%Q.

(** [label[: label.index('(label id') - 1] if 'label id' in label else label] *)
Definition label_name (label : string) : result string :=
  if str_in "label id" label
  then i ← str_index label "(label id";
       mret (str_slice_to label (Z.of_nat i - 1))
  else mret label.

(** The body of [for label in class_report]. *)
Definition result_dict_step (tag : string) (class_report : class_report_t)
  (results : result results_t) (label : string) : result results_t :=
  results ← results;
  label_name ← label_name label;
  m ← report_get class_report label;
  let results :=
    <[tag +:+ "F1 " +:+ label_name := round2 (f1_score m * 100)]> results in
  let results :=
    <[tag +:+ "PR " +:+ label_name := round2 (precision m * 100)]> results in
  let results :=
    <[tag +:+ "R " +:+ label_name := round2 (recall m * 100)]> results in
  mret results.

Definition _get_result_dict (tag : string) (class_report : class_report_t)
  : result results_t :=
  foldl (result_dict_step tag class_report) (Ok ∅) class_report.*1.

(** [results.update(d)] *)
Definition update (results d : results_t) : results_t := d ∪ results.

(** What the epoch-end callback does to the outside world, in order. *)
Inductive cb_event :=
| PlotConfusionMatrix (labels preds : list pyval) (graph_fold : string)
    (normalize : bool) (prefix : string)
| LogReport (text : string)
| LogAccuracy (acc : Q)
| LogResults (results : results_t).

Definition emit (e : cb_event) : py (list cb_event) unit :=
  modify (fun tr => tr ++ [e]).

Definition gv_getitem (global_vars : global_vars_t) (key : string)
  : result (list pyval) :=
  match global_vars !! key with
  | Some l => Ok l
  | None => Raise (KeyError key)
  end.

Section EpochsDone.
(** The label vocabularies, and the helpers of [callback_utils] and numpy
    that the epoch-end callback delegates to. *)
Variable label_ids_t : Type.
Variable get_classification_report_text :
  list pyval -> list pyval -> option label_ids_t -> result string.
Variable get_classification_report_dict :
  list pyval -> list pyval -> option label_ids_t -> result class_report_t.
(** [np.mean(np.asarray(labels) == np.asarray(preds))] *)
Variable np_mean_eq : list pyval -> list pyval -> Q.

Definition truthy (graph_fold : option string) : option string :=
  match graph_fold with
  | Some s => if bool_decide (s = "") then None else Some s
  | None => None
  end.

Definition _eval_epochs_done_callback (task_name : string)
  (global_vars : global_vars_t) (label_ids : option label_ids_t)
  (graph_fold : option string) (normalize_cm : bool)
  : py (list cb_event) class_report_t :=
  labels ← lift (gv_getitem global_vars (task_name +:+ "_labels"));
  preds ← lift (gv_getitem global_vars (task_name +:+ "_preds"));
  match truthy graph_fold with
  | Some dir => emit (PlotConfusionMatrix labels preds dir normalize_cm
                        task_name)
  | None => mret tt
  end;;
  text ← lift (get_classification_report_text labels preds label_ids);
  emit (LogReport text);;
  lift (get_classification_report_dict labels preds label_ids).

(** Lines 85 to 92. *)
Definition part_sent_results (global_vars : global_vars_t)
  (part_sent_label_ids : option label_ids_t) (graph_fold : option string)
  (normalize_cm : bool) (results : results_t)
  : py (list cb_event) results_t :=
  if bool_decide (is_Some (global_vars !! "part_sent_preds"))
  then
    part_sent_labels ← lift (gv_getitem global_vars "part_sent_labels");
    part_sent_preds ← lift (gv_getitem global_vars "part_sent_preds");
    part_sent_class_report ←
      _eval_epochs_done_callback "part_sent" global_vars
        part_sent_label_ids graph_fold normalize_cm;
    d ← lift (_get_result_dict "t" part_sent_class_report);
    let results := update results d in
    let part_sent_acc := np_mean_eq part_sent_labels part_sent_preds in
    emit (LogAccuracy part_sent_acc);;
    mret (<["Part_sent_acc" := round2 (part_sent_acc * 100)]> results)
  else mret results.

Definition eval_epochs_done_callback (global_vars : global_vars_t)
  (punct_label_ids capit_label_ids : label_ids_t)
  (part_sent_label_ids : option label_ids_t) (graph_fold : option string)
  (normalize_cm : bool) : py (list cb_event) results_t :=
  let results : results_t := ∅ in
  punct_class_report ←
    _eval_epochs_done_callback "punct" global_vars (Some punct_label_ids)
      graph_fold normalize_cm;
  d ← lift (_get_result_dict "p" punct_class_report);
  let results := update results d in
  capit_class_report ←
    _eval_epochs_done_callback "capit" global_vars (Some capit_label_ids)
      graph_fold normalize_cm;
  d ← lift (_get_result_dict "c" capit_class_report);
  let results := update results d in
  results ← part_sent_results global_vars part_sent_label_ids graph_fold
              normalize_cm results;
  emit (LogResults results);;
  mret results.
End EpochsDone.

Arguments _eval_epochs_done_callback {label_ids_t}.
Arguments part_sent_results {label_ids_t}.
Arguments eval_epochs_done_callback {label_ids_t}.

End PunctCallback.

(** ** Vocabulary of the statements *)

Module Spec.
Import Np Torch SchemaProcessor PunctCallback.

(** The columns built so far line up with the records read so far. *)
Definition columns_of (d : defaultdict_list) (records : list service) : Prop :=
  forall k, k ∈ EMB_KINDS ->
    Forall2 (fun v s => s !! k = Some v) (dd_getitem d k) records.

Definition has_fields (s : service) : Prop :=
  forall k, k ∈ EMB_KINDS -> is_Some (s !! k).

(** A one-record file content, for the examples. *)
Definition sample_service (x : Q) : service :=
  list_to_map [("cat_slot_emb", Array [1%nat] [x]);
               ("cat_slot_value_emb", Array [1%nat] [(x + 1)%Q]);
               ("noncat_slot_emb", Array [1%nat] [(x + 2)%Q]);
               ("req_slot_emb", Array [1%nat] [(x + 3)%Q]);
               ("intent_emb", Array [1%nat] [(x + 4)%Q])].

(** The positions, in ascending order from [i], of the elements of [xs]
    that satisfy [p]. *)
Fixpoint indices_where {A} (p : A -> bool) (i : nat) (xs : list A)
  : list nat :=
  match xs with
  | [] => []
  | x :: xs' => if p x then i :: indices_where p (S i) xs'
                else indices_where p (S i) xs'
  end.

(** The row-major positions of a subtoken mask whose value exceeds 0.5. *)
Definition real_subtokens (m : ndarray) : list nat :=
  indices_where (fun x => Qgtb x (1 # 2)) 0 (data m).

(** The class scores at row-major position [i] of a logits tensor whose
    last dimension has size [c]. *)
Definition logits_at (logits : ndarray) (c i : nat) : list Q :=
  take c (drop (i * c) (data logits)).

(** The predictions a masked task appends: the argmax class index at each
    real subtoken. *)
Definition expected_preds (logits m : ndarray) (c : nat) : list pyval :=
  (fun i => PNum (class_index (logits_at logits c i))) <$> real_subtokens m.

(** The labels a masked task appends: the label at each real subtoken. *)
Definition expected_labels (labels m : ndarray) : list pyval :=
  (fun i => PNum (nth i (data labels) 0%Q)) <$> real_subtokens m.

(** [key] holds a well-formed tensor [t] of shape [sh]. *)
Definition has_tensor (output : output_t) (key : string) (sh : list nat)
  (t : ndarray) : Prop :=
  output !! key = Some t /\ shape t = sh /\ wf t.

(** A batch with a subtoken mask of some shape, logits of that shape
    extended by a non-empty class dimension, and labels of that shape, for
    both tasks. *)
Record token_batch (output : output_t) (m pl cl plab clab : ndarray)
  (np nc : nat) : Prop := {
  tb_mask : has_tensor output "subtokens_mask" (shape m) m;
  tb_punct_logits : has_tensor output "punct_logits" (shape m ++ [np]) pl;
  tb_capit_logits : has_tensor output "capit_logits" (shape m ++ [nc]) cl;
  tb_punct_labels : has_tensor output "punct_labels" (shape m) plab;
  tb_capit_labels : has_tensor output "capit_labels" (shape m) clab;
  tb_np : np <> 0%nat;
  tb_nc : nc <> 0%nat
}.

(** The accumulator list under [key], empty while the key is absent. *)
Definition acc (global_vars : global_vars_t) (key : string) : list pyval :=
  default [] (global_vars !! key).

(** The keys that line 27 to 36 create and nothing else mentions. *)
Definition UNUSED_KEYS : list string :=
  ["punct_all_preds"; "punct_all_labels"; "capit_all_preds";
   "capit_all_labels"; "all_subtokens_mask"].

(** The state after lines 27 to 41. *)
Definition init_keys (global_vars : global_vars_t) : global_vars_t :=
  foldl (fun g key => init_key key g) global_vars (UNUSED_KEYS ++ GLOBAL_KEYS).

(** Lines 49 to 60, for a given [output]. *)
Definition main_block (output : output_t) : py global_vars_t unit :=
  m ← lift (getitem output "subtokens_mask");
  let subtokens_mask := gt m (1 # 2) in
  extend "punct_preds" (masked_preds output "punct_logits" subtokens_mask);;
  extend "capit_preds" (masked_preds output "capit_logits" subtokens_mask);;
  extend "punct_labels" (masked_labels output "punct_labels" subtokens_mask);;
  extend "capit_labels" (masked_labels output "capit_labels" subtokens_mask);;
  part_sent_block output.

(** A computation changes at most the keys of [K]. *)
Definition touches {A} (K : list string) (c : py global_vars_t A) : Prop :=
  forall g k, k ∉ K -> (c g).1 !! k = g !! k.

(** Number of rows that a boolean mask selects. *)
Definition selected (m : mask) : nat :=
  length (select (mdata m) (replicate (numel (mshape m)) tt)).

(** The four running lists have one length. *)
Definition equal_len (global_vars : global_vars_t) : Prop :=
  exists n, forall k, k ∈ GLOBAL_KEYS -> length (acc global_vars k) = n.

(** Two dictionaries differ at most on the keys of [K]. *)
Definition agree_off (K : list string) (g1 g2 : global_vars_t) : Prop :=
  forall k, k ∉ K -> g1 !! k = g2 !! k.

(** A computation neither reads nor writes the keys of [K]: started in
    states that differ at most there, it ends with the same outcome in
    states that differ at most there. *)
Definition ignores {A} (K : list string) (c : py global_vars_t A) : Prop :=
  forall g1 g2, agree_off K g1 g2 ->
    agree_off K (c g1).1 (c g2).1 /\ (c g1).2 = (c g2).2.

(** The name under which an entry of [tensors] is stored in [output]: the
    text of its key before the first separator. *)
Definition entry_name (kv : string * list ndarray) : string :=
  hd "" (str_split kv.1 "~~~").

(** The key of a [tensors] entry contains the separator. *)
Definition has_sep (kv : string * list ndarray) : Prop :=
  str_in "~~~" kv.1 = true.

(** The three keys that an entry of a report named [name] is stored
    under. *)
Definition f1_key (tag name : string) : string := tag +:+ "F1 " +:+ name.
Definition pr_key (tag name : string) : string := tag +:+ "PR " +:+ name.
Definition r_key (tag name : string) : string := tag +:+ "R " +:+ name.

(** [results] holds, for the labels [labels] of [class_report], the three
    metrics times 100 rounded to two decimals, under the tagged name of the
    label (the text before [" (label id"]); of several labels with one name
    the last one counts. *)
Definition report_entries (tag : string) (class_report : class_report_t)
  (labels : list string) (results : results_t) : Prop :=
  forall i label name m,
    labels !! i = Some label ->
    label_name label = Ok name ->
    (forall j label', i < j -> labels !! j = Some label' ->
       label_name label' <> Ok name) ->
    report_get class_report label = Ok m ->
    results !! f1_key tag name = Some (round2 (f1_score m * 100))
    /\ results !! pr_key tag name = Some (round2 (precision m * 100))
    /\ results !! r_key tag name = Some (round2 (recall m * 100)).

(** Every key of [results] starts with [tag]. *)
Definition tagged (tag : string) (results : results_t) : Prop :=
  forall k v, results !! k = Some v -> exists rest, k = tag +:+ rest.

(** The accumulators of [task_name] are there, the two reports of the task
    are computed, [class_report] being the report as a dict, and every
    label of it has a name. *)
Definition task_ready {label_ids_t : Type}
  (get_classification_report_text :
     list pyval -> list pyval -> option label_ids_t -> result string)
  (get_classification_report_dict :
     list pyval -> list pyval -> option label_ids_t -> result class_report_t)
  (global_vars : global_vars_t) (task_name : string)
  (label_ids : option label_ids_t) (class_report : class_report_t) : Prop :=
  exists labels preds text,
    global_vars !! (task_name +:+ "_labels") = Some labels
    /\ global_vars !! (task_name +:+ "_preds") = Some preds
    /\ get_classification_report_text labels preds label_ids = Ok text
    /\ get_classification_report_dict labels preds label_ids = Ok class_report
    /\ Forall (fun l => exists n, label_name l = Ok n) class_report.*1.

(** The predictions of a sentence-level task: the argmax class index of
    each of the [b] rows of the logits. *)
Definition sentence_preds (logits : ndarray) (c b : nat) : list pyval :=
  (fun i => PNum (class_index (logits_at logits c i))) <$> seq 0 b.

(** All the entries of a one-dimensional label tensor. *)
Definition sentence_labels (labels : ndarray) : list pyval :=
  PNum <$> data labels.

(** The state in which the partial-sentence lists are extended. *)
Definition part_sent_init (global_vars : global_vars_t) : global_vars_t :=
  match global_vars !! "part_sent_preds" with
  | Some _ => global_vars
  | None => <["part_sent_labels" := []]>
              (<["part_sent_preds" := []]> global_vars)
  end.

(** *** Sample inputs *)

(** Two sentences of two subtokens each; the mask arrives as one tensor per
    sentence.  Positions 0, 2 and 3 are real subtokens. *)
Definition ex_mask : ndarray := Array [2; 2]%nat [1; 0; 1; 1]%Q.

Definition ex_punct_logits : ndarray :=
  Array [2; 2; 3]%nat
    [1 # 10; 7 # 10; 2 # 10;  3 # 10; 3 # 10; 3 # 10;
     9 # 10; 0; 1 # 10;  2 # 10; 3 # 10; 5 # 10]%Q.

Definition ex_capit_logits : ndarray :=
  Array [2; 2; 2]%nat
    [4 # 10; 6 # 10;  1; 0;  5 # 10; 5 # 10;  1 # 10; 9 # 10]%Q.

Definition ex_punct_labels : ndarray := Array [2; 2]%nat [1; 0; 0; 2]%Q.
Definition ex_capit_labels : ndarray := Array [2; 2]%nat [1; 1; 0; 0]%Q.
Definition ex_loss : ndarray := Array [] [3 # 10]%Q.

Definition ex_tensors : tensors_t :=
  [("subtokens_mask~~~m",
    [Array [1; 2]%nat [1; 0]%Q; Array [1; 2]%nat [1; 1]%Q]);
   ("loss", [ex_loss]);
   ("punct_logits~~~pl", [ex_punct_logits]);
   ("capit_logits~~~cl", [ex_capit_logits]);
   ("punct_labels~~~x", [ex_punct_labels]);
   ("capit_labels~~~y", [ex_capit_labels])].

Definition ex_output : output_t :=
  list_to_map [("subtokens_mask", ex_mask);
               ("punct_logits", ex_punct_logits);
               ("capit_logits", ex_capit_logits);
               ("punct_labels", ex_punct_labels);
               ("capit_labels", ex_capit_labels)].

(** The same batch with a partial-sentence output: one row of two class
    scores and one label per sentence. *)
Definition ex_part_sent_logits : ndarray :=
  Array [2; 2]%nat [3 # 10; 7 # 10;  8 # 10; 2 # 10]%Q.
Definition ex_part_sent_labels : ndarray := Array [2]%nat [1; 1]%Q.

Definition ex_tensors_ps : tensors_t :=
  ex_tensors ++ [("part_sent_logits~~~a", [ex_part_sent_logits]);
                 ("part_sent_labels~~~b", [ex_part_sent_labels])].

Definition ex_output_ps : output_t :=
  <["part_sent_labels" := ex_part_sent_labels]>
    (<["part_sent_logits" := ex_part_sent_logits]> ex_output).

(** The same batch with per-subtoken partial-sentence logits and labels. *)
Definition ex_tensors_pt : tensors_t :=
  ex_tensors ++ [("part_sent_logits~~~a", [ex_capit_logits]);
                 ("part_sent_labels~~~b", [ex_capit_labels])].

Definition ex_output_pt : output_t :=
  <["part_sent_labels" := ex_capit_labels]>
    (<["part_sent_logits" := ex_capit_logits]> ex_output).

(** The accumulators after one call on that batch. *)
Definition ex_global_vars : global_vars_t :=
  (eval_iter_callback ex_tensors_ps ∅).1.

(** Stand-ins for the report helpers and for the accuracy. *)
Definition ex_report : class_report_t :=
  [("O (label id: 0)", Metrics (2 # 3) (3 # 4) (12 # 17) 4);
   ("macro avg", Metrics (1 # 2) (1 # 8) (1 # 5) 4)].
Definition ex_report_text (_ _ : list pyval) (_ : option unit)
  : result string := Ok "report".
Definition ex_report_dict (_ _ : list pyval) (_ : option unit)
  : result class_report_t := Ok ex_report.
Definition ex_np_mean_eq (_ _ : list pyval) : Q := 1 # 2.

(** A process of rank 1 in an initialised group, the single process of a
    run that is not distributed, and stand-ins for the encoder output and
    for the files on disk. *)
Definition ex_worker : dist_env := {| is_initialized := true; get_rank := 1 |}.
Definition ex_single : dist_env := {| is_initialized := false; get_rank := 0 |}.
Definition ex_infer (_ : string) : list service := [sample_service 7].
Definition ex_train_file : string :=
  "emb/train_pretrained_schema_embedding.npy".
Definition ex_fs : filesystem := {[ex_train_file := [sample_service 0]]}.
Definition ex_fs2 : filesystem :=
  {[ex_train_file := [sample_service 0; sample_service 10]]}.
Definition ex_self : SchemaPreprocessor :=
  {| schemas_dict := ∅; _schema_embedding_dir := "emb" |}.

End Spec.

(** ** Further vocabulary: the schema preprocessor *)

Module SchemaSpec.
Import Np Torch SchemaProcessor SchemaHelpers Spec.

(** Two records hold the same five embeddings. *)
Definition same_fields (s1 s2 : service) : Prop :=
  forall k, k ∈ EMB_KINDS -> s1 !! k = s2 !! k.

(** The path of the [schema.json] of a split. *)
Definition schema_json_path (data_dir dataset_split : string) : string :=
  os_path_join data_dir [dataset_split; "schema.json"].

(** A file whose second record lacks a field, and one whose record holds a
    field more. *)
Definition ex_bad_records : list service :=
  [sample_service 0; delete "req_slot_emb" (sample_service 1)].
Definition ex_fs_bad : filesystem := {[ex_train_file := ex_bad_records]}.
Definition ex_rich_records : list service :=
  [<["service_name" := Array [] [1%Q]]> (sample_service 0)].
Definition ex_fs_rich : filesystem := {[ex_train_file := ex_rich_records]}.

(** A preprocessor with an absolute embedding directory. *)
Definition ex_self_abs : SchemaPreprocessor :=
  {| schemas_dict := ∅; _schema_embedding_dir := "/emb" |}.

(** An array of at least one dimension whose sizes after the first are
    [tl]. *)
Definition rows_of (tl : list nat) (a : ndarray) : Prop :=
  exists d, shape a = d :: tl.

End SchemaSpec.

(** ** Further vocabulary: the callbacks *)

Module CallbackSpec.
Import Np Torch PunctCallback Spec.

(** The entry at position [i] of [tensors] is the last one stored under
    [name]: its key has the separator, [name] is the text before it, and no
    later key with the separator has that name. *)
Definition last_named (tensors : tensors_t) (name : string) (i : nat)
  (kv : string * list ndarray) : Prop :=
  tensors !! i = Some kv /\ has_sep kv /\ entry_name kv = name
  /\ forall j kv', i < j -> tensors !! j = Some kv' -> has_sep kv' ->
       entry_name kv' <> name.

(** Every list of [g] is still there in [g'], and every list but
    [part_sent_labels] has only been appended to. *)
Definition grows (g g' : global_vars_t) : Prop :=
  (forall k, is_Some (g !! k) -> is_Some (g' !! k))
  /\ (forall k, k <> "part_sent_labels" -> acc g k `prefix_of` acc g' k).

(** The keys the callback may write. *)
Definition CALLBACK_KEYS : list string :=
  UNUSED_KEYS ++ GLOBAL_KEYS ++ ["part_sent_preds"; "part_sent_labels"].

(** A batch without the mask, and one without the capitalization logits. *)
Definition ex_tensors_no_mask : tensors_t :=
  [("punct_logits~~~pl", [ex_punct_logits]); ("loss", [ex_loss])].
Definition ex_output_no_mask : output_t :=
  list_to_map [("punct_logits", ex_punct_logits)].
Definition ex_tensors_no_capit : tensors_t :=
  [("subtokens_mask~~~m", [ex_mask]);
   ("punct_logits~~~pl", [ex_punct_logits])].
Definition ex_output_no_capit : output_t :=
  list_to_map [("subtokens_mask", ex_mask);
               ("punct_logits", ex_punct_logits)].

(** The five tensors of the token-level tasks. *)
Definition TOKEN_KEYS : list string :=
  ["subtokens_mask"; "punct_logits"; "capit_logits"; "punct_labels";
   "capit_labels"].

(** [output] holds under [key] the concatenation of what [o1] and [o2]
    hold there. *)
Definition stacked (o1 o2 output : output_t) (key : string) : Prop :=
  exists a b t, o1 !! key = Some a /\ o2 !! key = Some b
    /\ cat [a; b] = Ok t /\ output !! key = Some t.

(** The two sentences of the sample batch, one per call, and both in one
    call with two tensors per key. *)
Definition ex_mask1 : ndarray := Array [1; 2]%nat [1; 0]%Q.
Definition ex_mask2 : ndarray := Array [1; 2]%nat [1; 1]%Q.
Definition ex_punct_logits1 : ndarray :=
  Array [1; 2; 3]%nat [1 # 10; 7 # 10; 2 # 10;  3 # 10; 3 # 10; 3 # 10]%Q.
Definition ex_punct_logits2 : ndarray :=
  Array [1; 2; 3]%nat [9 # 10; 0; 1 # 10;  2 # 10; 3 # 10; 5 # 10]%Q.
Definition ex_capit_logits1 : ndarray :=
  Array [1; 2; 2]%nat [4 # 10; 6 # 10;  1; 0]%Q.
Definition ex_capit_logits2 : ndarray :=
  Array [1; 2; 2]%nat [5 # 10; 5 # 10;  1 # 10; 9 # 10]%Q.
Definition ex_punct_labels1 : ndarray := Array [1; 2]%nat [1; 0]%Q.
Definition ex_punct_labels2 : ndarray := Array [1; 2]%nat [0; 2]%Q.
Definition ex_capit_labels1 : ndarray := Array [1; 2]%nat [1; 1]%Q.
Definition ex_capit_labels2 : ndarray := Array [1; 2]%nat [0; 0]%Q.

Definition ex_half1 : tensors_t :=
  [("subtokens_mask~~~m", [ex_mask1]);
   ("punct_logits~~~pl", [ex_punct_logits1]);
   ("capit_logits~~~cl", [ex_capit_logits1]);
   ("punct_labels~~~x", [ex_punct_labels1]);
   ("capit_labels~~~y", [ex_capit_labels1])].
Definition ex_half2 : tensors_t :=
  [("subtokens_mask~~~m", [ex_mask2]);
   ("punct_logits~~~pl", [ex_punct_logits2]);
   ("capit_logits~~~cl", [ex_capit_logits2]);
   ("punct_labels~~~x", [ex_punct_labels2]);
   ("capit_labels~~~y", [ex_capit_labels2])].
Definition ex_both : tensors_t :=
  [("subtokens_mask~~~m", [ex_mask1; ex_mask2]);
   ("punct_logits~~~pl", [ex_punct_logits1; ex_punct_logits2]);
   ("capit_logits~~~cl", [ex_capit_logits1; ex_capit_logits2]);
   ("punct_labels~~~x", [ex_punct_labels1; ex_punct_labels2]);
   ("capit_labels~~~y", [ex_capit_labels1; ex_capit_labels2])].
Definition ex_output_half1 : output_t :=
  list_to_map [("subtokens_mask", ex_mask1);
               ("punct_logits", ex_punct_logits1);
               ("capit_logits", ex_capit_logits1);
               ("punct_labels", ex_punct_labels1);
               ("capit_labels", ex_capit_labels1)].
Definition ex_output_half2 : output_t :=
  list_to_map [("subtokens_mask", ex_mask2);
               ("punct_logits", ex_punct_logits2);
               ("capit_logits", ex_capit_logits2);
               ("punct_labels", ex_punct_labels2);
               ("capit_labels", ex_capit_labels2)].

(** A label that mentions [label id] without the opening parenthesis. *)
Definition bad_label (label : string) : Prop :=
  str_in "label id" label = true /\ str_in "(label id" label = false.

Definition SUBSTRING_NOT_FOUND : exn := ValueError "substring not found".

(** The keys under which the metrics of the label named [name] go. *)
Definition result_keys (tag name : string) : list string :=
  [f1_key tag name; pr_key tag name; r_key tag name].

(** A report with a label that [_get_result_dict] cannot name. *)
Definition ex_report_bad : class_report_t :=
  [("O (label id: 0)", Metrics (2 # 3) (3 # 4) (12 # 17) 4);
   ("label id 1", Metrics (1 # 2) (1 # 8) (1 # 5) 4)].

(** An event other than the plot of a confusion matrix, or the plot for one
    of the tasks, from the lists of the task, into the folder [graph_fold]
    and with the normalization asked for. *)
Definition plot_ok (global_vars : global_vars_t) (graph_fold : option string)
  (normalize_cm : bool) (e : cb_event) : Prop :=
  match e with
  | PlotConfusionMatrix labels preds dir normalize prefix =>
      graph_fold = Some dir /\ dir <> "" /\ normalize = normalize_cm
      /\ prefix ∈ ["punct"; "capit"; "part_sent"]
      /\ global_vars !! (prefix +:+ "_labels") = Some labels
      /\ global_vars !! (prefix +:+ "_preds") = Some preds
  | _ => True
  end.

(** A computation only adds events to the trace, and each of them
    satisfies [P]. *)
Definition emits {A} (P : cb_event -> Prop) (c : py (list cb_event) A)
  : Prop :=
  forall tr, exists evs, (c tr).1 = tr ++ evs /\ Forall P evs.

(** The trace and the result of the epoch-end callback on the sample
    accumulators. *)
Definition ex_trace : list cb_event :=
  (eval_epochs_done_callback ex_report_text ex_report_dict ex_np_mean_eq
     ex_global_vars tt tt None None true []).1.
Definition ex_results : results_t :=
  match (eval_epochs_done_callback ex_report_text ex_report_dict
           ex_np_mean_eq ex_global_vars tt tt None None true []).2 with
  | Ok results => results
  | Raise _ => ∅
  end.

End CallbackSpec.

(** * Properties *)

(** ** Strings and paths *)

Module PyFacts.

Example str_split_marked :
  str_split "punct_logits~~~7f3a" "~~~" = ["punct_logits"; "7f3a"].
Proof. reflexivity. Qed.

Example str_split_plain : str_split "loss" "~~~" = ["loss"].
Proof. reflexivity. Qed.

Example str_split_overlap : str_split "a~~~~b~~~" "~~~" = ["a"; "~b"; ""].
Proof. reflexivity. Qed.

Example os_path_join_relative :
  os_path_join "emb" ["train_pretrained_schema_embedding.npy"]
  = "emb/train_pretrained_schema_embedding.npy".
Proof. reflexivity. Qed.

Example os_path_join_slash : os_path_join "emb/" ["dev"; "schema.json"]
  = "emb/dev/schema.json".
Proof. reflexivity. Qed.

Example os_path_join_absolute : os_path_join "emb" ["/tmp/x.npy"] = "/tmp/x.npy".
Proof. reflexivity. Qed.

Example str_slice_to_negative : str_slice_to "abcd" (-1) = "abc".
Proof. reflexivity. Qed.

Lemma prefix_append (p s : string) : String.prefix p (p +:+ s) = true.
Proof.
  induction p as [|c p IH]; simpl.
  - by destruct s.
  - destruct (ascii_dec c c); [exact IH | congruence].
Qed.

Lemma prefix_split (p s : string) :
  String.prefix p s = true -> exists r, s = p +:+ r.
Proof.
  revert s. induction p as [|c p IH]; intros s H.
  - by exists s.
  - destruct s as [|d s]; simpl in H; [discriminate|].
    destruct (ascii_dec c d) as [->|]; [|discriminate].
    destruct (IH _ H) as [r ->]. by exists r.
Qed.

Lemma os_path_join_one (a b : string) : os_path_join a [b] = join_one a b.
Proof. reflexivity. Qed.

Lemma startswith_append (s t : string) (c : ascii) :
  str_startswith s (String c "") = false ->
  str_startswith t (String c "") = false ->
  str_startswith (s +:+ t) (String c "") = false.
Proof.
  unfold str_startswith. destruct s as [|a s]; simpl; [done|].
  intros H _. destruct (ascii_dec c a); [|done].
  by destruct s.
Qed.

(** With a directory that is neither empty nor ends in a slash and a
    relative name, [os.path.join] puts one slash between the two. *)
Lemma join_one_plain (dir b : string) :
  dir <> "" ->
  str_endswith_char dir "/" = false ->
  str_startswith b "/" = false ->
  join_one dir b = dir +:+ "/" +:+ b.
Proof.
  intros Hne Hend Hst. unfold join_one. rewrite Hst, Hend.
  by rewrite bool_decide_eq_false_2.
Qed.

Lemma str_split_go_length (sep cur s : string) (skip : nat) :
  1 <= length (str_split_go sep skip cur s).
Proof.
  revert skip cur. induction s as [|c s IH]; intros skip cur;
    cbn [str_split_go]; [by rewrite length_cons|].
  destruct skip; [|apply IH].
  destruct (String.prefix sep (String c s)); [|apply IH].
  rewrite length_cons. lia.
Qed.

Lemma str_find_empty (sep : string) : sep <> "" -> str_find sep "" = None.
Proof. by destruct sep. Qed.

(** [len(k.split(sep)) > 1] says that [sep in k]. *)
Lemma split_length_in (sep k : string) :
  sep <> "" -> (1 <? length (str_split k sep))%nat = str_in sep k.
Proof.
  intros Hsep. unfold str_split, str_in. generalize EmptyString as cur.
  induction k as [|c k IH]; intros cur.
  - by rewrite str_find_empty.
  - cbn [str_split_go str_find].
    destruct (String.prefix sep (String c k)).
    + apply Nat.ltb_lt. rewrite length_cons.
      pose proof (str_split_go_length sep "" k (String.length sep - 1)). lia.
    + rewrite IH. by destruct (str_find sep k).
Qed.

Lemma str_find_unfold (sub s : string) :
  str_find sub s
  = if String.prefix sub s then Some 0
    else match s with
         | EmptyString => None
         | String _ s' => S <$> str_find sub s'
         end.
Proof. by destruct s. Qed.

(** [sub in s] holds exactly when [s] is some text, then [sub], then some
    text. *)
Lemma str_in_spec (sub s : string) :
  str_in sub s = true <-> exists a b, s = a +:+ sub +:+ b.
Proof.
  unfold str_in. split.
  - induction s as [|c s IH]; cbn [str_find].
    + destruct (String.prefix sub "") eqn:E; [|done].
      intros _. apply prefix_split in E as [r ->]. by exists "", r.
    + destruct (String.prefix sub (String c s)) eqn:E.
      * intros _. apply prefix_split in E as [r ->]. by exists "", r.
      * destruct (str_find sub s); [|done]. intros _.
        destruct IH as (a & b & ->); [done|]. by exists (String c a), b.
  - intros (a & b & ->). induction a as [|c a IH].
    + change ("" +:+ sub +:+ b) with (sub +:+ b).
      by rewrite str_find_unfold, prefix_append.
    + change (String c a +:+ sub +:+ b) with (String c (a +:+ sub +:+ b)).
      cbn [str_find]. destruct (String.prefix sub _); [done|].
      by destruct (str_find sub (a +:+ sub +:+ b)).
Qed.

End PyFacts.

(** ** The schema-embedding preprocessor *)

Module SchemaProcessorFacts.
Import Np SchemaProcessor Spec PyFacts.

(** The guard of the constructor, spelled out. *)
Lemma generate_guard_iff (overwrite : bool) (env : dist_env)
  (fs : filesystem) (path : string) :
  generate_guard overwrite env fs path = true <->
  (master_device env = true /\ fs !! path = None) \/ overwrite = true.
Proof.
  unfold generate_guard, os_path_exists.
  rewrite orb_true_iff, andb_true_iff, negb_true_iff, bool_decide_eq_false.
  rewrite <- eq_None_not_Some. tauto.
Qed.

Section Constructor.
Context (infer_schema_embeddings : string -> list service).
Context (data_dir schema_embedding_dir : string).
Context (overwrite : bool) (env : dist_env).

#[local] Abbreviation step :=
  (init_split infer_schema_embeddings data_dir schema_embedding_dir
     overwrite env).
#[local] Abbreviation file := (_get_schema_embedding_file_name
                    (self0 schema_embedding_dir)).
#[local] Abbreviation ran := (generated infer_schema_embeddings data_dir
                   schema_embedding_dir).

(** A split that passes the guard is generated and its file written. *)
Lemma init_split_runs (st : filesystem * list event) (split : string) :
  generate_guard overwrite env st.1 (file split) = true ->
  (step st split).1 !! file split
    = Some (infer_schema_embeddings
              (os_path_join data_dir [split; "schema.json"]))
  /\ ran split (step st split).2.
Proof.
  intros Hg. unfold init_split. rewrite Hg. simpl. split.
  - apply lookup_insert_eq.
  - unfold generated. set_solver.
Qed.

(** A split that does not pass the guard leaves everything as it is. *)
Lemma init_split_skips (st : filesystem * list event) (split : string) :
  generate_guard overwrite env st.1 (file split) = false ->
  step st split = st.
Proof. intros Hg. unfold init_split. by rewrite Hg. Qed.

(** The trace only grows and no file disappears. *)
Lemma init_split_mono (st : filesystem * list event) (split : string) :
  (forall e, e ∈ st.2 -> e ∈ (step st split).2)
  /\ (forall p, is_Some (st.1 !! p) -> is_Some ((step st split).1 !! p)).
Proof.
  unfold init_split.
  destruct (generate_guard _ _ _ _); simpl; [|done]. split.
  - set_solver.
  - intros p Hp. rewrite lookup_insert. by case_decide.
Qed.

Lemma foldl_init_split_mono (l : list string) (st : filesystem * list event) :
  (forall e, e ∈ st.2 -> e ∈ (foldl step st l).2)
  /\ (forall p, is_Some (st.1 !! p) -> is_Some ((foldl step st l).1 !! p)).
Proof.
  revert st. induction l as [|s l IH]; intros st; simpl; [done|].
  destruct (IH (step st s)) as [IH1 IH2].
  destruct (init_split_mono st s) as [M1 M2]. split; auto.
Qed.
End Constructor.

Lemma foldl_overwrite_runs
  (infer_schema_embeddings : string -> list service)
  (data_dir schema_embedding_dir : string) (env : dist_env)
  (l : list string) (st : filesystem * list event) (split : string) :
  split ∈ l ->
  let st' := foldl (init_split infer_schema_embeddings data_dir
                      schema_embedding_dir true env) st l in
  generated infer_schema_embeddings data_dir schema_embedding_dir split st'.2
  /\ is_Some (st'.1 !! _get_schema_embedding_file_name
                         (self0 schema_embedding_dir) split).
Proof.
  revert st. induction l as [|s l IH]; intros st Hin; [by inversion Hin|].
  destruct (decide (split = s)) as [->|Hne].
  - simpl.
    destruct (init_split_runs infer_schema_embeddings data_dir
                schema_embedding_dir true env st s) as [Hf Hr].
    { apply generate_guard_iff. by right. }
    destruct (foldl_init_split_mono infer_schema_embeddings data_dir
                schema_embedding_dir true env l
                (init_split infer_schema_embeddings data_dir
                   schema_embedding_dir true env st s)) as [M1 M2].
    split; [by apply M1 | apply M2; eauto].
  - simpl. apply IH. by inversion Hin; subst.
Qed.

(** C3: when the overwrite flag is true, the constructor runs the
    generation pass for every split of [datasets] and writes its embedding
    file, whatever the files already present (in particular when the target
    file exists) and on every process. *)
Theorem overwrite_forces_regeneration
  (infer_schema_embeddings : string -> list service)
  (data_dir schema_embedding_dir : string) (env : dist_env)
  (datasets : list string) (fs : filesystem) (split : string) :
  split ∈ datasets ->
  let r := __init__ infer_schema_embeddings data_dir schema_embedding_dir
             true env datasets fs in
  generated infer_schema_embeddings data_dir schema_embedding_dir split r.2
  /\ is_Some (r.1.2 !! _get_schema_embedding_file_name r.1.1 split).
Proof.
  intros Hin. unfold __init__.
  pose proof (foldl_overwrite_runs infer_schema_embeddings data_dir
                schema_embedding_dir env datasets (fs, []) split Hin) as H.
  simpl in H. destruct (foldl _ _ _) as [fs' evs]. exact H.
Qed.

Lemma overwrite_forces_regeneration_witness :
  ex_fs !! ex_train_file = Some [sample_service 0]
  /\ generated ex_infer "data" "emb" "train"
       (__init__ ex_infer "data" "emb" true ex_single ["train"] ex_fs).2
  /\ is_Some
       ((__init__ ex_infer "data" "emb" true ex_single ["train"] ex_fs).1.2
        !! ex_train_file).
Proof.
  split; [reflexivity|].
  apply (overwrite_forces_regeneration ex_infer "data" "emb" ex_single
           ["train"] ex_fs "train").
  constructor.
Defined.

(** C1, at an input where the code departs from it: on a process of rank 1
    of an initialised process group ([master_device] is false), with the
    embedding file of the split already on disk and the overwrite flag set,
    the constructor runs the generation pass and replaces the file. *)
Theorem non_coordinator_regenerates :
  master_device ex_worker = false
  /\ ex_fs !! ex_train_file = Some [sample_service 0]
  /\ _get_schema_embedding_file_name (self0 "emb") "train" = ex_train_file
  /\ (__init__ ex_infer "data" "emb" true ex_worker ["train"] ex_fs).2
     = [LogInfo "Start generating the schema embeddings for train dataset.";
        SaveEmbeddings ex_train_file [sample_service 7];
        LogInfo ("The schema embeddings saved at " +:+ ex_train_file);
        LogInfo "Finish generating the schema embeddings."]
  /\ (__init__ ex_infer "data" "emb" true ex_worker ["train"] ex_fs).1.2
     !! ex_train_file = Some [sample_service 7].
Proof. repeat split. Qed.

(** What decides whether the pass runs for one split: the process is the
    coordinator and the file is missing, or the overwrite flag is set. *)
Lemma generation_runs_iff
  (infer_schema_embeddings : string -> list service)
  (data_dir schema_embedding_dir : string) (overwrite : bool) (env : dist_env)
  (fs : filesystem) (split : string) :
  let file := _get_schema_embedding_file_name (self0 schema_embedding_dir)
                split in
  (init_split infer_schema_embeddings data_dir schema_embedding_dir overwrite
     env (fs, []) split).2 <> []
  <-> (master_device env = true /\ fs !! file = None) \/ overwrite = true.
Proof.
  intros file. rewrite <- generate_guard_iff. unfold init_split. simpl.
  fold file. destruct (generate_guard overwrite env fs file); simpl.
  - split; [done | discriminate].
  - split; [done | discriminate].
Qed.

(** C4: the loader computes the path of a split by joining the embedding
    directory and [<split>_pretrained_schema_embedding.npy] (for a directory
    that is neither empty nor ends in a slash and a relative split name this
    is literally [<dir>/<split>_pretrained_schema_embedding.npy]); when no
    file is there it raises [ValueError] with the message
    ["<path> not found."], after one existence test and nothing else. *)
Theorem get_schema_embeddings_missing
  (self : SchemaPreprocessor) (fs : filesystem) (dataset_split : string) :
  let path := _get_schema_embedding_file_name self dataset_split in
  fs !! path = None ->
  path = os_path_join (_schema_embedding_dir self)
           [dataset_split +:+ "_pretrained_schema_embedding.npy"]
  /\ (_schema_embedding_dir self <> "" ->
      str_endswith_char (_schema_embedding_dir self) "/" = false ->
      str_startswith dataset_split "/" = false ->
      path = _schema_embedding_dir self +:+ "/" +:+ dataset_split
             +:+ "_pretrained_schema_embedding.npy")
  /\ get_schema_embeddings self fs dataset_split
     = ([FsExists path], Raise (ValueError (path +:+ " not found."))).
Proof.
  intros path Hnone. split; [reflexivity|]. split.
  - intros Hne Hend Hst. unfold path, _get_schema_embedding_file_name.
    rewrite os_path_join_one. apply join_one_plain; [done..|].
    by apply startswith_append.
  - unfold get_schema_embeddings. fold path. by rewrite Hnone.
Qed.

Lemma get_schema_embeddings_missing_witness :
  _get_schema_embedding_file_name ex_self "dev"
    = "emb/dev_pretrained_schema_embedding.npy"
  /\ get_schema_embeddings ex_self ex_fs "dev"
     = ([FsExists "emb/dev_pretrained_schema_embedding.npy"],
        Raise (ValueError
                 "emb/dev_pretrained_schema_embedding.npy not found.")).
Proof.
  destruct (get_schema_embeddings_missing ex_self ex_fs "dev" eq_refl)
    as (_ & Hpath & Hraise).
  split; [by apply Hpath | exact Hraise].
Defined.

Ltac in_kinds := unfold EMB_KINDS; repeat constructor.

(** Reading a column of the defaultdict after one record was appended. *)
Lemma transpose_step_ok (d : defaultdict_list) (s : service)
  (v1 v2 v3 v4 v5 : ndarray) :
  s !! "cat_slot_emb" = Some v1 ->
  s !! "cat_slot_value_emb" = Some v2 ->
  s !! "noncat_slot_emb" = Some v3 ->
  s !! "req_slot_emb" = Some v4 ->
  s !! "intent_emb" = Some v5 ->
  exists d', transpose_step (Ok d) s = Ok d'
    /\ dd_getitem d' "cat_slot_emb" = dd_getitem d "cat_slot_emb" ++ [v1]
    /\ dd_getitem d' "cat_slot_value_emb"
       = dd_getitem d "cat_slot_value_emb" ++ [v2]
    /\ dd_getitem d' "noncat_slot_emb" = dd_getitem d "noncat_slot_emb" ++ [v3]
    /\ dd_getitem d' "req_slot_emb" = dd_getitem d "req_slot_emb" ++ [v4]
    /\ dd_getitem d' "intent_emb" = dd_getitem d "intent_emb" ++ [v5]
    /\ (forall k, k ∉ EMB_KINDS -> d' !! k = d !! k).
Proof.
  intros H1 H2 H3 H4 H5. eexists.
  unfold transpose_step, append_field, getitem. cbn [mbind result_bind mret
    result_ret]. rewrite H1. cbn [mbind result_bind mret result_ret].
  rewrite H2. cbn [mbind result_bind mret result_ret].
  rewrite H3. cbn [mbind result_bind mret result_ret].
  rewrite H4. cbn [mbind result_bind mret result_ret].
  rewrite H5. cbn [mbind result_bind mret result_ret].
  split; [reflexivity|].
  unfold dd_getitem, EMB_KINDS.
  repeat split; try (by simplify_map_eq).
  intros k Hk. rewrite !lookup_insert_ne; [done|set_solver..].
Qed.

Lemma foldl_transpose (records pre : list service) (d : defaultdict_list) :
  columns_of d pre ->
  Forall has_fields records ->
  exists d', foldl transpose_step (Ok d) records = Ok d'
    /\ columns_of d' (pre ++ records)
    /\ (forall k, k ∉ EMB_KINDS -> d' !! k = d !! k).
Proof.
  revert pre d. induction records as [|s records IH]; intros pre d Hc Hf.
  - exists d. by rewrite app_nil_r.
  - apply Forall_cons in Hf as [Hs Hf'].
    destruct (Hs "cat_slot_emb") as [v1 H1]; [in_kinds|].
    destruct (Hs "cat_slot_value_emb") as [v2 H2]; [in_kinds|].
    destruct (Hs "noncat_slot_emb") as [v3 H3]; [in_kinds|].
    destruct (Hs "req_slot_emb") as [v4 H4]; [in_kinds|].
    destruct (Hs "intent_emb") as [v5 H5]; [in_kinds|].
    destruct (transpose_step_ok d s v1 v2 v3 v4 v5 H1 H2 H3 H4 H5)
      as (d1 & Hd1 & E1 & E2 & E3 & E4 & E5 & Eo).
    destruct (IH (pre ++ [s]) d1) as (d' & Hd' & Hc' & Ho'); [|done|].
    + intros k Hk. unfold EMB_KINDS in Hk.
      assert (forall v, s !! k = Some v ->
                dd_getitem d1 k = dd_getitem d k ++ [v] ->
                Forall2 (fun v s => s !! k = Some v) (dd_getitem d1 k)
                  (pre ++ [s])) as Hcol.
      { intros v Hv ->. apply Forall2_app; [by apply Hc | by constructor]. }
      repeat (apply elem_of_cons in Hk as [->|Hk]; [by eapply Hcol|]).
      by apply elem_of_nil in Hk.
    + exists d'. cbn [foldl]. rewrite Hd1, Hd'. rewrite <- app_assoc in Hc'.
      split; [done|]. split; [done|].
      intros k Hk. by rewrite Ho', Eo.
Qed.

(** C5: on a file that holds a sequence of records with the five fields,
    the loader returns the transpose: under each of the five names, the
    list whose i-th element is that field of the i-th record, hence of the
    length of the file; and it holds no other name. *)
Theorem get_schema_embeddings_transpose
  (self : SchemaPreprocessor) (fs : filesystem) (dataset_split : string)
  (records : list service) :
  fs !! _get_schema_embedding_file_name self dataset_split = Some records ->
  Forall has_fields records ->
  exists d, (get_schema_embeddings self fs dataset_split).2 = Ok d
    /\ (forall k, k ∈ EMB_KINDS ->
          length (dd_getitem d k) = length records
          /\ forall i s, records !! i = Some s ->
               dd_getitem d k !! i = s !! k)
    /\ (forall k, k ∉ EMB_KINDS -> d !! k = None).
Proof.
  intros Hfile Hf. unfold get_schema_embeddings. rewrite Hfile. simpl.
  destruct (foldl_transpose records [] ∅) as (d & Hd & Hc & Ho); [|done|].
  { intros k _. unfold dd_getitem. rewrite lookup_empty. constructor. }
  exists d. split; [done|]. split.
  - intros k Hk. specialize (Hc k Hk). simpl in Hc. split.
    + by eapply Forall2_length.
    + intros i s Hi.
      destruct (Forall2_lookup_r _ _ _ _ _ Hc Hi) as (v & Hv & Hs).
      by rewrite Hv, Hs.
  - intros k Hk. by rewrite Ho.
Qed.

Lemma get_schema_embeddings_transpose_witness :
  exists d, (get_schema_embeddings ex_self ex_fs2 "train").2 = Ok d
    /\ (forall k, k ∈ EMB_KINDS ->
          length (dd_getitem d k) = 2%nat
          /\ forall i s, [sample_service 0; sample_service 10] !! i = Some s ->
               dd_getitem d k !! i = s !! k)
    /\ (forall k, k ∉ EMB_KINDS -> d !! k = None).
Proof.
  apply (get_schema_embeddings_transpose ex_self ex_fs2 "train"
           [sample_service 0; sample_service 10]).
  - reflexivity.
  - repeat constructor;
      intros k Hk; unfold EMB_KINDS in Hk;
      repeat (apply elem_of_cons in Hk as [->|Hk]; [by eexists|]);
      by apply elem_of_nil in Hk.
Defined.

End SchemaProcessorFacts.

(** ** Tensor operations *)

Module TorchFacts.
Import Np Torch Spec.

Example cat_rows :
  cat [Array [1; 2]%nat [1; 0]%Q; Array [2; 2]%nat [1; 1; 0; 1]%Q]
  = Ok (Array [3; 2]%nat [1; 0; 1; 1; 0; 1]%Q).
Proof. reflexivity. Qed.

Example cat_mismatch :
  cat [Array [1; 2]%nat [1; 0]%Q; Array [1; 3]%nat [1; 1; 0]%Q]
  = Raise RuntimeError.
Proof. reflexivity. Qed.

Example argmax_first_of_equals :
  argmax_list [3 # 10; 7 # 10; 7 # 10]%Q = 1%nat.
Proof. reflexivity. Qed.

Example argmax_rows :
  argmax (Array [2; 2]%nat [3 # 10; 7 # 10; 8 # 10; 2 # 10]%Q)
  = Ok (Array [2]%nat [1; 0]%Q).
Proof. reflexivity. Qed.

Example masked_select_rows :
  masked_select (Array [2; 2]%nat [5; 6; 7; 8]%Q)
    (gt (Array [2; 2]%nat [1; 0; 1 # 2; 3 # 4]%Q) (1 # 2))
  = Ok (Array [2]%nat [5; 8]%Q).
Proof. reflexivity. Qed.

Example masked_select_shape_mismatch :
  masked_select (Array [2]%nat [5; 6]%Q)
    (gt (Array [2; 2]%nat [1; 0; 1; 1]%Q) (1 # 2))
  = Raise IndexError.
Proof. reflexivity. Qed.

Example tolist_nested :
  tolist (Array [2; 2]%nat [5; 6; 7; 8]%Q)
  = PList [PList [PNum 5; PNum 6]; PList [PNum 7; PNum 8]].
Proof. reflexivity. Qed.

Lemma Qgtb_spec (x y : Q) : Qgtb x y = true <-> (y < x)%Q.
Proof.
  unfold Qgtb. rewrite negb_true_iff, <- not_true_iff_false, Qle_bool_iff.
  split; [apply Qnot_le_lt | apply Qlt_not_le].
Qed.

Lemma length_chunks {A} (k n : nat) (l : list A) : length (chunks k n l) = k.
Proof. revert l. induction k as [|k IH]; intros l; simpl; [done|]. by rewrite IH. Qed.

Lemma chunks_singletons {A} (l : list A) :
  chunks (length l) 1 l = (fun x => [x]) <$> l.
Proof.
  induction l as [|x l IH]; [done|]. cbn. rewrite take_0. f_equal. exact IH.
Qed.

Lemma concat_singletons {A} (l : list A) : concat ((fun x => [x]) <$> l) = l.
Proof. induction l as [|x l IH]; [done|]. simpl. by f_equal. Qed.

Lemma select_fmap {A B} (f : A -> B) (bs : list bool) (xs : list A) :
  select bs (f <$> xs) = f <$> select bs xs.
Proof.
  revert xs. induction bs as [|b bs IH]; intros [|x xs]; simpl; try done.
  destruct b; simpl; by rewrite IH.
Qed.

Lemma nth_chunks {A} (k n i : nat) (l : list A) :
  i < k -> nth i (chunks k n l) [] = take n (drop (i * n) l).
Proof.
  revert i l. induction k as [|k IH]; intros i l Hi; [lia|].
  destruct i as [|i]; simpl; [done|].
  rewrite IH by lia. by rewrite drop_drop.
Qed.

Lemma strip_prefix_app (s r : list nat) : strip_prefix s (s ++ r) = Some r.
Proof.
  induction s as [|a s IH]; simpl; [by destruct r|].
  by rewrite Nat.eqb_refl.
Qed.

Lemma strip_prefix_refl (s : list nat) : strip_prefix s s = Some [].
Proof. rewrite <- (app_nil_r s) at 2. apply strip_prefix_app. Qed.

(** The number of rows a boolean selection keeps depends on the mask and on
    the number of rows only. *)
Lemma length_select {A B} (bs : list bool) (xs : list A) (ys : list B) :
  length xs = length ys -> length (select bs xs) = length (select bs ys).
Proof.
  revert xs ys. induction bs as [|b bs IH]; intros [|x xs] [|y ys] H;
    simpl in *; try done.
  destruct b; simpl; rewrite (IH xs ys); auto.
Qed.

Lemma indices_where_ge {A} (p : A -> bool) (k : nat) (xs : list A) (i : nat) :
  i ∈ indices_where p k xs -> k <= i.
Proof.
  revert k. induction xs as [|x xs IH]; intros k; simpl; [by intros ?%elem_of_nil|].
  destruct (p x).
  - intros [->|H]%elem_of_cons; [lia|]. apply IH in H. lia.
  - intros H. apply IH in H. lia.
Qed.

Lemma elem_of_indices_where {A} (p : A -> bool) (k : nat) (xs : list A) (i : nat) :
  i ∈ indices_where p k xs <->
  k <= i /\ exists x, xs !! (i - k) = Some x /\ p x = true.
Proof.
  revert k i. induction xs as [|x xs IH]; intros k i; simpl.
  - split; [by intros ?%elem_of_nil | by intros (_ & ? & ? & _)].
  - assert (forall j, j ∈ indices_where p (S k) xs <->
              k <= j /\ j <> k /\ exists y, (x :: xs) !! (j - k) = Some y /\ p y = true) as Htl.
    { intros j. rewrite IH. split.
      - intros (Hj & y & Hy & Hp). split; [lia|]. split; [lia|].
        exists y. split; [|done]. replace (j - k) with (S (j - S k)) by lia. done.
      - intros (Hj & Hne & y & Hy & Hp). split; [lia|]. exists y. split; [|done].
        replace (j - k) with (S (j - S k)) in Hy by lia. done. }
    destruct (p x) eqn:Hpx.
    + rewrite elem_of_cons, Htl. split.
      * intros [->|(? & ? & ?)]; [|done]. split; [lia|]. exists x.
        by rewrite Nat.sub_diag.
      * intros (Hk & y & Hy & Hp). destruct (decide (i = k)) as [->|]; [by left|].
        right. eauto.
    + rewrite Htl. split.
      * intros (? & ? & ?); done.
      * intros (Hk & y & Hy & Hp). destruct (decide (i = k)) as [->|]; [|eauto].
        rewrite Nat.sub_diag in Hy. simpl in Hy. congruence.
Qed.

Lemma indices_where_sorted {A} (p : A -> bool) (k : nat) (xs : list A) :
  StronglySorted lt (indices_where p k xs).
Proof.
  revert k. induction xs as [|x xs IH]; intros k; simpl; [constructor|].
  destruct (p x); [|apply IH]. constructor; [apply IH|].
  apply Forall_forall. intros j Hj. apply indices_where_ge in Hj. lia.
Qed.

Lemma select_indices {A B} (p : A -> bool) (d : B) (k : nat) (ms : list A) (xs : list B) :
  length xs = length ms ->
  select (p <$> ms) xs = (fun i => nth (i - k) xs d) <$> indices_where p k ms.
Proof.
  revert k xs. induction ms as [|m ms IH]; intros k [|x xs] H; try done.
  assert ((fun i => nth (i - S k) xs d) <$> indices_where p (S k) ms
          = (fun i => nth (i - k) (x :: xs) d) <$> indices_where p (S k) ms) as E.
  { apply list_fmap_ext. intros _ i Hi%list_elem_of_lookup_2%indices_where_ge.
    replace (i - k) with (S (i - S k)) by lia. done. }
  rewrite fmap_cons. cbn [select indices_where]. simpl in H.
  destruct (p m).
  - rewrite fmap_cons, Nat.sub_diag. cbn [nth]. f_equal.
    rewrite (IH (S k) xs) by lia. exact E.
  - rewrite (IH (S k) xs) by lia. exact E.
Qed.


Lemma argmax_from_spec (l pre : list Q) (best : Q) (bi : nat) :
  pre !! bi = Some best ->
  (forall j x, pre !! j = Some x ->
     (x <= best)%Q /\ (j < bi -> (x < best)%Q)) ->
  let r := argmax_from best bi (length pre) l in
  exists top, (pre ++ l) !! r = Some top /\
    forall j x, (pre ++ l) !! j = Some x ->
      (x <= top)%Q /\ (j < r -> (x < top)%Q).
Proof.
  revert pre best bi. induction l as [|x l IH]; intros pre best bi Hb Hinv.
  - simpl. exists best. rewrite app_nil_r. done.
  - cbn [argmax_from]. destruct (Qgtb x best) eqn:Hgt.
    + apply Qgtb_spec in Hgt.
      specialize (IH (pre ++ [x]) x (length pre)).
      rewrite length_app, Nat.add_1_r in IH. rewrite <- app_assoc in IH.
      apply IH.
      * by rewrite lookup_app_r, Nat.sub_diag.
      * intros j y Hy. destruct (decide (j < length pre)) as [Hj|Hj].
        -- rewrite lookup_app_l in Hy by done.
           destruct (Hinv j y Hy) as [Hle _].
           assert (y < x)%Q by (eapply Qle_lt_trans; eauto).
           split; [by apply Qlt_le_weak | done].
        -- rewrite lookup_app_r in Hy by lia.
           destruct (j - length pre) as [|n] eqn:E; simpl in Hy; [|by destruct n].
           inversion Hy; subst. split; [apply Qle_refl | lia].
    + assert (x <= best)%Q as Hle.
      { apply Qnot_lt_le. intros H%Qgtb_spec. congruence. }
      specialize (IH (pre ++ [x]) best bi).
      rewrite length_app, Nat.add_1_r in IH. rewrite <- app_assoc in IH.
      apply IH.
      * rewrite lookup_app_l; [done|]. by eapply lookup_lt_Some.
      * intros j y Hy. destruct (decide (j < length pre)) as [Hj|Hj].
        -- rewrite lookup_app_l in Hy by done. by apply Hinv.
        -- rewrite lookup_app_r in Hy by lia.
           destruct (j - length pre) as [|n] eqn:E; simpl in Hy; [|by destruct n].
           inversion Hy; subst. split; [done|].
           intros Hlt. apply lookup_lt_Some in Hb. lia.
Qed.

(** [argmax_list] returns the position of a maximal element, the first one
    among equals. *)
Lemma argmax_list_spec (l : list Q) :
  l <> [] ->
  exists top, l !! argmax_list l = Some top /\
    forall j x, l !! j = Some x ->
      (x <= top)%Q /\ (j < argmax_list l -> (x < top)%Q).
Proof.
  destruct l as [|x l]; [done|]. intros _.
  apply (argmax_from_spec l [x] x 0); [done|].
  intros [|[|j]] y Hy; simpl in Hy; try done.
  inversion Hy; subst. split; [apply Qle_refl | lia].
Qed.

Lemma argmax_ok (t : ndarray) (s : list nat) (c : nat) :
  shape t = s ++ [c] -> c <> 0 ->
  argmax t = Ok (Array s (class_index <$> chunks (numel s) c (data t))).
Proof.
  intros Hs Hc. unfold argmax. rewrite Hs, last_snoc, removelast_last.
  by destruct c.
Qed.

Lemma to_py_1d (d : list Q) : to_py [length d] d = PList (PNum <$> d).
Proof.
  cbn [to_py numel foldr]. rewrite chunks_singletons, <- list_fmap_compose.
  done.
Qed.

Lemma masked_select_same_shape (x : ndarray) (m : mask) :
  shape x = mshape m ->
  length (data x) = numel (mshape m) ->
  masked_select x m
  = Ok (Array [length (select (mdata m) (data x))] (select (mdata m) (data x))).
Proof.
  intros Hs Hl. unfold masked_select. rewrite Hs, strip_prefix_refl.
  cbn [numel foldr]. rewrite <- Hl, chunks_singletons, select_fmap.
  by rewrite concat_singletons, length_fmap.
Qed.

Lemma chunks_seq {A} (k n : nat) (l : list A) :
  chunks k n l = (fun i => take n (drop (i * n) l)) <$> seq 0 k.
Proof.
  revert l. induction k as [|k IH]; intros l; [done|].
  cbn [chunks seq fmap list_fmap]. rewrite drop_0. f_equal.
  rewrite IH, <- fmap_S_seq, <- list_fmap_compose.
  apply list_fmap_ext. intros _ i _. cbn [compose].
  by rewrite drop_drop.
Qed.

End TorchFacts.

(** ** The evaluation callbacks *)

Module PunctCallbackFacts.
Import Np Torch PunctCallback Spec PyFacts TorchFacts.

Example label_name_with_id : label_name "O (label id: 0)" = Ok "O".
Proof. reflexivity. Qed.

Example label_name_plain : label_name "macro avg" = Ok "macro avg".
Proof. reflexivity. Qed.

Example label_name_no_parenthesis :
  label_name "label id" = Raise (ValueError "substring not found").
Proof. reflexivity. Qed.

Example round2_up : round2 ((12 # 17) * 100) = (7059 # 100)%Q.
Proof. reflexivity. Qed.

Example round2_tie_to_even : round2 (1 # 8) = (12 # 100)%Q.
Proof. reflexivity. Qed.

Example build_output_sample : build_output ex_tensors = Ok ex_output.
Proof. reflexivity. Qed.

Lemma acc_init_key (key k : string) (g : global_vars_t) :
  acc (init_key key g) k = acc g k.
Proof.
  unfold acc, init_key. destruct (g !! key) eqn:E; [done|].
  destruct (decide (key = k)) as [->|Hne].
  - by rewrite lookup_insert_eq, E.
  - by rewrite lookup_insert_ne.
Qed.

Lemma lookup_init_key (key k : string) (g : global_vars_t) :
  init_key key g !! k = if decide (key = k) then Some (acc g k) else g !! k.
Proof.
  unfold acc, init_key. case_decide as Hk.
  - subst. destruct (g !! k) eqn:E; [by rewrite E | by rewrite lookup_insert_eq].
  - destruct (g !! key); [done | by rewrite lookup_insert_ne].
Qed.

Lemma lookup_foldl_init_key (ks : list string) (g : global_vars_t) (k : string) :
  foldl (fun g key => init_key key g) g ks !! k
  = if decide (k ∈ ks) then Some (acc g k) else g !! k.
Proof.
  revert g. induction ks as [|key ks IH]; intros g; simpl.
  - destruct (decide (k ∈ [])) as [H|H]; [by apply elem_of_nil in H | done].
  - rewrite IH, acc_init_key, lookup_init_key.
    destruct (decide (k ∈ ks)) as [Hin|Hin].
    + rewrite decide_True; [done | by right].
    + destruct (decide (key = k)) as [->|Hne].
      * rewrite decide_True; [done | by left].
      * rewrite decide_False; [done|]. intros [?|?]%elem_of_cons; congruence.
Qed.

Lemma lookup_init_keys_in (g : global_vars_t) (k : string) :
  k ∈ UNUSED_KEYS ++ GLOBAL_KEYS -> init_keys g !! k = Some (acc g k).
Proof. intros H. unfold init_keys. by rewrite lookup_foldl_init_key, decide_True. Qed.

Lemma lookup_init_keys_out (g : global_vars_t) (k : string) :
  k ∉ UNUSED_KEYS ++ GLOBAL_KEYS -> init_keys g !! k = g !! k.
Proof. intros H. unfold init_keys. by rewrite lookup_foldl_init_key, decide_False. Qed.

(** The callback is the initialisation of the keys followed by the main
    block on the concatenated tensors. *)
Lemma eval_iter_callback_unfold (tensors : tensors_t) (g : global_vars_t) :
  eval_iter_callback tensors g
  = match build_output tensors with
    | Ok output => main_block output (init_keys g)
    | Raise e => (init_keys g, Raise e)
    end.
Proof.
  unfold eval_iter_callback, main_block, init_keys.
  cbn [mbind py_bind modify lift UNUSED_KEYS app foldl].
  by destruct (build_output tensors).
Qed.

(** *** Frames *)

Lemma touches_ret {A} (K : list string) (a : A) : touches K (mret a).
Proof. by intros g k _. Qed.

Lemma touches_lift {A} (K : list string) (r : result A) : touches K (lift r).
Proof. by intros g k _. Qed.

Lemma touches_bind {A B} (K : list string) (c : py global_vars_t A)
  (f : A -> py global_vars_t B) :
  touches K c -> (forall a, touches K (f a)) -> touches K (c ≫= f).
Proof.
  intros Hc Hf g k Hk. unfold mbind, py_bind.
  specialize (Hc g k Hk). destruct (c g) as [g' [a|e]]; simpl in *.
  - by rewrite Hf.
  - done.
Qed.

Lemma touches_extend (K : list string) (key : string)
  (items : result (list pyval)) :
  key ∈ K -> touches K (extend key items).
Proof.
  intros Hin g k Hk. unfold extend.
  destruct (g !! key); [|done]. destruct items; [|done]. simpl.
  rewrite lookup_insert_ne; [done|]. by intros ->.
Qed.

Lemma touches_part_sent_block (output : output_t) :
  touches ["part_sent_preds"; "part_sent_labels"] (part_sent_block output).
Proof.
  unfold part_sent_block. case_bool_decide; [|apply touches_ret].
  apply touches_bind.
  - intros g k Hk. unfold modify. simpl.
    destruct (g !! "part_sent_preds"); [done|].
    rewrite !lookup_insert_ne; [done|..]; intros <-; apply Hk; repeat constructor.
  - intros _. apply touches_bind; [|intros _]; apply touches_extend;
      repeat constructor.
Qed.

Lemma touches_weaken {A} (K K' : list string) (c : py global_vars_t A) :
  K ⊆ K' -> touches K c -> touches K' c.
Proof. intros Hsub Hc g k Hk. apply Hc. intros Hin. by apply Hk, Hsub. Qed.

Lemma touches_main_block (output : output_t) :
  touches (GLOBAL_KEYS ++ ["part_sent_preds"; "part_sent_labels"])
    (main_block output).
Proof.
  unfold main_block. apply touches_bind; [apply touches_lift|]. intros m.
  repeat (apply touches_bind;
          [apply touches_extend; unfold GLOBAL_KEYS; simpl; repeat constructor
          |intros _]).
  eapply touches_weaken; [|apply touches_part_sent_block].
  intros k Hk. apply elem_of_app. by right.
Qed.

(** *** What the masked selections compute *)

Lemma masked_labels_ok (output : output_t) (key : string) (labels m : ndarray) :
  has_tensor output key (shape m) labels -> wf m ->
  masked_labels output key (gt m (1 # 2)) = Ok (expected_labels labels m).
Proof.
  intros (Hk & Hs & Hw) Hm. unfold masked_labels, getitem. rewrite Hk.
  cbn [mbind result_bind].
  rewrite masked_select_same_shape; [|done|by rewrite Hw, Hs].
  cbn [mbind result_bind gt mdata]. unfold tensor2list, tolist.
  cbn [shape data]. rewrite to_py_1d. cbn [iter_items]. f_equal.
  unfold expected_labels, real_subtokens.
  rewrite (select_indices (fun x => Qgtb x (1 # 2)) 0%Q 0%nat (data m)); [|by rewrite Hw, Hs, Hm].
  rewrite <- list_fmap_compose. apply list_fmap_ext. intros _ i _.
  cbn [compose]. by rewrite Nat.sub_0_r.
Qed.

Lemma masked_preds_ok (output : output_t) (key : string) (logits m : ndarray)
  (c : nat) :
  has_tensor output key (shape m ++ [c]) logits -> c <> 0%nat -> wf m ->
  masked_preds output key (gt m (1 # 2)) = Ok (expected_preds logits m c).
Proof.
  intros (Hk & Hs & Hw) Hc Hm. unfold masked_preds, getitem. rewrite Hk.
  cbn [mbind result_bind]. rewrite (argmax_ok _ _ _ Hs Hc).
  cbn [mbind result_bind].
  rewrite masked_select_same_shape;
    [|done|by cbn [data]; rewrite length_fmap, length_chunks].
  cbn [mbind result_bind gt mdata]. unfold tensor2list, tolist.
  cbn [shape data]. rewrite to_py_1d. cbn [iter_items]. f_equal.
  unfold expected_preds, real_subtokens.
  rewrite (select_indices (fun x => Qgtb x (1 # 2)) (class_index []) 0%nat (data m));
    [|by rewrite length_fmap, length_chunks, Hm].
  rewrite <- list_fmap_compose. apply list_fmap_ext.
  intros _ i Hi%list_elem_of_lookup_2%elem_of_indices_where.
  destruct Hi as (_ & x & Hx%lookup_lt_Some & _).
  cbn [compose]. rewrite Nat.sub_0_r in *.
  change (class_index <$> ?l) with (map class_index l).
  rewrite map_nth, nth_chunks; [done|]. by rewrite <- Hm.
Qed.

Lemma extend_ok (key : string) (l xs : list pyval) (g : global_vars_t) :
  g !! key = Some l ->
  extend key (Ok xs) g = (<[key := l ++ xs]> g, Ok tt).
Proof. intros H. unfold extend. by rewrite H. Qed.

Lemma length_expected_preds (logits m : ndarray) (c : nat) :
  length (expected_preds logits m c) = length (real_subtokens m).
Proof. unfold expected_preds. by rewrite length_fmap. Qed.

Lemma length_expected_labels (labels m : ndarray) :
  length (expected_labels labels m) = length (real_subtokens m).
Proof. unfold expected_labels. by rewrite length_fmap. Qed.

(** The real subtokens are exactly the positions whose mask value exceeds
    one half, in ascending order. *)
Lemma real_subtokens_spec (m : ndarray) (i : nat) :
  i ∈ real_subtokens m <->
  exists x, data m !! i = Some x /\ (1 # 2 < x)%Q.
Proof.
  unfold real_subtokens. rewrite elem_of_indices_where, Nat.sub_0_r.
  split.
  - intros (_ & x & Hx & Hp). exists x. by rewrite <- Qgtb_spec.
  - intros (x & Hx & Hp). split; [lia|]. exists x. by rewrite Qgtb_spec.
Qed.

Lemma real_subtokens_sorted (m : ndarray) :
  StronglySorted lt (real_subtokens m).
Proof. apply indices_where_sorted. Qed.

Lemma bind_lift_ok {S A B} (a : A) (f : A -> py S B) (g : S) :
  (lift (Ok a) ≫= f) g = f a g.
Proof. reflexivity. Qed.

Lemma bind_lift_raise {S A B} (e : exn) (f : A -> py S B) (g : S) :
  (lift (Raise e) ≫= f) g = (g, Raise e).
Proof. reflexivity. Qed.

Lemma bind_extend_ok {B} (key : string) (l xs : list pyval)
  (f : unit -> py global_vars_t B) (g : global_vars_t) :
  g !! key = Some l ->
  (extend key (Ok xs) ≫= f) g = f tt (<[key := l ++ xs]> g).
Proof. intros H. unfold mbind, py_bind. by rewrite (extend_ok _ _ _ _ H). Qed.

(** The state after the four masked extensions of a well-formed batch. *)
Lemma main_block_token_batch (output : output_t) (m pl cl plab clab : ndarray)
  (np nc : nat) (g : global_vars_t) (l1 l2 l3 l4 : list pyval) :
  token_batch output m pl cl plab clab np nc ->
  g !! "punct_preds" = Some l1 -> g !! "capit_preds" = Some l2 ->
  g !! "punct_labels" = Some l3 -> g !! "capit_labels" = Some l4 ->
  main_block output g
  = part_sent_block output
      (<["capit_labels" := l4 ++ expected_labels clab m]>
         (<["punct_labels" := l3 ++ expected_labels plab m]>
            (<["capit_preds" := l2 ++ expected_preds cl m nc]>
               (<["punct_preds" := l1 ++ expected_preds pl m np]> g)))).
Proof.
  intros [Hm Hpl Hcl Hplab Hclab Hnp Hnc] H1 H2 H3 H4.
  assert (wf m) as Hwf by apply Hm.
  unfold main_block, getitem. destruct Hm as (-> & _ & _).
  rewrite bind_lift_ok.
  rewrite (masked_preds_ok _ _ _ _ _ Hpl Hnp Hwf), (bind_extend_ok _ _ _ _ _ H1).
  rewrite (masked_preds_ok _ _ _ _ _ Hcl Hnc Hwf).
  erewrite bind_extend_ok by (by rewrite lookup_insert_ne).
  rewrite (masked_labels_ok _ _ _ _ Hplab Hwf).
  erewrite bind_extend_ok by (by rewrite !lookup_insert_ne).
  rewrite (masked_labels_ok _ _ _ _ Hclab Hwf).
  erewrite bind_extend_ok by (by rewrite !lookup_insert_ne).
  done.
Qed.

Lemma part_sent_block_absent (output : output_t) (g : global_vars_t) :
  output !! "part_sent_logits" = None ->
  part_sent_block output g = (g, Ok tt).
Proof.
  intros H. unfold part_sent_block. rewrite bool_decide_eq_false_2; [done|].
  rewrite H. by intros [? ?].
Qed.

Lemma in_global_keys (k : string) :
  k ∈ GLOBAL_KEYS ->
  k = "punct_labels" \/ k = "capit_labels" \/ k = "punct_preds"
  \/ k = "capit_preds".
Proof.
  unfold GLOBAL_KEYS. rewrite !elem_of_cons, elem_of_nil. tauto.
Qed.

Lemma global_keys_init (k : string) :
  k ∈ GLOBAL_KEYS -> k ∈ UNUSED_KEYS ++ GLOBAL_KEYS.
Proof. intros H. apply elem_of_app. by right. Qed.

Lemma global_keys_not_part_sent (k : string) :
  k ∈ GLOBAL_KEYS -> k ∉ ["part_sent_preds"; "part_sent_labels"].
Proof.
  intros H%in_global_keys. rewrite !elem_of_cons, elem_of_nil.
  intros [?|[?|?]]; destruct H as [?|[?|[?|?]]]; congruence.
Qed.

(** C2: for a batch with a subtoken mask, logits and labels for the two
    tasks, the callback appends to [punct_preds] and [capit_preds] the
    argmax class index of the logits at each position whose mask value
    exceeds 0.5, and to [punct_labels] and [capit_labels] the label at each
    such position; each of the four lists grows by the number of these
    positions. *)
Theorem eval_iter_callback_masked (tensors : tensors_t)
  (global_vars : global_vars_t) (output : output_t)
  (m pl cl plab clab : ndarray) (np nc : nat) :
  build_output tensors = Ok output ->
  token_batch output m pl cl plab clab np nc ->
  let r := eval_iter_callback tensors global_vars in
  r.1 !! "punct_preds"
    = Some (acc global_vars "punct_preds" ++ expected_preds pl m np)
  /\ r.1 !! "capit_preds"
    = Some (acc global_vars "capit_preds" ++ expected_preds cl m nc)
  /\ r.1 !! "punct_labels"
    = Some (acc global_vars "punct_labels" ++ expected_labels plab m)
  /\ r.1 !! "capit_labels"
    = Some (acc global_vars "capit_labels" ++ expected_labels clab m)
  /\ (forall k, k ∈ GLOBAL_KEYS ->
        length (acc r.1 k)
        = (length (acc global_vars k) + length (real_subtokens m))%nat)
  /\ (forall i, i ∈ real_subtokens m <->
        exists x, data m !! i = Some x /\ (1 # 2 < x)%Q)
  /\ (output !! "part_sent_logits" = None -> r.2 = Ok tt).
Proof.
  intros Hout Hb r. subst r. rewrite eval_iter_callback_unfold, Hout.
  rewrite (main_block_token_batch _ _ _ _ _ _ _ _ _
             (acc global_vars "punct_preds") (acc global_vars "capit_preds")
             (acc global_vars "punct_labels") (acc global_vars "capit_labels")
             Hb);
    try (apply lookup_init_keys_in; unfold UNUSED_KEYS, GLOBAL_KEYS; simpl;
         repeat constructor).
  set (g4 := <["capit_labels" := _]> _).
  assert (forall k, k ∈ GLOBAL_KEYS ->
            (part_sent_block output g4).1 !! k = g4 !! k) as Hframe.
  { intros k Hk. apply touches_part_sent_block.
    by apply global_keys_not_part_sent. }
  assert ((part_sent_block output g4).1 !! "punct_preds"
          = Some (acc global_vars "punct_preds" ++ expected_preds pl m np)) as E1.
  { rewrite Hframe by (unfold GLOBAL_KEYS; repeat constructor).
    unfold g4. rewrite ?lookup_insert_ne by done.
    by rewrite lookup_insert_eq. }
  assert ((part_sent_block output g4).1 !! "capit_preds"
          = Some (acc global_vars "capit_preds" ++ expected_preds cl m nc)) as E2.
  { rewrite Hframe by (unfold GLOBAL_KEYS; repeat constructor).
    unfold g4. rewrite ?lookup_insert_ne by done.
    by rewrite lookup_insert_eq. }
  assert ((part_sent_block output g4).1 !! "punct_labels"
          = Some (acc global_vars "punct_labels" ++ expected_labels plab m)) as E3.
  { rewrite Hframe by (unfold GLOBAL_KEYS; repeat constructor).
    unfold g4. rewrite ?lookup_insert_ne by done.
    by rewrite lookup_insert_eq. }
  assert ((part_sent_block output g4).1 !! "capit_labels"
          = Some (acc global_vars "capit_labels" ++ expected_labels clab m)) as E4.
  { rewrite Hframe by (unfold GLOBAL_KEYS; repeat constructor).
    unfold g4. rewrite ?lookup_insert_ne by done.
    by rewrite lookup_insert_eq. }
  repeat split; try done.
  - intros k Hk%in_global_keys. unfold acc at 1.
    destruct Hk as [-> | [-> | [-> | ->]]]; rewrite ?E1, ?E2, ?E3, ?E4; simpl;
      rewrite length_app, ?length_expected_preds, ?length_expected_labels;
      done.
  - by apply real_subtokens_spec.
  - by apply real_subtokens_spec.
  - intros Habs. by rewrite part_sent_block_absent.
Qed.

(** *** Lengths of the lists that one call appends *)

Lemma masked_rows_length (x s : ndarray) (m : mask) (xs : list pyval) :
  masked_select x m = Ok s ->
  iter_items (tensor2list s) = Ok xs ->
  length xs = selected m.
Proof.
  unfold masked_select, selected.
  destruct (strip_prefix (mshape m) (shape x)) as [rest|]; [|done].
  intros [= <-]. unfold tensor2list, tolist. cbn [shape data to_py iter_items].
  intros [= <-]. rewrite length_fmap, length_chunks.
  apply length_select. by rewrite length_chunks, length_replicate.
Qed.

Lemma masked_preds_length (output : output_t) (key : string) (m : mask)
  (xs : list pyval) :
  masked_preds output key m = Ok xs -> length xs = selected m.
Proof.
  unfold masked_preds. destruct (getitem output key) as [t|]; [|done].
  cbn [mbind result_bind]. destruct (argmax t) as [a|]; [|done].
  cbn [mbind result_bind].
  destruct (masked_select a m) as [s|] eqn:Hs; [|done].
  cbn [mbind result_bind]. by apply masked_rows_length with a.
Qed.

Lemma masked_labels_length (output : output_t) (key : string) (m : mask)
  (xs : list pyval) :
  masked_labels output key m = Ok xs -> length xs = selected m.
Proof.
  unfold masked_labels. destruct (getitem output key) as [t|]; [|done].
  cbn [mbind result_bind].
  destruct (masked_select t m) as [s|] eqn:Hs; [|done].
  cbn [mbind result_bind]. by apply masked_rows_length with t.
Qed.

Lemma bind_extend_inv {B} (key : string) (items : result (list pyval))
  (f : unit -> py global_vars_t B) (g g' : global_vars_t) (b : B) :
  (extend key items ≫= f) g = (g', Ok b) ->
  exists l xs, g !! key = Some l /\ items = Ok xs
    /\ f tt (<[key := l ++ xs]> g) = (g', Ok b).
Proof.
  unfold mbind, py_bind, extend.
  destruct (g !! key) as [l|]; [|done]. destruct items as [xs|]; [|done].
  intros H. by exists l, xs.
Qed.

Lemma main_block_grows (output : output_t) (g g' : global_vars_t) :
  main_block output g = (g', Ok tt) ->
  exists n, forall k, k ∈ GLOBAL_KEYS ->
    exists l xs, g !! k = Some l /\ g' !! k = Some (l ++ xs) /\ length xs = n.
Proof.
  unfold main_block. destruct (getitem output "subtokens_mask") as [m|e].
  2: { by rewrite bind_lift_raise. }
  rewrite bind_lift_ok.
  intros (l1 & xs1 & G1 & X1 & H)%bind_extend_inv.
  apply bind_extend_inv in H as (l2 & xs2 & G2 & X2 & H).
  apply bind_extend_inv in H as (l3 & xs3 & G3 & X3 & H).
  apply bind_extend_inv in H as (l4 & xs4 & G4 & X4 & H).
  apply masked_preds_length in X1, X2. apply masked_labels_length in X3, X4.
  rewrite !lookup_insert_ne in G4 by done.
  rewrite !lookup_insert_ne in G3 by done.
  rewrite !lookup_insert_ne in G2 by done.
  exists (selected (gt m (1 # 2))).
  assert (forall k, k ∈ GLOBAL_KEYS ->
            g' !! k = (<["capit_labels" := l4 ++ xs4]>
                         (<["punct_labels" := l3 ++ xs3]>
                            (<["capit_preds" := l2 ++ xs2]>
                               (<["punct_preds" := l1 ++ xs1]> g)))) !! k)
    as Hframe.
  { intros k Hk. replace g' with (g', Ok tt : result unit).1 by done.
    rewrite <- H. apply touches_part_sent_block.
    by apply global_keys_not_part_sent. }
  intros k Hk. rewrite (Hframe k Hk).
  apply in_global_keys in Hk as [-> | [-> | [-> | ->]]].
  - exists l3, xs3. by simplify_map_eq.
  - exists l4, xs4. by simplify_map_eq.
  - exists l1, xs1. by simplify_map_eq.
  - exists l2, xs2. by simplify_map_eq.
Qed.

(** A call that returns extends the four running lists by lists of one
    length. *)
Lemma eval_iter_callback_grows (tensors : tensors_t) (g g' : global_vars_t) :
  eval_iter_callback tensors g = (g', Ok tt) ->
  exists n, forall k, k ∈ GLOBAL_KEYS ->
    exists xs, g' !! k = Some (acc g k ++ xs) /\ length xs = n.
Proof.
  rewrite eval_iter_callback_unfold.
  destruct (build_output tensors) as [output|]; [|done].
  intros [n Hn]%main_block_grows. exists n. intros k Hk.
  destruct (Hn k Hk) as (l & xs & Hl & Hg' & Hlen).
  rewrite lookup_init_keys_in in Hl by (by apply global_keys_init).
  injection Hl as <-. by exists xs.
Qed.

Lemma eval_iter_callback_equal_len (tensors : tensors_t)
  (g g' : global_vars_t) :
  equal_len g ->
  eval_iter_callback tensors g = (g', Ok tt) ->
  equal_len g' /\ forall k, k ∈ GLOBAL_KEYS -> is_Some (g' !! k).
Proof.
  intros [n0 Hn0] [n Hn]%eval_iter_callback_grows. split.
  - exists (n0 + n)%nat. intros k Hk. destruct (Hn k Hk) as (xs & Hg' & Hlen).
    unfold acc at 1. rewrite Hg'. simpl. rewrite length_app, Hn0, Hlen; done.
  - intros k Hk. destruct (Hn k Hk) as (xs & Hg' & _). by rewrite Hg'.
Qed.

Lemma eval_iter_callbacks_snoc (batches : list tensors_t) (tensors : tensors_t) :
  eval_iter_callbacks (batches ++ [tensors])
  = (eval_iter_callbacks batches ≫= fun _ => eval_iter_callback tensors).
Proof. unfold eval_iter_callbacks. by rewrite foldl_app. Qed.

Lemma eval_iter_callbacks_snoc_inv (batches : list tensors_t)
  (tensors : tensors_t) (g g' : global_vars_t) :
  eval_iter_callbacks (batches ++ [tensors]) g = (g', Ok tt) ->
  exists g1, eval_iter_callbacks batches g = (g1, Ok tt)
    /\ eval_iter_callback tensors g1 = (g', Ok tt).
Proof.
  rewrite eval_iter_callbacks_snoc. unfold mbind, py_bind.
  destruct (eval_iter_callbacks batches g) as [g1 [[]|e]]; [|done].
  intros H. by exists g1.
Qed.

Lemma eval_iter_callbacks_equal_len (batches : list tensors_t)
  (g g' : global_vars_t) :
  equal_len g ->
  eval_iter_callbacks batches g = (g', Ok tt) ->
  equal_len g'.
Proof.
  revert g'. induction batches as [|tensors batches IH] using rev_ind;
    intros g' Hg.
  - by intros [= <-].
  - intros (g1 & H1 & H2)%eval_iter_callbacks_snoc_inv.
    by eapply eval_iter_callback_equal_len; [apply IH|].
Qed.

(** C8: after every call that returns, [punct_preds], [punct_labels],
    [capit_preds] and [capit_labels] are present and have one length; the
    lists start out absent or of one length, as they do when the callback
    itself creates them, and any number of calls may have come before. *)
Theorem accumulators_equal_length (batches : list tensors_t)
  (tensors : tensors_t) (global_vars global_vars' : global_vars_t) :
  equal_len global_vars ->
  eval_iter_callbacks (batches ++ [tensors]) global_vars
    = (global_vars', Ok tt) ->
  exists n, forall k, k ∈ GLOBAL_KEYS ->
    exists l, global_vars' !! k = Some l /\ length l = n.
Proof.
  intros Hg (g1 & H1 & H2)%eval_iter_callbacks_snoc_inv.
  apply eval_iter_callbacks_equal_len in H1; [|done].
  destruct (eval_iter_callback_equal_len _ _ _ H1 H2) as [[n Hn] Hs].
  exists n. intros k Hk. destruct (Hs k Hk) as [l Hl]. exists l.
  split; [done|]. specialize (Hn k Hk). unfold acc in Hn. by rewrite Hl in Hn.
Qed.

(** *** The keys that are only created *)

Lemma unused_keys_init (k : string) :
  k ∈ UNUSED_KEYS -> k ∈ UNUSED_KEYS ++ GLOBAL_KEYS.
Proof. intros H. apply elem_of_app. by left. Qed.

Lemma in_unused_keys (k : string) :
  k ∈ UNUSED_KEYS ->
  k = "punct_all_preds" \/ k = "punct_all_labels" \/ k = "capit_all_preds"
  \/ k = "capit_all_labels" \/ k = "all_subtokens_mask".
Proof. unfold UNUSED_KEYS. rewrite !elem_of_cons, elem_of_nil. tauto. Qed.

Lemma unused_keys_not_touched (k : string) :
  k ∈ UNUSED_KEYS ->
  k ∉ GLOBAL_KEYS ++ ["part_sent_preds"; "part_sent_labels"].
Proof.
  intros H%in_unused_keys. unfold GLOBAL_KEYS.
  rewrite elem_of_app, !elem_of_cons, !elem_of_nil.
  intros [[?|[?|[?|[?|?]]]]|[?|[?|?]]];
    destruct H as [?|[?|[?|[?|?]]]]; congruence.
Qed.

(** Whatever its outcome, a call leaves under each unused key the list
    that was there, or the empty list when the key was absent. *)
Lemma eval_iter_callback_unused (tensors : tensors_t) (g : global_vars_t)
  (k : string) :
  k ∈ UNUSED_KEYS ->
  (eval_iter_callback tensors g).1 !! k = Some (acc g k).
Proof.
  intros Hk. rewrite eval_iter_callback_unfold.
  destruct (build_output tensors) as [output|e]; simpl.
  - rewrite touches_main_block by (by apply unused_keys_not_touched).
    by apply lookup_init_keys_in, unused_keys_init.
  - by apply lookup_init_keys_in, unused_keys_init.
Qed.

Lemma eval_iter_callbacks_unused_acc (batches : list tensors_t)
  (g : global_vars_t) (k : string) :
  k ∈ UNUSED_KEYS ->
  acc (eval_iter_callbacks batches g).1 k = acc g k.
Proof.
  intros Hk. induction batches as [|tensors batches IH] using rev_ind;
    [done|].
  rewrite eval_iter_callbacks_snoc. unfold mbind, py_bind.
  destruct (eval_iter_callbacks batches g) as [g1 [[]|e]]; simpl in *;
    [|done].
  unfold acc at 1. by rewrite eval_iter_callback_unused.
Qed.

Lemma eval_iter_callbacks_unused (batches : list tensors_t)
  (g : global_vars_t) (k : string) :
  batches <> [] -> k ∈ UNUSED_KEYS ->
  (eval_iter_callbacks batches g).1 !! k = Some (acc g k).
Proof.
  intros Hne Hk. induction batches as [|tensors batches IH] using rev_ind;
    [done|]. clear Hne.
  pose proof (eval_iter_callbacks_unused_acc batches g k Hk) as Hacc.
  rewrite eval_iter_callbacks_snoc. unfold mbind, py_bind.
  destruct (eval_iter_callbacks batches g) as [g1 [[]|e]] eqn:E;
    simpl in *.
  - by rewrite eval_iter_callback_unused, Hacc.
  - apply IH. intros ->. discriminate E.
Qed.

(** *** Computations that ignore a set of keys *)

Lemma ignores_ret {A} (K : list string) (a : A) : ignores K (mret a).
Proof. by intros g1 g2 H. Qed.

Lemma ignores_lift {A} (K : list string) (r : result A) : ignores K (lift r).
Proof. by intros g1 g2 H. Qed.

Lemma ignores_bind {A B} (K : list string) (c : py global_vars_t A)
  (f : A -> py global_vars_t B) :
  ignores K c -> (forall a, ignores K (f a)) -> ignores K (c ≫= f).
Proof.
  intros Hc Hf g1 g2 H. unfold mbind, py_bind.
  destruct (Hc g1 g2 H) as [H1 H2].
  destruct (c g1) as [g1' r1], (c g2) as [g2' r2]. simpl in *. subst r2.
  destruct r1 as [a|e]; [by apply Hf | done].
Qed.

Lemma agree_off_acc (K : list string) (g1 g2 : global_vars_t) (k : string) :
  agree_off K g1 g2 -> k ∉ K -> acc g1 k = acc g2 k.
Proof. intros H Hk. unfold acc. by rewrite (H k Hk). Qed.

Lemma ignores_init_keys (K ks : list string) :
  ignores K (modify (fun g => foldl (fun g key => init_key key g) g ks)).
Proof.
  intros g1 g2 H. split; [|done]. intros k Hk. simpl.
  rewrite !lookup_foldl_init_key, (agree_off_acc K g1 g2) by done.
  by rewrite (H k Hk).
Qed.

Lemma ignores_init_key (K : list string) (key : string) :
  ignores K (modify (init_key key)).
Proof. apply (ignores_init_keys K [key]). Qed.

Lemma ignores_extend (K : list string) (key : string)
  (items : result (list pyval)) :
  key ∉ K -> ignores K (extend key items).
Proof.
  intros Hkey g1 g2 H. unfold extend. rewrite <- (H key Hkey).
  destruct (g1 !! key) as [l|]; [|done]. destruct items as [xs|]; [|done].
  split; [|done]. intros k Hk. simpl.
  destruct (decide (key = k)) as [->|Hne].
  - by rewrite !lookup_insert_eq.
  - rewrite !lookup_insert_ne by done. by apply H.
Qed.

Lemma ignores_part_sent_block (K : list string) (output : output_t) :
  "part_sent_preds" ∉ K -> "part_sent_labels" ∉ K ->
  ignores K (part_sent_block output).
Proof.
  intros Hp Hl. unfold part_sent_block.
  case_bool_decide; [|apply ignores_ret].
  apply ignores_bind.
  - intros g1 g2 Hag. split; [|done]. simpl. rewrite <- (Hag _ Hp).
    destruct (g1 !! "part_sent_preds"); [done|].
    intros k Hk. rewrite !lookup_insert. repeat case_decide; auto.
  - intros _. apply ignores_bind; [|intros _]; by apply ignores_extend.
Qed.

Lemma ignores_eval_iter_callback (tensors : tensors_t) :
  ignores UNUSED_KEYS (eval_iter_callback tensors).
Proof.
  unfold eval_iter_callback.
  repeat (apply ignores_bind; [apply ignores_init_key | intros _]).
  apply ignores_bind; [apply ignores_init_keys | intros _].
  apply ignores_bind; [apply ignores_lift | intros output].
  apply ignores_bind; [apply ignores_lift | intros m].
  repeat (apply ignores_bind;
          [apply ignores_extend; unfold UNUSED_KEYS;
           rewrite !elem_of_cons, elem_of_nil;
           intros [?|[?|[?|[?|[?|?]]]]]; congruence
          | intros _]).
  apply ignores_part_sent_block; unfold UNUSED_KEYS;
    rewrite !elem_of_cons, elem_of_nil;
    intros [?|[?|[?|[?|[?|?]]]]]; congruence.
Qed.

Lemma gv_getitem_agree (g1 g2 : global_vars_t) (k : string) :
  agree_off UNUSED_KEYS g1 g2 -> k ∉ UNUSED_KEYS ->
  gv_getitem g1 k = gv_getitem g2 k.
Proof. intros H Hk. unfold gv_getitem. by rewrite (H k Hk). Qed.

(** *** Rounding *)

(** [round_half_even] returns an integer nearest to its argument. *)
Lemma round_half_even_near (x : Q) :
  (Qabs (x - inject_Z (round_half_even x)) <= 1 # 2)%Q.
Proof.
  unfold round_half_even.
  pose proof (Qfloor_le x) as Hlo. pose proof (Qlt_floor x) as Hhi.
  rewrite inject_Z_plus in Hhi. change (inject_Z 1) with 1%Q in Hhi.
  apply Qabs_Qle_condition.
  destruct (Qgtb (1 # 2) (x - inject_Z (Qfloor x))) eqn:E1.
  { apply Qgtb_spec in E1. split; lra. }
  assert (1 # 2 <= x - inject_Z (Qfloor x))%Q as H1.
  { apply Qnot_lt_le. intros H%Qgtb_spec. congruence. }
  destruct (Qgtb (x - inject_Z (Qfloor x)) (1 # 2)) eqn:E2.
  { rewrite inject_Z_plus. change (inject_Z 1) with 1%Q. split; lra. }
  assert (x - inject_Z (Qfloor x) <= 1 # 2)%Q as H2.
  { apply Qnot_lt_le. intros H%Qgtb_spec. congruence. }
  destruct (Z.even (Qfloor x)).
  - split; lra.
  - rewrite inject_Z_plus. change (inject_Z 1) with 1%Q. split; lra.
Qed.

(** [round2] returns a number of hundredths that differs from its argument
    by at most half a hundredth. *)
Lemma round2_spec (x : Q) :
  exists k : Z, round2 x = (inject_Z k / 100)%Q
    /\ (Qabs (x * 100 - inject_Z k) <= 1 # 2)%Q.
Proof.
  exists (round_half_even (x * 100)). split; [done|].
  apply round_half_even_near.
Qed.

(** *** The flat result mapping *)

Lemma append_inj_l (a b c : string) : a +:+ b = a +:+ c -> b = c.
Proof.
  induction a as [|x a IH]; [done|]. intros H. injection H as H. auto.
Qed.

Lemma f1_pr_ne (tag n1 n2 : string) : f1_key tag n1 <> pr_key tag n2.
Proof. by intros H%append_inj_l. Qed.

Lemma f1_r_ne (tag n1 n2 : string) : f1_key tag n1 <> r_key tag n2.
Proof. by intros H%append_inj_l. Qed.

Lemma pr_r_ne (tag n1 n2 : string) : pr_key tag n1 <> r_key tag n2.
Proof. by intros H%append_inj_l. Qed.

Lemma f1_key_inj (tag n1 n2 : string) :
  f1_key tag n1 = f1_key tag n2 -> n1 = n2.
Proof. by intros H%append_inj_l%(append_inj_l "F1 "). Qed.

Lemma pr_key_inj (tag n1 n2 : string) :
  pr_key tag n1 = pr_key tag n2 -> n1 = n2.
Proof. by intros H%append_inj_l%(append_inj_l "PR "). Qed.

Lemma r_key_inj (tag n1 n2 : string) :
  r_key tag n1 = r_key tag n2 -> n1 = n2.
Proof. by intros H%append_inj_l%(append_inj_l "R "). Qed.

Lemma result_dict_step_ok (tag : string) (class_report : class_report_t)
  (d : results_t) (label name : string) (m : metrics) :
  label_name label = Ok name ->
  report_get class_report label = Ok m ->
  result_dict_step tag class_report (Ok d) label
  = Ok (<[r_key tag name := round2 (recall m * 100)]>
          (<[pr_key tag name := round2 (precision m * 100)]>
             (<[f1_key tag name := round2 (f1_score m * 100)]> d))).
Proof.
  intros Hn Hm. unfold result_dict_step. cbn [mbind result_bind].
  rewrite Hn. cbn [mbind result_bind]. rewrite Hm. done.
Qed.

Lemma report_get_in (class_report : class_report_t) (label : string) :
  label ∈ class_report.*1 -> exists m, report_get class_report label = Ok m.
Proof.
  induction class_report as [|[l m] rest IH]; simpl.
  - by intros ?%elem_of_nil.
  - intros [->|H]%elem_of_cons.
    + exists m. by rewrite bool_decide_eq_true_2.
    + case_bool_decide; [by exists m | by apply IH].
Qed.

Lemma foldl_result_dict (tag : string) (class_report : class_report_t)
  (labels : list string) :
  labels ⊆ class_report.*1 ->
  Forall (fun l => exists n, label_name l = Ok n) labels ->
  exists d,
    foldl (result_dict_step tag class_report) (Ok ∅) labels = Ok d
    /\ report_entries tag class_report labels d
    /\ tagged tag d.
Proof.
  induction labels as [|label labels IH] using rev_ind; intros Hsub Hnames.
  - exists ∅. split; [done|]. split.
    + intros i label name m Hi. by rewrite lookup_nil in Hi.
    + intros k v Hk. by rewrite lookup_empty in Hk.
  - apply Forall_app in Hnames as [Hnames Hlast].
    apply Forall_singleton in Hlast as [name Hname].
    destruct IH as (d & Hd & Hent & Htag); [set_solver|done|].
    destruct (report_get_in class_report label) as [m Hm]; [set_solver|].
    eexists. rewrite foldl_app. cbn [foldl]. rewrite Hd.
    rewrite (result_dict_step_ok _ _ _ _ _ _ Hname Hm).
    split; [done|]. split.
    + intros i l n m' Hi Hn Hlater Hm'.
      destruct (decide (i < length labels)) as [Hlt|Hge].
      * rewrite lookup_app_l in Hi by done.
        assert (n <> name) as Hne.
        { intros ->. apply (Hlater (length labels) label); [done| |done].
          by rewrite lookup_app_r, Nat.sub_diag. }
        destruct (Hent i l n m' Hi Hn) as (E1 & E2 & E3); [|done|].
        { intros j l' Hj Hl'. apply (Hlater j l'); [done|].
          rewrite lookup_app_l; [done|]. by eapply lookup_lt_Some. }
        rewrite !lookup_insert_ne; [done|..];
          first [ by intros ?%f1_key_inj | by intros ?%pr_key_inj
                | by intros ?%r_key_inj | by intros ?%eq_sym%f1_pr_ne
                | by intros ?%eq_sym%f1_r_ne | by intros ?%eq_sym%pr_r_ne
                | by intros ?%f1_pr_ne | by intros ?%f1_r_ne
                | by intros ?%pr_r_ne ].
      * rewrite lookup_app_r in Hi by lia.
        destruct (i - length labels) as [|?]; [|done].
        injection Hi as <-. rewrite Hname in Hn. injection Hn as <-.
        rewrite Hm in Hm'. injection Hm' as <-.
        rewrite lookup_insert_ne by (by intros ?%eq_sym%f1_r_ne).
        rewrite lookup_insert_ne by (by intros ?%eq_sym%f1_pr_ne).
        rewrite lookup_insert_eq.
        rewrite lookup_insert_ne by (by intros ?%eq_sym%pr_r_ne).
        rewrite !lookup_insert_eq. done.
    + intros k v. rewrite !lookup_insert_Some.
      intros [[<- _]|[_ [[<- _]|[_ [[<- _]|[_ Hk]]]]]]; eauto.
Qed.

(** [_get_result_dict] succeeds when every label has a name, and stores the
    entries of the report under keys that start with the tag. *)
Lemma _get_result_dict_ok (tag : string) (class_report : class_report_t) :
  Forall (fun l => exists n, label_name l = Ok n) class_report.*1 ->
  exists d, _get_result_dict tag class_report = Ok d
    /\ report_entries tag class_report class_report.*1 d
    /\ tagged tag d.
Proof. intros H. by apply foldl_result_dict. Qed.

Lemma bind_assoc {S A B C} (c : py S A) (f : A -> py S B) (h : B -> py S C)
  (s : S) :
  ((c ≫= f) ≫= h) s = (c ≫= fun a => f a ≫= h) s.
Proof. unfold mbind, py_bind. by destruct (c s) as [s' [a|e]]. Qed.

Lemma bind_ok {S A B} (c : py S A) (f : A -> py S B) (s s' : S) (a : A) :
  c s = (s', Ok a) -> (c ≫= f) s = f a s'.
Proof. intros H. unfold mbind, py_bind. by rewrite H. Qed.

Lemma tagged_none (tag tag' rest : string) (d : results_t) :
  tagged tag' d -> (forall x y, tag +:+ x <> tag' +:+ y) ->
  d !! (tag +:+ rest) = None.
Proof.
  intros Ht Hne. destruct (d !! (tag +:+ rest)) as [v|] eqn:E; [|done].
  destruct (Ht _ _ E) as [y Hy]. by apply Hne in Hy.
Qed.

Lemma report_entries_mono (tag : string) (class_report : class_report_t)
  (labels : list string) (r r' : results_t) :
  report_entries tag class_report labels r ->
  (forall rest, r' !! (tag +:+ rest) = r !! (tag +:+ rest)) ->
  report_entries tag class_report labels r'.
Proof.
  intros Hr Heq i label name m Hi Hn Hlater Hm.
  unfold f1_key, pr_key, r_key. rewrite !Heq. by eapply Hr.
Qed.

Section EpochsDoneFacts.
Context {label_ids_t : Type}.
Context (report_text :
           list pyval -> list pyval -> option label_ids_t -> result string).
Context (report_dict :
           list pyval -> list pyval -> option label_ids_t
           -> result class_report_t).
Context (np_mean_eq : list pyval -> list pyval -> Q).

Lemma _eval_epochs_done_callback_ok (task_name : string)
  (global_vars : global_vars_t) (label_ids : option label_ids_t)
  (graph_fold : option string) (normalize_cm : bool)
  (class_report : class_report_t) (tr : list cb_event) :
  task_ready report_text report_dict global_vars task_name label_ids
    class_report ->
  exists tr',
    _eval_epochs_done_callback report_text report_dict task_name global_vars
      label_ids graph_fold normalize_cm tr = (tr', Ok class_report).
Proof.
  intros (labels & preds & text & Hl & Hp & Ht & Hd & _).
  unfold _eval_epochs_done_callback, gv_getitem, mbind, py_bind, lift.
  rewrite Hl, Hp.
  destruct (truthy graph_fold); cbn; rewrite Ht, Hd; eexists; reflexivity.
Qed.

Lemma _eval_epochs_done_callback_agree (task_name : string)
  (g1 g2 : global_vars_t) (label_ids : option label_ids_t)
  (graph_fold : option string) (normalize_cm : bool) :
  agree_off UNUSED_KEYS g1 g2 ->
  task_name +:+ "_labels" ∉ UNUSED_KEYS ->
  task_name +:+ "_preds" ∉ UNUSED_KEYS ->
  _eval_epochs_done_callback report_text report_dict task_name g1 label_ids
    graph_fold normalize_cm
  = _eval_epochs_done_callback report_text report_dict task_name g2 label_ids
      graph_fold normalize_cm.
Proof.
  intros H Hl Hp. unfold _eval_epochs_done_callback.
  by rewrite (gv_getitem_agree g1 g2 _ H Hl), (gv_getitem_agree g1 g2 _ H Hp).
Qed.

Lemma not_unused (k : string) :
  k ∈ ["punct_labels"; "punct_preds"; "capit_labels"; "capit_preds";
       "part_sent_labels"; "part_sent_preds"] ->
  k ∉ UNUSED_KEYS.
Proof.
  unfold UNUSED_KEYS. rewrite !elem_of_cons, !elem_of_nil.
  intros [?|[?|[?|[?|[?|[?|?]]]]]] [?|[?|[?|[?|[?|?]]]]]; congruence.
Qed.

(** The epoch-end callback does not read the unused keys. *)
Lemma eval_epochs_done_callback_agree (g1 g2 : global_vars_t)
  (punct_label_ids capit_label_ids : label_ids_t)
  (part_sent_label_ids : option label_ids_t) (graph_fold : option string)
  (normalize_cm : bool) :
  agree_off UNUSED_KEYS g1 g2 ->
  eval_epochs_done_callback report_text report_dict np_mean_eq g1
    punct_label_ids capit_label_ids part_sent_label_ids graph_fold
    normalize_cm
  = eval_epochs_done_callback report_text report_dict np_mean_eq g2
      punct_label_ids capit_label_ids part_sent_label_ids graph_fold
      normalize_cm.
Proof.
  intros H. unfold eval_epochs_done_callback, part_sent_results.
  rewrite !(_eval_epochs_done_callback_agree _ g1 g2 _ _ _ H)
    by (apply not_unused; cbn; repeat constructor).
  rewrite !(gv_getitem_agree g1 g2 _ H)
    by (apply not_unused; repeat constructor).
  rewrite (H "part_sent_preds") by (apply not_unused; repeat constructor).
  done.
Qed.

Lemma tag_p_c (x y : string) : "p" +:+ x <> "c" +:+ y.
Proof. done. Qed.
Lemma tag_p_t (x y : string) : "p" +:+ x <> "t" +:+ y.
Proof. done. Qed.
Lemma tag_c_p (x y : string) : "c" +:+ x <> "p" +:+ y.
Proof. done. Qed.
Lemma tag_c_t (x y : string) : "c" +:+ x <> "t" +:+ y.
Proof. done. Qed.
Lemma tag_t_p (x y : string) : "t" +:+ x <> "p" +:+ y.
Proof. done. Qed.
Lemma tag_t_c (x y : string) : "t" +:+ x <> "c" +:+ y.
Proof. done. Qed.

Lemma lookup_update_l (results d : results_t) (tag tag' rest : string) :
  tagged tag' results -> (forall x y, tag +:+ x <> tag' +:+ y) ->
  update results d !! (tag +:+ rest) = d !! (tag +:+ rest).
Proof.
  intros Ht Hne. unfold update.
  destruct (d !! (tag +:+ rest)) as [v|] eqn:E.
  - by apply lookup_union_Some_l.
  - rewrite lookup_union_r by done. by eapply tagged_none.
Qed.

Lemma lookup_update_r (results d : results_t) (tag tag' rest : string) :
  tagged tag' d -> (forall x y, tag +:+ x <> tag' +:+ y) ->
  update results d !! (tag +:+ rest) = results !! (tag +:+ rest).
Proof.
  intros Ht Hne. unfold update. apply lookup_union_r. by eapply tagged_none.
Qed.

(** C7: when the accumulators of the tasks are there and their reports are
    computed, the epoch-end callback returns one flat mapping: for every
    label of the report of a task it holds, under the prefix of the task
    (p, c or t), then [F1 ], [PR ] or [R ], then the name of the label, the
    f1-score, the precision and the recall of the report times 100 and
    rounded to two decimals. *)
Theorem eval_epochs_done_callback_results (global_vars : global_vars_t)
  (punct_label_ids capit_label_ids : label_ids_t)
  (part_sent_label_ids : option label_ids_t) (graph_fold : option string)
  (normalize_cm : bool) (punct_report capit_report part_sent_report :
                           class_report_t) (tr : list cb_event) :
  task_ready report_text report_dict global_vars "punct"
    (Some punct_label_ids) punct_report ->
  task_ready report_text report_dict global_vars "capit"
    (Some capit_label_ids) capit_report ->
  (is_Some (global_vars !! "part_sent_preds") ->
   task_ready report_text report_dict global_vars "part_sent"
     part_sent_label_ids part_sent_report) ->
  exists tr' results,
    eval_epochs_done_callback report_text report_dict np_mean_eq global_vars
      punct_label_ids capit_label_ids part_sent_label_ids graph_fold
      normalize_cm tr = (tr', Ok results)
    /\ report_entries "p" punct_report punct_report.*1 results
    /\ report_entries "c" capit_report capit_report.*1 results
    /\ (is_Some (global_vars !! "part_sent_preds") ->
        report_entries "t" part_sent_report part_sent_report.*1 results).
Proof.
  intros Hp Hc Hps.
  destruct (_eval_epochs_done_callback_ok "punct" global_vars
              (Some punct_label_ids) graph_fold normalize_cm punct_report tr
              Hp) as [tr1 E1].
  destruct (_eval_epochs_done_callback_ok "capit" global_vars
              (Some capit_label_ids) graph_fold normalize_cm capit_report tr1
              Hc) as [tr2 E2].
  destruct Hp as (? & ? & ? & _ & _ & _ & _ & Hnp).
  destruct Hc as (? & ? & ? & _ & _ & _ & _ & Hnc).
  destruct (_get_result_dict_ok "p" punct_report Hnp)
    as (dp & Edp & Entp & Tp).
  destruct (_get_result_dict_ok "c" capit_report Hnc)
    as (dc & Edc & Entc & Tc).
  unfold eval_epochs_done_callback.
  rewrite (bind_ok _ _ _ _ _ E1), Edp, bind_lift_ok.
  rewrite (bind_ok _ _ _ _ _ E2), Edc, bind_lift_ok.
  unfold part_sent_results.
  assert (tagged "p" (update ∅ dp)) as Tp'.
  { intros k v. unfold update. rewrite (right_id_L ∅ (∪)). apply Tp. }
  destruct (global_vars !! "part_sent_preds") as [psp|] eqn:Epsp.
  - destruct Hps as (labels & preds & text & Hl & Hpr & Ht & Hd & Hn);
      [done|].
    destruct (_eval_epochs_done_callback_ok "part_sent" global_vars
                part_sent_label_ids graph_fold normalize_cm part_sent_report
                tr2) as [tr3 E3].
    { by exists labels, preds, text. }
    destruct (_get_result_dict_ok "t" part_sent_report)
      as (dt & Edt & Entt & Tt); [done|].
    rewrite bool_decide_eq_true_2 by done.
    unfold gv_getitem at 1 2. rewrite Epsp.
    change ("part_sent" +:+ "_labels") with "part_sent_labels" in Hl.
    rewrite Hl, bind_assoc, bind_lift_ok, bind_assoc, bind_lift_ok.
    rewrite bind_assoc, (bind_ok _ _ _ _ _ E3), Edt, bind_assoc, bind_lift_ok.
    eexists _, _. split; [reflexivity|].
    split; [|split; [|intros _]].
    + eapply report_entries_mono; [exact Entp|]. intros rest.
      rewrite lookup_insert_ne by done.
      rewrite (lookup_update_r _ _ "p" "t") by (done || apply tag_p_t).
      rewrite (lookup_update_r _ _ "p" "c") by (done || apply tag_p_c).
      unfold update. by rewrite (right_id_L ∅ (∪)).
    + eapply report_entries_mono; [exact Entc|]. intros rest.
      rewrite lookup_insert_ne by done.
      rewrite (lookup_update_r _ _ "c" "t") by (done || apply tag_c_t).
      rewrite (lookup_update_l _ _ "c" "p") by (done || apply tag_c_p).
      done.
    + eapply report_entries_mono; [exact Entt|]. intros rest.
      rewrite lookup_insert_ne by done.
      unfold update. destruct (dt !! ("t" +:+ rest)) as [v|] eqn:E.
      * by apply lookup_union_Some_l.
      * rewrite lookup_union_r by done.
        rewrite lookup_union_r by (eapply tagged_none; [exact Tc|apply tag_t_c]).
        rewrite lookup_union_r by (eapply tagged_none; [exact Tp|apply tag_t_p]).
        by rewrite lookup_empty.
  - rewrite bool_decide_eq_false_2 by (by intros [? ?]).
    eexists _, _. split; [reflexivity|].
    split; [|split; [|by intros [? ?]]].
    + eapply report_entries_mono; [exact Entp|]. intros rest.
      rewrite (lookup_update_r _ _ "p" "c") by (done || apply tag_p_c).
      unfold update. by rewrite (right_id_L ∅ (∪)).
    + eapply report_entries_mono; [exact Entc|]. intros rest.
      rewrite (lookup_update_l _ _ "c" "p") by (done || apply tag_c_p).
      done.
Qed.

(** C9: the five keys [punct_all_preds], [punct_all_labels],
    [capit_all_preds], [capit_all_labels] and [all_subtokens_mask] are
    created empty and never used: once the callback has been called, each
    holds the empty list, however many calls were made and however they
    ended; the callback ignores them, and so does the epoch-end callback,
    whose trace and result do not depend on them. *)
Theorem unused_keys_stay_empty (batches : list tensors_t)
  (tensors : tensors_t) (global_vars : global_vars_t) :
  (forall k, k ∈ UNUSED_KEYS -> acc global_vars k = []) ->
  (forall k, k ∈ UNUSED_KEYS ->
     (eval_iter_callbacks (batches ++ [tensors]) global_vars).1 !! k
     = Some [])
  /\ ignores UNUSED_KEYS (eval_iter_callback tensors)
  /\ (forall g1 g2 punct_label_ids capit_label_ids part_sent_label_ids
        graph_fold normalize_cm,
        agree_off UNUSED_KEYS g1 g2 ->
        eval_epochs_done_callback report_text report_dict np_mean_eq g1
          punct_label_ids capit_label_ids part_sent_label_ids graph_fold
          normalize_cm
        = eval_epochs_done_callback report_text report_dict np_mean_eq g2
            punct_label_ids capit_label_ids part_sent_label_ids graph_fold
            normalize_cm).
Proof.
  intros Hempty. split; [|split].
  - intros k Hk. rewrite eval_iter_callbacks_unused; [|by destruct batches|done].
    by rewrite Hempty.
  - apply ignores_eval_iter_callback.
  - intros. by apply eval_epochs_done_callback_agree.
Qed.
End EpochsDoneFacts.

(** *** The partial-sentence task *)

Lemma sentence_preds_ok (output : output_t) (logits : ndarray) (b c : nat) :
  has_tensor output "part_sent_logits" [b; c] logits -> c <> 0%nat ->
  (logits ← getitem output "part_sent_logits";
   a ← argmax logits;
   iter_items (tensor2list a)) = Ok (sentence_preds logits c b).
Proof.
  intros (Hk & Hs & Hw) Hc. unfold getitem. rewrite Hk.
  cbn [mbind result_bind]. rewrite (argmax_ok logits [b] c) by done.
  cbn [mbind result_bind]. unfold tensor2list, tolist. cbn [shape data].
  cbn [numel foldr]. rewrite Nat.mul_1_r.
  replace [b] with [length (class_index <$> chunks b c (data logits))]
    by (by rewrite length_fmap, length_chunks).
  rewrite to_py_1d. cbn [iter_items]. f_equal.
  rewrite chunks_seq, <- !list_fmap_compose. done.
Qed.

Lemma sentence_labels_ok (output : output_t) (labels : ndarray) (b : nat) :
  has_tensor output "part_sent_labels" [b] labels ->
  (labels ← getitem output "part_sent_labels";
   iter_items (tensor2list labels)) = Ok (sentence_labels labels).
Proof.
  intros (Hk & Hs & Hw). unfold getitem. rewrite Hk.
  cbn [mbind result_bind]. unfold tensor2list, tolist. rewrite Hs.
  unfold wf in Hw. rewrite Hs in Hw. cbn [numel foldr] in Hw.
  rewrite Nat.mul_1_r in Hw. rewrite <- Hw. by rewrite to_py_1d.
Qed.

Lemma part_sent_block_ok (output : output_t) (logits labels : ndarray)
  (b c : nat) (g : global_vars_t) (lp ll : list pyval) :
  has_tensor output "part_sent_logits" [b; c] logits -> c <> 0%nat ->
  has_tensor output "part_sent_labels" [b] labels ->
  part_sent_init g !! "part_sent_preds" = Some lp ->
  part_sent_init g !! "part_sent_labels" = Some ll ->
  part_sent_block output g
  = (<["part_sent_labels" := ll ++ sentence_labels labels]>
       (<["part_sent_preds" := lp ++ sentence_preds logits c b]>
          (part_sent_init g)), Ok tt).
Proof.
  intros Hlog Hc Hlab Hp Hl. unfold part_sent_block.
  rewrite bool_decide_eq_true_2 by (destruct Hlog as [-> _]; eauto).
  rewrite (sentence_preds_ok _ _ _ _ Hlog Hc), (sentence_labels_ok _ _ _ Hlab).
  change (modify _ ≫= ?f) with (fun s => f tt (part_sent_init s)).
  cbv beta. rewrite (bind_extend_ok _ _ _ _ _ Hp).
  rewrite (extend_ok _ ll) by (by rewrite lookup_insert_ne).
  done.
Qed.

(** C6, as the code has it: for a batch that also holds partial-sentence
    logits of one row of class scores per sentence, and as many labels, the
    callback appends to [part_sent_preds] the argmax class index of every
    row and to [part_sent_labels] every label; the subtoken mask plays no
    part, and each list grows by the number of rows. *)
Theorem part_sent_appended_unmasked (tensors : tensors_t)
  (global_vars : global_vars_t) (output : output_t)
  (m pl cl plab clab logits labels : ndarray) (np nc b c : nat) :
  build_output tensors = Ok output ->
  token_batch output m pl cl plab clab np nc ->
  has_tensor output "part_sent_logits" [b; c] logits -> c <> 0%nat ->
  has_tensor output "part_sent_labels" [b] labels ->
  (is_Some (global_vars !! "part_sent_preds") ->
   is_Some (global_vars !! "part_sent_labels")) ->
  let r := eval_iter_callback tensors global_vars in
  r.2 = Ok tt
  /\ r.1 !! "part_sent_preds"
     = Some (acc global_vars "part_sent_preds" ++ sentence_preds logits c b)
  /\ r.1 !! "part_sent_labels"
     = Some (acc (part_sent_init global_vars) "part_sent_labels"
             ++ sentence_labels labels)
  /\ length (sentence_preds logits c b) = b
  /\ length (sentence_labels labels) = b.
Proof.
  intros Hout Hb Hlog Hc Hlab Hboth r. subst r.
  rewrite eval_iter_callback_unfold, Hout.
  rewrite (main_block_token_batch _ _ _ _ _ _ _ _ _
             (acc global_vars "punct_preds") (acc global_vars "capit_preds")
             (acc global_vars "punct_labels") (acc global_vars "capit_labels")
             Hb);
    try (apply lookup_init_keys_in; unfold UNUSED_KEYS, GLOBAL_KEYS; simpl;
         repeat constructor).
  set (g4 := <["capit_labels" := _]> _).
  assert (forall k, k ∈ ["part_sent_preds"; "part_sent_labels"] ->
            g4 !! k = global_vars !! k) as Hg4.
  { intros k Hk. unfold g4.
    rewrite !lookup_insert_ne
      by (intros <-; revert Hk; rewrite !elem_of_cons, elem_of_nil;
          intros [?|[?|?]]; congruence).
    apply lookup_init_keys_out. unfold UNUSED_KEYS, GLOBAL_KEYS.
    revert Hk. rewrite elem_of_app, !elem_of_cons, !elem_of_nil.
    intros [->|[->|?]] [[?|[?|[?|[?|[?|?]]]]]|[?|[?|[?|[?|?]]]]];
      congruence. }
  assert (part_sent_init g4 !! "part_sent_preds"
          = Some (acc global_vars "part_sent_preds")) as Hp.
  { unfold part_sent_init, acc.
    rewrite (Hg4 "part_sent_preds") by repeat constructor.
    destruct (global_vars !! "part_sent_preds") as [l|] eqn:E.
    - by rewrite (Hg4 "part_sent_preds") by repeat constructor.
    - by rewrite lookup_insert_ne, lookup_insert_eq. }
  assert (part_sent_init g4 !! "part_sent_labels"
          = Some (acc (part_sent_init global_vars) "part_sent_labels")) as Hl.
  { unfold part_sent_init, acc.
    rewrite (Hg4 "part_sent_preds") by repeat constructor.
    destruct (global_vars !! "part_sent_preds") as [l|] eqn:E.
    - rewrite (Hg4 "part_sent_labels") by repeat constructor.
      destruct Hboth as [ll ->]; [by eauto|]. done.
    - by rewrite !lookup_insert_eq. }
  rewrite (part_sent_block_ok _ _ _ _ _ _ _ _ Hlog Hc Hlab Hp Hl).
  cbn [fst snd]. split; [done|].
  split; [by rewrite lookup_insert_ne, lookup_insert_eq|].
  split; [by rewrite lookup_insert_eq|].
  unfold sentence_preds, sentence_labels. rewrite !length_fmap, length_seq.
  split; [done|]. destruct Hlab as (_ & Hs & Hw). unfold wf in Hw.
  rewrite Hw, Hs. cbn. lia.
Qed.

(** *** Entries of [tensors] without the separator *)

Lemma output_step_skip (output : result output_t)
  (kv : string * list ndarray) :
  ~ has_sep kv -> output_step output kv = output.
Proof.
  intros H. unfold output_step. destruct output as [o|e]; [|done].
  cbn [mbind result_bind]. rewrite split_length_in by done.
  unfold has_sep in H. by destruct (str_in "~~~" kv.1).
Qed.

Lemma foldl_output_step_filter (tensors : tensors_t)
  (output : result output_t) :
  foldl output_step output tensors
  = foldl output_step output (filter has_sep tensors).
Proof.
  revert output. induction tensors as [|kv tensors IH]; intros output; [done|].
  rewrite filter_cons. destruct (decide (has_sep kv)) as [H|H]; simpl.
  - apply IH.
  - rewrite output_step_skip by done. apply IH.
Qed.

(** C10: the callback ignores the entries of [tensors] whose key does not
    contain [~~~]: two dictionaries with the same entries under the keys
    that contain the separator, met in the same order, lead to the same
    state and the same outcome, whatever their other entries. *)
Theorem eval_iter_callback_ignores_unmarked (tensors1 tensors2 : tensors_t)
  (global_vars : global_vars_t) :
  filter has_sep tensors1 = filter has_sep tensors2 ->
  eval_iter_callback tensors1 global_vars
  = eval_iter_callback tensors2 global_vars.
Proof.
  intros H. rewrite !eval_iter_callback_unfold. unfold build_output.
  by rewrite (foldl_output_step_filter tensors1),
    (foldl_output_step_filter tensors2), H.
Qed.

(** *** Order of the entries of [tensors] *)

Lemma cat_raise (ts : list ndarray) (e : exn) :
  cat ts = Raise e -> e = RuntimeError.
Proof.
  unfold cat. destruct ts as [|t ts]; [by intros [= <-]|].
  destruct (filter _ _) as [|t0 rest]; [done|].
  destruct (shape t0); [by intros [= <-]|].
  destruct (forallb _ _); [done | by intros [= <-]].
Qed.

Lemma output_step_marked (output : output_t) (kv : string * list ndarray) :
  has_sep kv ->
  output_step (Ok output) kv
  = match cat kv.2 with
    | Ok t => Ok (<[entry_name kv := t]> output)
    | Raise e => Raise RuntimeError
    end.
Proof.
  intros H. unfold output_step. cbn [mbind result_bind].
  rewrite split_length_in by done. unfold has_sep in H. rewrite H.
  destruct (cat kv.2) as [t|e] eqn:E; [done|].
  apply cat_raise in E as ->. done.
Qed.

Lemma output_step_swap (output : result output_t)
  (x y : string * list ndarray) :
  has_sep x -> has_sep y -> entry_name x <> entry_name y ->
  output_step (output_step output x) y = output_step (output_step output y) x.
Proof.
  intros Hx Hy Hne. destruct output as [o|e]; [|done].
  rewrite (output_step_marked o x Hx), (output_step_marked o y Hy).
  destruct (cat x.2) as [tx|] eqn:Ex, (cat y.2) as [ty|] eqn:Ey.
  - rewrite (output_step_marked _ y Hy), (output_step_marked _ x Hx), Ex, Ey.
    f_equal. by apply insert_insert_ne.
  - rewrite (output_step_marked _ y Hy), Ey. done.
  - rewrite (output_step_marked _ x Hx), Ex. done.
  - done.
Qed.

Lemma foldl_output_step_perm (l1 l2 : tensors_t) :
  l1 ≡ₚ l2 -> Forall has_sep l1 -> NoDup (entry_name <$> l1) ->
  forall output, foldl output_step output l1 = foldl output_step output l2.
Proof.
  induction 1 as [|x l1 l2 Hp IH|x y l|l1 l2 l3 Hp1 IH1 Hp2 IH2];
    intros Hsep Hnd output.
  - done.
  - apply Forall_cons in Hsep as [_ Hsep]. apply NoDup_cons in Hnd as [_ Hnd].
    cbn [foldl]. by apply IH.
  - apply Forall_cons in Hsep as [Hy Hsep].
    apply Forall_cons in Hsep as [Hx _].
    apply NoDup_cons in Hnd as [Hnd _]. cbn [foldl].
    rewrite (output_step_swap output y x); [done..|].
    intros Heq. apply Hnd. rewrite Heq. by left.
  - rewrite IH1 by done. apply IH2.
    + by rewrite <- Hp1.
    + by rewrite <- Hp1.
Qed.

(** The order in which [tensors] lists its entries does not matter either,
    as long as no two keys with the separator share the text before it. *)
Lemma eval_iter_callback_ignores_order (tensors1 tensors2 : tensors_t)
  (global_vars : global_vars_t) :
  filter has_sep tensors1 ≡ₚ filter has_sep tensors2 ->
  NoDup (entry_name <$> filter has_sep tensors1) ->
  eval_iter_callback tensors1 global_vars
  = eval_iter_callback tensors2 global_vars.
Proof.
  intros Hp Hnd. rewrite !eval_iter_callback_unfold. unfold build_output.
  rewrite (foldl_output_step_filter tensors1),
    (foldl_output_step_filter tensors2).
  rewrite (foldl_output_step_perm _ _ Hp); [done| |done].
  apply Forall_forall. intros kv Hkv.
  by apply list_elem_of_filter in Hkv as [? _].
Qed.

(** *** The sample batch *)

Lemma ex_token_batch :
  token_batch ex_output ex_mask ex_punct_logits ex_capit_logits
    ex_punct_labels ex_capit_labels 3 2.
Proof. by repeat split. Qed.

Lemma ex_token_batch_ps :
  token_batch ex_output_ps ex_mask ex_punct_logits ex_capit_logits
    ex_punct_labels ex_capit_labels 3 2.
Proof. by repeat split. Qed.

Lemma eval_iter_callback_masked_witness :
  real_subtokens ex_mask = [0; 2; 3]%nat
  /\ (eval_iter_callback ex_tensors ∅).1 !! "punct_preds"
     = Some [PNum 1; PNum 0; PNum 2]
  /\ (eval_iter_callback ex_tensors ∅).1 !! "capit_preds"
     = Some [PNum 1; PNum 0; PNum 1]
  /\ (eval_iter_callback ex_tensors ∅).1 !! "punct_labels"
     = Some [PNum 1; PNum 0; PNum 2]
  /\ (eval_iter_callback ex_tensors ∅).1 !! "capit_labels"
     = Some [PNum 1; PNum 0; PNum 0]
  /\ (eval_iter_callback ex_tensors ∅).2 = Ok tt.
Proof.
  destruct (eval_iter_callback_masked ex_tensors ∅ ex_output ex_mask
              ex_punct_logits ex_capit_logits ex_punct_labels ex_capit_labels
              3 2 eq_refl ex_token_batch) as (H1 & H2 & H3 & H4 & _ & _ & H7).
  split; [reflexivity|]. split; [exact H1|]. split; [exact H2|].
  split; [exact H3|]. split; [exact H4|]. apply H7. reflexivity.
Defined.

(** C6, at an input where the code departs from it: three subtokens of the
    batch are real, the partial-sentence logits have one row per sentence,
    and the callback appends the argmax of both rows; a selection of these
    predictions by the subtoken mask does not even exist. *)
Lemma part_sent_not_masked_counterexample :
  build_output ex_tensors_ps = Ok ex_output_ps
  /\ (eval_iter_callback ex_tensors_ps ∅).2 = Ok tt
  /\ real_subtokens ex_mask = [0; 2; 3]%nat
  /\ (eval_iter_callback ex_tensors_ps ∅).1 !! "punct_preds"
     = Some [PNum 1; PNum 0; PNum 2]
  /\ (eval_iter_callback ex_tensors_ps ∅).1 !! "part_sent_preds"
     = Some [PNum 1; PNum 0]
  /\ (eval_iter_callback ex_tensors_ps ∅).1 !! "part_sent_labels"
     = Some [PNum 1; PNum 1]
  /\ ~ (exists preds,
          masked_preds ex_output_ps "part_sent_logits" (gt ex_mask (1 # 2))
          = Ok preds
          /\ (eval_iter_callback ex_tensors_ps ∅).1 !! "part_sent_preds"
             = Some (acc ∅ "part_sent_preds" ++ preds)).
Proof.
  repeat (split; [reflexivity|]). intros (preds & H & _). discriminate H.
Qed.

(** Where a selection by the mask exists, it is not what is appended: with
    per-subtoken partial-sentence logits the callback appends one nested
    list per sentence, the padding position included. *)
Example part_sent_per_subtoken :
  build_output ex_tensors_pt = Ok ex_output_pt
  /\ masked_preds ex_output_pt "part_sent_logits" (gt ex_mask (1 # 2))
     = Ok [PNum 1; PNum 0; PNum 1]
  /\ (eval_iter_callback ex_tensors_pt ∅).1 !! "part_sent_preds"
     = Some [PList [PNum 1; PNum 0]; PList [PNum 0; PNum 1]].
Proof. repeat split. Qed.

Lemma part_sent_appended_unmasked_witness :
  (eval_iter_callback ex_tensors_ps ∅).2 = Ok tt
  /\ (eval_iter_callback ex_tensors_ps ∅).1 !! "part_sent_preds"
     = Some [PNum 1; PNum 0]
  /\ (eval_iter_callback ex_tensors_ps ∅).1 !! "part_sent_labels"
     = Some [PNum 1; PNum 1].
Proof.
  destruct (part_sent_appended_unmasked ex_tensors_ps ∅ ex_output_ps ex_mask
              ex_punct_logits ex_capit_logits ex_punct_labels ex_capit_labels
              ex_part_sent_logits ex_part_sent_labels 3 2 2 2 eq_refl
              ex_token_batch_ps) as (H1 & H2 & H3 & _).
  - by repeat split.
  - lia.
  - by repeat split.
  - intros [l Hl]. rewrite lookup_empty in Hl. discriminate Hl.
  - split; [exact H1|]. split; [exact H2 | exact H3].
Defined.

Lemma equal_len_empty : equal_len ∅.
Proof. exists 0%nat. intros k _. reflexivity. Qed.

Lemma accumulators_equal_length_witness :
  exists n, forall k, k ∈ GLOBAL_KEYS ->
    exists l, (eval_iter_callback ex_tensors ∅).1 !! k = Some l
              /\ length l = n.
Proof.
  apply (accumulators_equal_length [] ex_tensors ∅
           (eval_iter_callback ex_tensors ∅).1 equal_len_empty).
  reflexivity.
Defined.

Lemma eval_iter_callback_ignores_unmarked_witness :
  eval_iter_callback ex_tensors ∅
  = eval_iter_callback
      (("lr", []) :: filter has_sep ex_tensors ++ [("loss", [ex_mask])]) ∅.
Proof.
  apply (eval_iter_callback_ignores_unmarked ex_tensors
           (("lr", []) :: filter has_sep ex_tensors ++ [("loss", [ex_mask])])
           ∅).
  reflexivity.
Defined.

Lemma unused_keys_stay_empty_witness :
  (forall k, k ∈ UNUSED_KEYS ->
     (eval_iter_callbacks [ex_tensors; ex_tensors_ps; []] ∅).1 !! k = Some [])
  /\ eval_epochs_done_callback ex_report_text ex_report_dict ex_np_mean_eq
       ex_global_vars tt tt None None true
     = eval_epochs_done_callback ex_report_text ex_report_dict ex_np_mean_eq
         (<["punct_all_preds" := [PNum 5]]> ex_global_vars) tt tt None None
         true.
Proof.
  destruct (unused_keys_stay_empty ex_report_text ex_report_dict
              ex_np_mean_eq [ex_tensors; ex_tensors_ps] [] ∅)
    as (H1 & _ & H3).
  - intros k _. reflexivity.
  - split; [exact H1|]. apply H3. intros k Hk.
    rewrite lookup_insert_ne; [done|]. intros <-. apply Hk.
    unfold UNUSED_KEYS. repeat constructor.
Defined.

Lemma ex_task_ready (task_name : string) :
  task_name ∈ ["punct"; "capit"; "part_sent"] ->
  forall ids, task_ready ex_report_text ex_report_dict ex_global_vars
                task_name ids ex_report.
Proof.
  rewrite !elem_of_cons, elem_of_nil. intros [->|[->|[->|[]]]] ids;
    (eexists _, _, _; split; [reflexivity|]; split; [reflexivity|];
     split; [reflexivity|]; split; [reflexivity|];
     repeat constructor; by eexists).
Qed.

Lemma eval_epochs_done_callback_results_witness :
  exists tr results,
    eval_epochs_done_callback ex_report_text ex_report_dict ex_np_mean_eq
      ex_global_vars tt tt None None true [] = (tr, Ok results)
    /\ results !! "pF1 O" = Some (round2 ((12 # 17) * 100))
    /\ results !! "cPR macro avg" = Some (round2 ((1 # 2) * 100))
    /\ results !! "tR O" = Some (round2 ((3 # 4) * 100)).
Proof.
  destruct (eval_epochs_done_callback_results ex_report_text ex_report_dict
              ex_np_mean_eq ex_global_vars tt tt None None true ex_report
              ex_report ex_report [])
    as (tr & results & H & Hp & Hc & Ht).
  - apply ex_task_ready. repeat constructor.
  - apply ex_task_ready. repeat constructor.
  - intros _. apply ex_task_ready. repeat constructor.
  - exists tr, results. split; [exact H|].
    assert (forall j label', 0 < j ->
              ex_report.*1 !! j = Some label' -> label_name label' <> Ok "O")
      as Hlast.
    { intros [|[|[|j]]] label' Hj Hl; try lia; try discriminate Hl.
      injection Hl as <-. discriminate. }
    assert (forall j label', 1 < j ->
              ex_report.*1 !! j = Some label' ->
              label_name label' <> Ok "macro avg") as Hlast'.
    { intros [|[|[|j]]] label' Hj Hl; try lia; discriminate Hl. }
    destruct (Hp 0%nat "O (label id: 0)" "O" _ eq_refl eq_refl Hlast eq_refl)
      as (E1 & _ & _).
    destruct (Hc 1%nat "macro avg" "macro avg" _ eq_refl eq_refl Hlast'
                eq_refl) as (_ & E2 & _).
    destruct (Ht ltac:(by eexists) 0%nat "O (label id: 0)" "O" _ eq_refl
                eq_refl Hlast eq_refl) as (_ & _ & E3).
    split; [exact E1|]. split; [exact E2 | exact E3].
Defined.

End PunctCallbackFacts.

(** ** More on the schema preprocessor *)

Module SchemaProcessorMore.
Import Np SchemaProcessor Spec SchemaSpec PyFacts SchemaProcessorFacts PunctCallbackFacts.

Section ConstructorMore.
Context (infer_schema_embeddings : string -> list service).
Context (data_dir schema_embedding_dir : string).
Context (overwrite : bool) (env : dist_env).

#[local] Abbreviation step' :=
  (init_split infer_schema_embeddings data_dir schema_embedding_dir
     overwrite env).
#[local] Abbreviation file' :=
  (_get_schema_embedding_file_name (self0 schema_embedding_dir)).

(** Splits that do not pass the guard leave the files and the trace alone. *)
Lemma foldl_init_split_skips (l : list string) (fs : filesystem)
  (evs : list event) :
  (forall split, split ∈ l ->
     generate_guard overwrite env fs (file' split) = false) ->
  foldl step' (fs, evs) l = (fs, evs).
Proof.
  induction l as [|s l IH]; intros H; [done|]. cbn [foldl].
  rewrite init_split_skips by (apply H; by left).
  apply IH. intros split Hin. apply H. by right.
Qed.

(** What one iteration does to a path other than its own file. *)
Lemma init_split_other (st : filesystem * list event) (split p : string) :
  p <> file' split -> (step' st split).1 !! p = st.1 !! p.
Proof.
  intros Hne. unfold init_split.
  destruct (generate_guard _ _ _ _); [|done]. simpl.
  by rewrite lookup_insert_ne.
Qed.

Lemma foldl_init_split_other (l : list string) (st : filesystem * list event)
  (p : string) :
  (forall split, split ∈ l -> p <> file' split) ->
  (foldl step' st l).1 !! p = st.1 !! p.
Proof.
  revert st. induction l as [|s l IH]; intros st H; [done|]. cbn [foldl].
  rewrite IH by (intros split Hin; apply H; by right).
  apply init_split_other. apply H. by left.
Qed.

(** Every write of the trace is the encoder output of a split of the list
    (or was in the trace before). *)
Lemma foldl_init_split_saves (l : list string) (st : filesystem * list event)
  (path : string) (records : list service) :
  SaveEmbeddings path records ∈ (foldl step' st l).2 ->
  SaveEmbeddings path records ∈ st.2
  \/ exists split, split ∈ l /\ path = file' split
       /\ records = infer_schema_embeddings
                      (os_path_join data_dir [split; "schema.json"]).
Proof.
  revert st. induction l as [|s l IH]; intros st H; [by left|].
  cbn [foldl] in H. apply IH in H as [H|(split & Hin & Hp & Hr)].
  - unfold init_split in H.
    destruct (generate_guard _ _ _ _); [|by left]. simpl in H.
    apply elem_of_app in H as [H|H]; [by left|]. right. exists s.
    split; [by left|].
    rewrite !elem_of_cons, elem_of_nil in H.
    destruct H as [H|[H|[H|[H|[]]]]]; try discriminate H.
    by injection H as -> ->.
  - right. exists split. split; [by right | done].
Qed.
End ConstructorMore.

Lemma str_length_append (a b : string) :
  String.length (a +:+ b) = (String.length a + String.length b)%nat.
Proof.
  induction a as [|c a IH]; [done|].
  change (S (String.length (a +:+ b))
          = S (String.length a + String.length b)). by f_equal.
Qed.

Lemma append_inj_r (a b s : string) : a +:+ s = b +:+ s -> a = b.
Proof.
  revert b. induction a as [|c a IH]; intros [|d b] H.
  - done.
  - apply (f_equal String.length) in H.
    rewrite !str_length_append in H. cbn [String.length] in H. lia.
  - apply (f_equal String.length) in H.
    rewrite !str_length_append in H. cbn [String.length] in H. lia.
  - injection H as -> H. f_equal. by apply IH.
Qed.

(** X1: when the overwrite flag is off and the embedding file of every
    split is on disk, the constructor does nothing: no file changes and
    nothing is logged or written, on any process. *)
Theorem constructor_skips_cached
  (infer_schema_embeddings : string -> list service)
  (data_dir schema_embedding_dir : string) (env : dist_env)
  (datasets : list string) (fs : filesystem) :
  (forall split, split ∈ datasets ->
     is_Some (fs !! _get_schema_embedding_file_name
                      (self0 schema_embedding_dir) split)) ->
  __init__ infer_schema_embeddings data_dir schema_embedding_dir false env
    datasets fs
  = (self0 schema_embedding_dir, fs, []).
Proof.
  intros H. unfold __init__. rewrite foldl_init_split_skips; [done|].
  intros split Hin. apply not_true_iff_false. intros Hg.
  apply generate_guard_iff in Hg as [[_ Hnone]|?]; [|done].
  destruct (H split Hin) as [c Hc]. congruence.
Qed.

Lemma constructor_skips_cached_witness :
  __init__ ex_infer "data" "emb" false ex_single ["train"] ex_fs
  = (self0 "emb", ex_fs, []).
Proof.
  apply (constructor_skips_cached ex_infer "data" "emb" ex_single
           ["train"] ex_fs).
  intros split Hin. rewrite !elem_of_cons, elem_of_nil in Hin.
  destruct Hin as [->|[]]; by eexists.
Defined.

(** X2: when the overwrite flag is off, a process that is not the
    coordinator does nothing, whether the files exist or not. *)
Theorem non_coordinator_idle_without_overwrite
  (infer_schema_embeddings : string -> list service)
  (data_dir schema_embedding_dir : string) (env : dist_env)
  (datasets : list string) (fs : filesystem) :
  master_device env = false ->
  __init__ infer_schema_embeddings data_dir schema_embedding_dir false env
    datasets fs
  = (self0 schema_embedding_dir, fs, []).
Proof.
  intros Hm. unfold __init__. rewrite foldl_init_split_skips; [done|].
  intros split _. apply not_true_iff_false. intros Hg.
  apply generate_guard_iff in Hg as [[? _]|?]; congruence.
Qed.

Lemma non_coordinator_idle_without_overwrite_witness :
  __init__ ex_infer "data" "emb" false ex_worker ["train"; "dev"] ∅
  = (self0 "emb", ∅, []).
Proof.
  apply (non_coordinator_idle_without_overwrite ex_infer "data" "emb"
           ex_worker ["train"; "dev"] ∅).
  reflexivity.
Defined.

Lemma foldl_init_split_keeps
  (infer_schema_embeddings : string -> list service)
  (data_dir schema_embedding_dir : string) (env : dist_env)
  (l : list string) (st : filesystem * list event) (p : string)
  (c : list service) :
  st.1 !! p = Some c ->
  (foldl (init_split infer_schema_embeddings data_dir schema_embedding_dir
            false env) st l).1 !! p = Some c.
Proof.
  revert st. induction l as [|s l IH]; intros st H; [done|]. cbn [foldl].
  apply IH. unfold init_split.
  destruct (generate_guard _ _ _ _) eqn:Hg; [|done]. simpl.
  apply generate_guard_iff in Hg as [[_ Hnone]|?]; [|done].
  rewrite lookup_insert_ne; [done|]. intros <-. congruence.
Qed.

Lemma foldl_init_split_fills
  (infer_schema_embeddings : string -> list service)
  (data_dir schema_embedding_dir : string) (env : dist_env)
  (l : list string) (st : filesystem * list event) (split : string) :
  master_device env = true -> split ∈ l ->
  is_Some ((foldl (init_split infer_schema_embeddings data_dir
                     schema_embedding_dir false env) st l).1
           !! _get_schema_embedding_file_name (self0 schema_embedding_dir)
                split).
Proof.
  intros Hm. revert st. induction l as [|s l IH]; intros st Hin;
    [by apply elem_of_nil in Hin|].
  cbn [foldl]. apply elem_of_cons in Hin as [->|Hin]; [|by apply IH].
  apply foldl_init_split_mono.
  destruct (generate_guard false env st.1
              (_get_schema_embedding_file_name (self0 schema_embedding_dir) s))
    eqn:Hg.
  - destruct (init_split_runs infer_schema_embeddings data_dir
                schema_embedding_dir false env st s Hg) as [-> _]. eauto.
  - rewrite init_split_skips by done.
    destruct (st.1 !! _get_schema_embedding_file_name
                        (self0 schema_embedding_dir) s) eqn:E; [eauto|].
    assert (generate_guard false env st.1
              (_get_schema_embedding_file_name (self0 schema_embedding_dir) s)
            = true) as Hg'; [|congruence].
    apply generate_guard_iff. by left.
Qed.

(** X3: on the coordinator with the overwrite flag off, the constructor
    completes the cache and nothing more: afterwards the file of every split
    exists, and every file that was there before still holds what it
    held. *)
Theorem coordinator_fills_missing
  (infer_schema_embeddings : string -> list service)
  (data_dir schema_embedding_dir : string) (env : dist_env)
  (datasets : list string) (fs : filesystem) :
  master_device env = true ->
  (forall split, split ∈ datasets ->
     is_Some ((__init__ infer_schema_embeddings data_dir schema_embedding_dir
                 false env datasets fs).1.2
              !! _get_schema_embedding_file_name
                   (self0 schema_embedding_dir) split))
  /\ (forall p c, fs !! p = Some c ->
        (__init__ infer_schema_embeddings data_dir schema_embedding_dir
           false env datasets fs).1.2 !! p = Some c).
Proof.
  intros Hm. unfold __init__.
  pose proof (foldl_init_split_fills infer_schema_embeddings data_dir
                schema_embedding_dir env datasets (fs, []) ) as Hf.
  pose proof (foldl_init_split_keeps infer_schema_embeddings data_dir
                schema_embedding_dir env datasets (fs, [])) as Hk.
  destruct (foldl _ _ _) as [fs' evs]. simpl in *. split.
  - intros split Hin. by apply Hf.
  - intros p c Hp. by apply Hk.
Qed.

Lemma coordinator_fills_missing_witness :
  is_Some ((__init__ ex_infer "data" "emb" false ex_single ["train"; "dev"]
              ex_fs).1.2 !! "emb/dev_pretrained_schema_embedding.npy")
  /\ (__init__ ex_infer "data" "emb" false ex_single ["train"; "dev"]
        ex_fs).1.2 !! ex_train_file = Some [sample_service 0].
Proof.
  destruct (coordinator_fills_missing ex_infer "data" "emb" ex_single
              ["train"; "dev"] ex_fs eq_refl) as [H1 H2].
  split.
  - apply (H1 "dev"). repeat constructor.
  - by apply H2.
Defined.

(** X4: whatever the flags, the constructor touches no file but the
    embedding files of the splits it was given, and everything it writes is
    the encoder output for the [schema.json] of one of these splits, written
    to the file of that split. *)
Theorem constructor_writes_only_targets
  (infer_schema_embeddings : string -> list service)
  (data_dir schema_embedding_dir : string) (overwrite : bool)
  (env : dist_env) (datasets : list string) (fs : filesystem) :
  (forall p,
     (forall split, split ∈ datasets ->
        p <> _get_schema_embedding_file_name (self0 schema_embedding_dir)
               split) ->
     (__init__ infer_schema_embeddings data_dir schema_embedding_dir
        overwrite env datasets fs).1.2 !! p = fs !! p)
  /\ (forall path records,
        SaveEmbeddings path records
          ∈ (__init__ infer_schema_embeddings data_dir schema_embedding_dir
               overwrite env datasets fs).2 ->
        exists split, split ∈ datasets
          /\ path = _get_schema_embedding_file_name
                      (self0 schema_embedding_dir) split
          /\ records = infer_schema_embeddings
                         (schema_json_path data_dir split)).
Proof.
  unfold __init__.
  pose proof (foldl_init_split_other infer_schema_embeddings data_dir
                schema_embedding_dir overwrite env datasets (fs, [])) as Ho.
  pose proof (foldl_init_split_saves infer_schema_embeddings data_dir
                schema_embedding_dir overwrite env datasets (fs, [])) as Hs.
  destruct (foldl _ _ _) as [fs' evs]. simpl in *. split.
  - intros p Hp. by apply Ho.
  - intros path records Hin.
    destruct (Hs path records Hin) as [H|H]; [by apply elem_of_nil in H|done].
Qed.

(** X5: construction with the overwrite flag, then loading: the file of a
    split that no later split of the list shares holds the encoder output
    for that split, and when each of its records has the five fields the
    loader returns its transpose. *)
Theorem constructor_then_loader
  (infer_schema_embeddings : string -> list service)
  (data_dir schema_embedding_dir : string) (env : dist_env)
  (pre post : list string) (split : string) (fs : filesystem) :
  (forall s, s ∈ post ->
     _get_schema_embedding_file_name (self0 schema_embedding_dir) s
     <> _get_schema_embedding_file_name (self0 schema_embedding_dir) split) ->
  Forall has_fields
    (infer_schema_embeddings (schema_json_path data_dir split)) ->
  (__init__ infer_schema_embeddings data_dir schema_embedding_dir true env
     (pre ++ split :: post) fs).1.2
    !! _get_schema_embedding_file_name (self0 schema_embedding_dir) split
  = Some (infer_schema_embeddings (schema_json_path data_dir split))
  /\ exists d,
       (get_schema_embeddings (self0 schema_embedding_dir)
          (__init__ infer_schema_embeddings data_dir schema_embedding_dir
             true env (pre ++ split :: post) fs).1.2 split).2 = Ok d
       /\ columns_of d
            (infer_schema_embeddings (schema_json_path data_dir split)).
Proof.
  intros Hpost Hfields.
  assert ((__init__ infer_schema_embeddings data_dir schema_embedding_dir
             true env (pre ++ split :: post) fs).1.2
          !! _get_schema_embedding_file_name (self0 schema_embedding_dir)
               split
          = Some (infer_schema_embeddings (schema_json_path data_dir split)))
    as Hfile.
  { unfold __init__. rewrite foldl_app. cbn [foldl].
    set (st1 := foldl _ (fs, []) pre).
    pose proof (foldl_init_split_other infer_schema_embeddings data_dir
                  schema_embedding_dir true env post
                  (init_split infer_schema_embeddings data_dir
                     schema_embedding_dir true env st1 split)
                  (_get_schema_embedding_file_name
                     (self0 schema_embedding_dir) split)) as Ho.
    destruct (foldl _ (init_split _ _ _ _ _ st1 split) post) as [fs' evs].
    simpl in *. rewrite Ho by (intros s Hs; apply not_eq_sym; by apply Hpost).
    apply init_split_runs. apply generate_guard_iff. by right. }
  split; [exact Hfile|].
  unfold get_schema_embeddings. rewrite Hfile. cbn [snd].
  destruct (foldl_transpose
              (infer_schema_embeddings (schema_json_path data_dir split))
              [] ∅) as (d & Hd & Hc & _); [|done|].
  { intros k _. unfold dd_getitem. rewrite lookup_empty. constructor. }
  by exists d.
Qed.

Lemma constructor_then_loader_witness :
  (__init__ ex_infer "data" "emb" true ex_worker ["dev"; "train"; "test"]
     ex_fs).1.2 !! ex_train_file = Some [sample_service 7]
  /\ exists d,
       (get_schema_embeddings (self0 "emb")
          (__init__ ex_infer "data" "emb" true ex_worker
             ["dev"; "train"; "test"] ex_fs).1.2 "train").2 = Ok d
       /\ columns_of d [sample_service 7].
Proof.
  apply (constructor_then_loader ex_infer "data" "emb" ex_worker ["dev"]
           ["test"] "train" ex_fs).
  - intros s Hs. rewrite elem_of_cons, elem_of_nil in Hs.
    destruct Hs as [->|[]]. discriminate.
  - repeat constructor.
    intros k Hk. unfold EMB_KINDS in Hk.
    repeat (apply elem_of_cons in Hk as [->|Hk]; [by eexists|]).
    by apply elem_of_nil in Hk.
Defined.

(** X6: splits with distinct relative names get distinct embedding files,
    so the cache of one split is never taken for that of another. *)
Theorem file_name_injective (self : SchemaPreprocessor)
  (split1 split2 : string) :
  str_startswith split1 "/" = false ->
  str_startswith split2 "/" = false ->
  split1 <> split2 ->
  _get_schema_embedding_file_name self split1
  <> _get_schema_embedding_file_name self split2.
Proof.
  intros H1 H2 Hne. unfold _get_schema_embedding_file_name.
  rewrite !os_path_join_one. unfold join_one.
  rewrite !startswith_append by done.
  destruct (bool_decide _ || _).
  - by intros H%append_inj_l%append_inj_r.
  - by intros H%append_inj_l%(append_inj_l "/")%append_inj_r.
Qed.

Lemma file_name_injective_witness :
  _get_schema_embedding_file_name ex_self "train"
  <> _get_schema_embedding_file_name ex_self "dev".
Proof. by apply (file_name_injective ex_self "train" "dev"). Defined.

(** A split name that starts with a slash replaces the directory, and may
    then name the file of another split. *)
Example file_name_absolute_split :
  _get_schema_embedding_file_name ex_self_abs "/emb/dev"
  = _get_schema_embedding_file_name ex_self_abs "dev".
Proof. reflexivity. Qed.

Lemma foldl_transpose_raise (records : list service) (e : exn) :
  foldl transpose_step (Raise e) records = Raise e.
Proof. by induction records. Qed.

(** A record either has the five fields and is appended, or the first
    field it lacks is reported. *)
Lemma transpose_step_cases (d : defaultdict_list) (s : service) :
  (has_fields s /\ exists d', transpose_step (Ok d) s = Ok d')
  \/ exists k, k ∈ EMB_KINDS /\ s !! k = None
       /\ transpose_step (Ok d) s = Raise (KeyError k).
Proof.
  unfold transpose_step, append_field, getitem.
  cbn [mbind result_bind mret result_ret].
  destruct (s !! "cat_slot_emb") eqn:E1;
    [|right; exists "cat_slot_emb"; by repeat split; try in_kinds].
  cbn [mbind result_bind mret result_ret].
  destruct (s !! "cat_slot_value_emb") eqn:E2;
    [|right; exists "cat_slot_value_emb"; by repeat split; try in_kinds].
  cbn [mbind result_bind mret result_ret].
  destruct (s !! "noncat_slot_emb") eqn:E3;
    [|right; exists "noncat_slot_emb"; by repeat split; try in_kinds].
  cbn [mbind result_bind mret result_ret].
  destruct (s !! "req_slot_emb") eqn:E4;
    [|right; exists "req_slot_emb"; by repeat split; try in_kinds].
  cbn [mbind result_bind mret result_ret].
  destruct (s !! "intent_emb") eqn:E5;
    [|right; exists "intent_emb"; by repeat split; try in_kinds].
  left. split; [|by eexists].
  intros k Hk. unfold EMB_KINDS in Hk.
  repeat (apply elem_of_cons in Hk as [->|Hk]; [by eexists|]).
  by apply elem_of_nil in Hk.
Qed.

Lemma foldl_transpose_missing (records : list service)
  (d : defaultdict_list) :
  ~ Forall has_fields records ->
  exists k s, k ∈ EMB_KINDS /\ s ∈ records /\ s !! k = None
    /\ foldl transpose_step (Ok d) records = Raise (KeyError k).
Proof.
  revert d. induction records as [|s records IH]; intros d Hbad.
  - destruct Hbad. constructor.
  - cbn [foldl].
    destruct (transpose_step_cases d s) as [[Hs [d' ->]]|(k & Hk & Hn & ->)].
    + destruct (IH d') as (k & s' & Hk & Hin & Hn & Hr).
      { intros Hf. apply Hbad. by constructor. }
      exists k, s'. repeat split; try done. by right.
    + exists k, s. rewrite foldl_transpose_raise.
      repeat split; try done. by left.
Qed.

(** X7: when some record of the file lacks one of the five fields, the
    loader raises [KeyError] for a field that a record lacks; no partial
    result is returned. *)
Theorem get_schema_embeddings_missing_field
  (self : SchemaPreprocessor) (fs : filesystem) (dataset_split : string)
  (records : list service) :
  fs !! _get_schema_embedding_file_name self dataset_split = Some records ->
  ~ Forall has_fields records ->
  exists k s, k ∈ EMB_KINDS /\ s ∈ records /\ s !! k = None
    /\ (get_schema_embeddings self fs dataset_split).2 = Raise (KeyError k).
Proof.
  intros Hfile Hbad. unfold get_schema_embeddings. rewrite Hfile. cbn [snd].
  by apply foldl_transpose_missing.
Qed.

Lemma get_schema_embeddings_missing_field_witness :
  (get_schema_embeddings ex_self ex_fs_bad "train").2
  = Raise (KeyError "req_slot_emb").
Proof.
  destruct (get_schema_embeddings_missing_field ex_self ex_fs_bad "train"
              ex_bad_records eq_refl) as (k & s & _ & _ & _ & H).
  - intros Hf. apply Forall_cons in Hf as [_ Hf].
    apply Forall_cons in Hf as [Hf _].
    destruct (Hf "req_slot_emb") as [v Hv]; [in_kinds|]. discriminate Hv.
  - reflexivity.
Defined.

Lemma transpose_step_same_fields (d : result defaultdict_list)
  (s1 s2 : service) :
  same_fields s1 s2 -> transpose_step d s1 = transpose_step d s2.
Proof.
  intros H. unfold transpose_step, append_field, getitem.
  by rewrite !H by in_kinds.
Qed.

(** X8: the loader reads nothing of a record but its five fields: two
    files whose records agree on them, one by one, load to the same
    result, whatever else the records hold. *)
Theorem get_schema_embeddings_reads_five_fields
  (self : SchemaPreprocessor) (fs1 fs2 : filesystem) (dataset_split : string)
  (records1 records2 : list service) :
  fs1 !! _get_schema_embedding_file_name self dataset_split = Some records1 ->
  fs2 !! _get_schema_embedding_file_name self dataset_split = Some records2 ->
  Forall2 same_fields records1 records2 ->
  get_schema_embeddings self fs1 dataset_split
  = get_schema_embeddings self fs2 dataset_split.
Proof.
  intros H1 H2 Hsame. unfold get_schema_embeddings. rewrite H1, H2.
  assert (forall d, foldl transpose_step d records1
                    = foldl transpose_step d records2) as ->; [|done].
  clear H1 H2.
  induction Hsame as [|s1 s2 l1 l2 Hs _ IH]; intros d; [done|].
  cbn [foldl]. rewrite (transpose_step_same_fields d s1 s2 Hs). apply IH.
Qed.

Lemma get_schema_embeddings_reads_five_fields_witness :
  get_schema_embeddings ex_self ex_fs "train"
  = get_schema_embeddings ex_self ex_fs_rich "train".
Proof.
  apply (get_schema_embeddings_reads_five_fields ex_self ex_fs ex_fs_rich
           "train" [sample_service 0] ex_rich_records eq_refl eq_refl).
  repeat constructor. intros k Hk. unfold EMB_KINDS in Hk.
  repeat (apply elem_of_cons in Hk as [->|Hk]; [reflexivity|]).
  by apply elem_of_nil in Hk.
Defined.

End SchemaProcessorMore.

(** ** The helper [concatenate] *)

Module SchemaHelpersFacts.
Import Np Torch SchemaHelpers Spec SchemaSpec PyFacts TorchFacts.

Example concatenate_rows :
  concatenate [Array [1; 2]%nat [1; 2]%Q; Array [2; 2]%nat [3; 4; 5; 6]%Q]
  = Ok (Array [3; 2]%nat [1; 2; 3; 4; 5; 6]%Q).
Proof. reflexivity. Qed.

Example concatenate_ndim_mismatch :
  exists msg,
    concatenate [Array [1; 2]%nat [1; 2]%Q; Array [0]%nat []]
    = Raise (ValueError msg).
Proof. by eexists. Qed.

Lemma check_shapes_ok (tl : list nat) (rest : list ndarray) :
  check_shapes tl rest = Ok tt <-> Forall (rows_of tl) rest.
Proof.
  induction rest as [|a rest IH]; cbn [check_shapes].
  - split; [constructor | done].
  - rewrite Forall_cons, <- IH. unfold rows_of.
    destruct (shape a) as [|d tl'] eqn:E; cbn [length tail].
    + rewrite bool_decide_eq_false_2 by done.
      split; [done | by intros [[? ?] _]].
    + case_bool_decide as Hlen;
        [|split; [done|]; intros [[? [= _ ->]] _]; by destruct Hlen].
      case_bool_decide as Htl; [subst; split; eauto; tauto|].
      split; [done | by intros [[? [= _ ->]] _]].
Qed.

Lemma check_shapes_raise (tl : list nat) (rest : list ndarray) (e : exn) :
  check_shapes tl rest = Raise e -> exists msg, e = ValueError msg.
Proof.
  induction rest as [|a rest IH]; cbn [check_shapes]; [done|].
  repeat case_bool_decide; [done|..]; intros [= <-]; eauto.
Qed.

Lemma check_shapes_cases (tl : list nat) (rest : list ndarray) :
  check_shapes tl rest = Ok tt
  \/ exists msg, check_shapes tl rest = Raise (ValueError msg).
Proof.
  destruct (check_shapes tl rest) as [[]|e] eqn:E; [by left|].
  right. apply check_shapes_raise in E as [msg ->]. eauto.
Qed.

Lemma length_concat_rows (tl : list nat) (arrays : list ndarray) :
  Forall wf arrays -> Forall (rows_of tl) arrays ->
  length (concat (data <$> arrays))
  = (sum_list (dim0 <$> arrays) * numel tl)%nat.
Proof.
  induction arrays as [|a arrays IH]; [done|].
  intros [Hw Hws]%Forall_cons [[d Hd] Hrs]%Forall_cons.
  rewrite !fmap_cons. cbn [concat sum_list_with sum_list].
  rewrite length_app, IH by done. unfold wf in Hw. unfold dim0.
  rewrite Hw, Hd. change (numel (d :: tl)) with (d * numel tl)%nat.
  cbn [hd]. unfold id. by rewrite Nat.mul_add_distr_r.
Qed.

Lemma np_concatenate_ok_iff (arrays : list ndarray) (r : ndarray) :
  np_concatenate arrays = Ok r <->
  exists tl, arrays <> [] /\ Forall (rows_of tl) arrays
    /\ r = Array (sum_list (dim0 <$> arrays) :: tl)
                 (concat (data <$> arrays)).
Proof.
  unfold np_concatenate. destruct arrays as [|a0 rest].
  { split; [done | by intros (? & ? & _)]. }
  destruct (shape a0) as [|d0 tl] eqn:E0.
  { split; [done|]. intros (tl & _ & [[d Hd] _]%Forall_cons & _). congruence. }
  destruct (check_shapes_cases tl rest) as [Hc|[msg Hc]]; rewrite Hc;
    cbn [mbind result_bind mret result_ret].
  - apply check_shapes_ok in Hc. split.
    + intros [= <-]. exists tl. split; [done|]. split; [|done].
      constructor; [by exists d0 | done].
    + intros (tl' & _ & [[d Hd] _]%Forall_cons & ->).
      rewrite E0 in Hd. by injection Hd as _ ->.
  - split; [done|].
    intros (tl' & _ & [[d Hd] Hr]%Forall_cons & _).
    rewrite E0 in Hd. injection Hd as _ <-.
    apply check_shapes_ok in Hr. congruence.
Qed.

Lemma np_concatenate_raise (arrays : list ndarray) (e : exn) :
  np_concatenate arrays = Raise e -> exists msg, e = ValueError msg.
Proof.
  unfold np_concatenate. destruct arrays as [|a0 rest]; [intros [= <-]; eauto|].
  destruct (shape a0); [intros [= <-]; eauto|].
  destruct (check_shapes _ rest) as [[]|e'] eqn:E; [done|].
  cbn [mbind result_bind]. intros [= <-]. by eapply check_shapes_raise.
Qed.

Lemma fmap_cpu (lists : list ndarray) : cpu <$> lists = lists.
Proof. apply list_fmap_id. Qed.

(** X9: [concatenate] returns an array exactly for a non-empty list of
    arrays that have at least one dimension and the same sizes in the
    dimensions after the first: the result has the sum of the first
    dimensions and holds the rows of the arrays in order, and it is
    well-formed when they are; in every other case the call raises
    [ValueError]. *)
Theorem concatenate_result (lists : list ndarray) :
  (forall r, concatenate lists = Ok r <->
     exists tl, lists <> [] /\ Forall (rows_of tl) lists
       /\ r = Array (sum_list (dim0 <$> lists) :: tl)
                    (concat (data <$> lists)))
  /\ (forall r, concatenate lists = Ok r -> Forall wf lists -> wf r)
  /\ (forall e, concatenate lists = Raise e -> exists msg, e = ValueError msg).
Proof.
  unfold concatenate. rewrite fmap_cpu. split; [|split].
  - intros r. apply np_concatenate_ok_iff.
  - intros r (tl & _ & Hrows & ->)%np_concatenate_ok_iff Hwf.
    unfold wf. cbn [data shape numel foldr].
    by apply length_concat_rows.
  - apply np_concatenate_raise.
Qed.





End SchemaHelpersFacts.

(** ** More on the callbacks *)

Module PunctCallbackMore.
Import Np Torch PunctCallback Spec CallbackSpec PyFacts TorchFacts PunctCallbackFacts.

(** *** From [tensors] to [output] *)

Lemma foldl_output_step_raise (l : tensors_t) (e : exn) :
  foldl output_step (Raise e) l = Raise e.
Proof. by induction l. Qed.

Lemma build_output_snoc (tensors : tensors_t) (kv : string * list ndarray) :
  build_output (tensors ++ [kv]) = output_step (build_output tensors) kv.
Proof. unfold build_output. by rewrite foldl_app. Qed.

Lemma output_step_raise (output : result output_t)
  (kv : string * list ndarray) (e : exn) :
  output_step output kv = Raise e ->
  output = Raise e
  \/ (e = RuntimeError /\ has_sep kv /\ cat kv.2 = Raise RuntimeError).
Proof.
  destruct output as [o|e']; [|intros [= <-]; by left].
  destruct (decide (has_sep kv)) as [H|H].
  - rewrite output_step_marked by done.
    destruct (cat kv.2) as [t|e'] eqn:E; [done|].
    apply cat_raise in E as E'. subst. intros [= <-]. by right.
  - by rewrite output_step_skip.
Qed.

(** X11: building [output] fails exactly when some entry whose key has the
    separator cannot be concatenated, and then with [RuntimeError]; an
    entry without the separator cannot make it fail. *)
Theorem build_output_fails_iff (tensors : tensors_t) :
  (forall e, build_output tensors = Raise e -> e = RuntimeError)
  /\ (build_output tensors = Raise RuntimeError <->
      exists kv, kv ∈ tensors /\ has_sep kv
        /\ cat kv.2 = Raise RuntimeError).
Proof.
  induction tensors as [|kv tensors [IH1 IH2]] using rev_ind.
  - split; [done|]. split; [done|]. by intros (kv & ?%elem_of_nil & _).
  - rewrite build_output_snoc. split; [|split].
    + intros e [H|(-> & _)]%output_step_raise; [by apply IH1 | done].
    + intros [H|(_ & Hs & Hc)]%output_step_raise.
      * apply IH2 in H as (kv' & Hin & Hs & Hc). exists kv'.
        split; [|done]. apply elem_of_app. by left.
      * exists kv. split; [|done]. apply elem_of_app. right. by left.
    + intros (kv' & [Hin|Hin%list_elem_of_singleton]%elem_of_app & Hs & Hc).
      * assert (build_output tensors = Raise RuntimeError) as ->; [|done].
        apply IH2. by exists kv'.
      * subst kv'. destruct (build_output tensors) as [o|e] eqn:E.
        -- by rewrite output_step_marked, Hc.
        -- by rewrite (IH1 e).
Qed.

Lemma last_named_snoc_lt (tensors : tensors_t) (kv kv0 : string * list ndarray)
  (name : string) (i : nat) :
  (has_sep kv -> entry_name kv <> name) ->
  last_named (tensors ++ [kv]) name i kv0 ->
  last_named tensors name i kv0.
Proof.
  intros Hkv (Hi & Hs & Hn & Hlast).
  assert (i < length tensors) as Hlt.
  { destruct (decide (i < length tensors)) as [|Hge]; [done|].
    rewrite lookup_app_r in Hi by lia.
    destruct (i - length tensors) as [|n]; [|by destruct n].
    injection Hi as <-. by destruct (Hkv Hs). }
  rewrite lookup_app_l in Hi by done. repeat split; try done.
  intros j kv' Hj Hl. apply (Hlast j kv' Hj). rewrite lookup_app_l; [done|].
  by eapply lookup_lt_Some.
Qed.

Lemma last_named_snoc_old (tensors : tensors_t)
  (kv kv0 : string * list ndarray) (name : string) (i : nat) :
  (has_sep kv -> entry_name kv <> name) ->
  last_named tensors name i kv0 ->
  last_named (tensors ++ [kv]) name i kv0.
Proof.
  intros Hkv (Hi & Hs & Hn & Hlast).
  pose proof (lookup_lt_Some _ _ _ Hi) as Hlt.
  repeat split; try done.
  - by rewrite lookup_app_l.
  - intros j kv' Hj Hl Hs'. destruct (decide (j < length tensors)).
    + rewrite lookup_app_l in Hl by done. by eapply Hlast.
    + rewrite lookup_app_r in Hl by lia.
      destruct (j - length tensors) as [|m]; [|by destruct m].
      injection Hl as <-. by apply Hkv.
Qed.

(** X12: when [output] is built, it holds under each name the concatenation
    of the last entry of [tensors] stored under that name, and it holds
    nothing else: an earlier entry of the same name is overwritten. *)
Theorem build_output_lookup (tensors : tensors_t) (output : output_t) :
  build_output tensors = Ok output ->
  forall name t,
    output !! name = Some t <->
    exists i kv, last_named tensors name i kv /\ cat kv.2 = Ok t.
Proof.
  revert output. induction tensors as [|kv tensors IH] using rev_ind;
    intros output Hout name t.
  - injection Hout as <-. rewrite lookup_empty. split; [done|].
    intros (i & kv & (Hi & _) & _). by rewrite lookup_nil in Hi.
  - rewrite build_output_snoc in Hout.
    destruct (build_output tensors) as [o|e] eqn:E; [|done].
    specialize (IH o eq_refl).
    destruct (decide (has_sep kv)) as [Hs|Hs].
    + rewrite output_step_marked in Hout by done.
      destruct (cat kv.2) as [t'|] eqn:Hc; [|done]. injection Hout as <-.
      destruct (decide (entry_name kv = name)) as [Hn|Hn].
      * subst name. rewrite lookup_insert_eq. split.
        -- intros [= <-]. exists (length tensors), kv. split; [|done].
           repeat split; try done.
           ++ by rewrite lookup_app_r, Nat.sub_diag.
           ++ intros j kv' Hj Hl. apply lookup_lt_Some in Hl.
              rewrite length_app in Hl. simpl in Hl. lia.
        -- intros (i & kv0 & (Hi & Hs0 & Hn0 & Hlast) & Hc0).
           destruct (decide (i < length tensors)) as [Hlt|Hge].
           ++ exfalso. apply (Hlast (length tensors) kv); try done.
              by rewrite lookup_app_r, Nat.sub_diag.
           ++ rewrite lookup_app_r in Hi by lia.
              destruct (i - length tensors) as [|n]; [|by destruct n].
              injection Hi as <-. congruence.
      * rewrite lookup_insert_ne by done. rewrite IH. split.
        -- intros (i & kv0 & Hl & Hc0). exists i, kv0. split; [|done].
           by apply last_named_snoc_old.
        -- intros (i & kv0 & Hl & Hc0). exists i, kv0. split; [|done].
           by eapply last_named_snoc_lt.
    + rewrite output_step_skip in Hout by done. injection Hout as <-.
      rewrite IH. split.
      * intros (i & kv0 & Hl & Hc0). exists i, kv0. split; [|done].
        by apply last_named_snoc_old.
      * intros (i & kv0 & Hl & Hc0). exists i, kv0. split; [|done].
        by eapply last_named_snoc_lt.
Qed.

Lemma build_output_lookup_witness :
  build_output [("x~~~1", [ex_mask]); ("x~~~2", [ex_capit_labels])]
  = Ok {["x" := ex_capit_labels]}
  /\ ({["x" := ex_capit_labels]} : output_t) !! "x" = Some ex_capit_labels.
Proof.
  split; [reflexivity|].
  apply (build_output_lookup
           [("x~~~1", [ex_mask]); ("x~~~2", [ex_capit_labels])]
           {["x" := ex_capit_labels]} eq_refl).
  exists 1%nat, ("x~~~2", [ex_capit_labels]). split; [|reflexivity].
  repeat split; try reflexivity.
  intros [|[|[|j]]] kv' Hj Hl; try lia; discriminate Hl.
Defined.

(** *** Calls that raise *)

Lemma acc_init_keys (g : global_vars_t) (k : string) :
  acc (init_keys g) k = acc g k.
Proof.
  unfold init_keys. generalize (UNUSED_KEYS ++ GLOBAL_KEYS). intros ks.
  revert g. induction ks as [|key ks IH]; intros g; [done|].
  cbn [foldl]. by rewrite IH, acc_init_key.
Qed.

Lemma acc_insert_ne (g : global_vars_t) (key k : string) (l : list pyval) :
  key <> k -> acc (<[key := l]> g) k = acc g k.
Proof. intros H. unfold acc. by rewrite lookup_insert_ne. Qed.

Lemma bind_extend_raise {B} (key : string) (l : list pyval) (e : exn)
  (f : unit -> py global_vars_t B) (g : global_vars_t) :
  g !! key = Some l ->
  (extend key (Raise e) ≫= f) g = (g, Raise e).
Proof. intros H. unfold mbind, py_bind, extend. by rewrite H. Qed.

(** X13: a batch without a [subtokens_mask] tensor makes the callback raise
    [KeyError('subtokens_mask')]; the keys have been created by then, but
    no list has been extended. *)
Theorem eval_iter_callback_no_mask (tensors : tensors_t)
  (global_vars : global_vars_t) (output : output_t) :
  build_output tensors = Ok output ->
  output !! "subtokens_mask" = None ->
  (eval_iter_callback tensors global_vars).2
  = Raise (KeyError "subtokens_mask")
  /\ (forall k, acc (eval_iter_callback tensors global_vars).1 k
                = acc global_vars k)
  /\ (forall k, k ∈ UNUSED_KEYS ++ GLOBAL_KEYS ->
        is_Some ((eval_iter_callback tensors global_vars).1 !! k)).
Proof.
  intros Hout Hm. rewrite eval_iter_callback_unfold, Hout.
  assert (main_block output (init_keys global_vars)
          = (init_keys global_vars, Raise (KeyError "subtokens_mask"))) as ->.
  { unfold main_block, getitem. by rewrite Hm, bind_lift_raise. }
  cbn [fst snd].
  split; [done|]. split.
  - intros k. apply acc_init_keys.
  - intros k Hk. rewrite lookup_init_keys_in by done. eauto.
Qed.

Lemma eval_iter_callback_no_mask_witness :
  (eval_iter_callback ex_tensors_no_mask ∅).2
  = Raise (KeyError "subtokens_mask")
  /\ acc (eval_iter_callback ex_tensors_no_mask ∅).1 "punct_preds" = [].
Proof.
  destruct (eval_iter_callback_no_mask ex_tensors_no_mask ∅
              ex_output_no_mask) as (H1 & H2 & _);
    [reflexivity | reflexivity |].
  split; [exact H1 | apply H2].
Defined.

(** X14: the callback does not undo what it has done when it raises: with a
    mask and punctuation logits but no [capit_logits] tensor, it raises
    [KeyError('capit_logits')] after [punct_preds] has received the
    predictions of the batch, and no other list has changed. *)
Theorem eval_iter_callback_partial_update (tensors : tensors_t)
  (global_vars : global_vars_t) (output : output_t) (m pl : ndarray)
  (np : nat) :
  build_output tensors = Ok output ->
  has_tensor output "subtokens_mask" (shape m) m ->
  has_tensor output "punct_logits" (shape m ++ [np]) pl -> np <> 0%nat ->
  output !! "capit_logits" = None ->
  (eval_iter_callback tensors global_vars).2
  = Raise (KeyError "capit_logits")
  /\ (eval_iter_callback tensors global_vars).1 !! "punct_preds"
     = Some (acc global_vars "punct_preds" ++ expected_preds pl m np)
  /\ (forall k, k <> "punct_preds" ->
        acc (eval_iter_callback tensors global_vars).1 k
        = acc global_vars k).
Proof.
  intros Hout Hm Hpl Hnp Hcl. rewrite eval_iter_callback_unfold, Hout.
  assert (wf m) as Hwf by apply Hm.
  assert (main_block output (init_keys global_vars)
          = (<["punct_preds" := acc global_vars "punct_preds"
                                ++ expected_preds pl m np]>
               (init_keys global_vars),
             Raise (KeyError "capit_logits"))) as ->.
  { unfold main_block. unfold getitem at 1. destruct Hm as (-> & _ & _).
    rewrite bind_lift_ok, (masked_preds_ok _ _ _ _ _ Hpl Hnp Hwf).
    rewrite (bind_extend_ok _ (acc global_vars "punct_preds"))
      by (apply lookup_init_keys_in; unfold UNUSED_KEYS, GLOBAL_KEYS; simpl;
          repeat constructor).
    assert (masked_preds output "capit_logits" (gt m (1 # 2))
            = Raise (KeyError "capit_logits")) as ->.
    { unfold masked_preds, getitem. by rewrite Hcl. }
    apply (bind_extend_raise _ (acc global_vars "capit_preds")).
    rewrite lookup_insert_ne by done.
    apply lookup_init_keys_in; unfold UNUSED_KEYS, GLOBAL_KEYS; simpl;
      repeat constructor. }
  cbn [fst snd]. split; [done|]. split; [by rewrite lookup_insert_eq|].
  intros k Hk. by rewrite acc_insert_ne, acc_init_keys.
Qed.

Lemma eval_iter_callback_partial_update_witness :
  (eval_iter_callback ex_tensors_no_capit ∅).2
  = Raise (KeyError "capit_logits")
  /\ (eval_iter_callback ex_tensors_no_capit ∅).1 !! "punct_preds"
     = Some [PNum 1; PNum 0; PNum 2]
  /\ acc (eval_iter_callback ex_tensors_no_capit ∅).1 "punct_labels" = [].
Proof.
  assert (has_tensor ex_output_no_capit "subtokens_mask" (shape ex_mask)
            ex_mask) as Hm by (by repeat split).
  assert (has_tensor ex_output_no_capit "punct_logits" (shape ex_mask ++ [3%nat])
            ex_punct_logits) as Hpl by (by repeat split).
  destruct (eval_iter_callback_partial_update ex_tensors_no_capit ∅
              ex_output_no_capit ex_mask ex_punct_logits 3 eq_refl Hm Hpl
              ltac:(done) eq_refl)
    as (H1 & H2 & H3).
  split; [exact H1|]. split; [exact H2 | by apply H3].
Defined.

(** *** Lists only grow *)

Lemma grows_refl (g : global_vars_t) : grows g g.
Proof. split; [done|]. by intros k _. Qed.

Lemma grows_trans (g1 g2 g3 : global_vars_t) :
  grows g1 g2 -> grows g2 g3 -> grows g1 g3.
Proof.
  intros [A1 B1] [A2 B2]. split.
  - intros k H. by apply A2, A1.
  - intros k H. by etrans; [apply B1 | apply B2].
Qed.

Lemma grows_bind {A B} (c : py global_vars_t A) (f : A -> py global_vars_t B) :
  (forall g, grows g (c g).1) -> (forall a g, grows g (f a g).1) ->
  forall g, grows g ((c ≫= f) g).1.
Proof.
  intros Hc Hf g. unfold mbind, py_bind. specialize (Hc g).
  destruct (c g) as [g' [a|e]]; simpl in *; [|done].
  by eapply grows_trans.
Qed.

Lemma grows_init_key (key : string) (g : global_vars_t) :
  grows g (init_key key g).
Proof.
  split.
  - intros k H. rewrite lookup_init_key. by case_decide.
  - intros k _. by rewrite acc_init_key.
Qed.

Lemma grows_init_keys (ks : list string) (g : global_vars_t) :
  grows g (foldl (fun g key => init_key key g) g ks).
Proof.
  revert g. induction ks as [|key ks IH]; intros g; [apply grows_refl|].
  cbn [foldl]. eapply grows_trans; [apply grows_init_key | apply IH].
Qed.

Lemma grows_extend (key : string) (items : result (list pyval))
  (g : global_vars_t) :
  grows g (extend key items g).1.
Proof.
  unfold extend. destruct (g !! key) as [l|] eqn:E; [|apply grows_refl].
  destruct items as [xs|]; [|apply grows_refl]. simpl. split.
  - intros k H. rewrite lookup_insert. by case_decide.
  - intros k _. unfold acc. destruct (decide (key = k)) as [->|Hne].
    + rewrite lookup_insert_eq, E. simpl. by apply prefix_app_r.
    + by rewrite lookup_insert_ne.
Qed.

Lemma grows_part_sent_block (output : output_t) (g : global_vars_t) :
  grows g (part_sent_block output g).1.
Proof.
  revert g. unfold part_sent_block. case_bool_decide; [|apply grows_refl].
  apply grows_bind.
  - intros g. unfold modify. simpl.
    destruct (g !! "part_sent_preds") eqn:E; [apply grows_refl|]. split.
    + intros k Hk. rewrite !lookup_insert. by repeat case_decide.
    + intros k Hk. unfold acc. rewrite lookup_insert_ne by done.
      destruct (decide ("part_sent_preds" = k)) as [<-|Hne].
      * rewrite E. simpl. apply prefix_nil.
      * by rewrite lookup_insert_ne.
  - intros _. apply grows_bind; [|intros _]; apply grows_extend.
Qed.

Lemma grows_main_block (output : output_t) (g : global_vars_t) :
  grows g (main_block output g).1.
Proof.
  revert g. unfold main_block.
  apply grows_bind; [intros ?; apply grows_refl|]. intros m.
  repeat (apply grows_bind; [intros ?; apply grows_extend | intros _]).
  apply grows_part_sent_block.
Qed.

Lemma grows_eval_iter_callback (tensors : tensors_t) (g : global_vars_t) :
  grows g (eval_iter_callback tensors g).1.
Proof.
  rewrite eval_iter_callback_unfold.
  eapply grows_trans; [apply grows_init_keys|]. fold (init_keys g).
  destruct (build_output tensors) as [output|e]; [|apply grows_refl].
  apply grows_main_block.
Qed.

(** X15: whatever the batch and however the call ends, the callback removes
    no key of [global_vars], leaves every key but its own eleven as it
    was, and only appends to the lists: what was accumulated stays at the
    front of each list, [part_sent_labels] excepted. *)
Theorem eval_iter_callback_only_appends (tensors : tensors_t)
  (global_vars : global_vars_t) :
  grows global_vars (eval_iter_callback tensors global_vars).1
  /\ (forall k, k ∉ CALLBACK_KEYS ->
        (eval_iter_callback tensors global_vars).1 !! k
        = global_vars !! k).
Proof.
  split; [apply grows_eval_iter_callback|].
  intros k Hk. unfold CALLBACK_KEYS in Hk.
  rewrite eval_iter_callback_unfold.
  assert (init_keys global_vars !! k = global_vars !! k) as Hinit.
  { apply lookup_init_keys_out. intros Hin. apply Hk.
    rewrite elem_of_app in Hin. rewrite !elem_of_app. tauto. }
  destruct (build_output tensors) as [output|e]; [|done].
  rewrite touches_main_block; [done|].
  intros Hin. apply Hk. rewrite !elem_of_app in *. tauto.
Qed.

(** *** A batch in one call or in two *)

Lemma cat_pair (a b : ndarray) (d1 d2 : nat) (tl : list nat) :
  shape a = d1 :: tl -> shape b = d2 :: tl -> wf a -> wf b ->
  cat [a; b] = Ok (Array (d1 + d2 :: tl) (data a ++ data b)).
Proof.
  intros Ha Hb Hwa Hwb. unfold cat, wf in *. rewrite !filter_cons, filter_nil.
  destruct (decide (shape a <> [0%nat])) as [Na|Za],
    (decide (shape b <> [0%nat])) as [Nb|Zb].
  - rewrite Ha. cbn [forallb]. rewrite Hb. cbn [tail].
    rewrite bool_decide_eq_true_2 by done. cbn [andb]. unfold dim0.
    cbn [fmap list_fmap sum_list sum_list_with concat]. rewrite Ha, Hb.
    cbn [hd]. unfold id. by rewrite Nat.add_0_r, app_nil_r.
  - apply dec_stable in Zb. rewrite Zb in Hb, Hwb. injection Hb as <- <-.
    destruct (data b); [|done]. rewrite Ha. cbn [forallb]. unfold dim0.
    cbn [fmap list_fmap sum_list sum_list_with concat]. rewrite Ha.
    cbn [hd]. unfold id. done.
  - apply dec_stable in Za. rewrite Za in Ha, Hwa. injection Ha as <- <-.
    destruct (data a); [|done]. rewrite Hb. cbn [forallb]. unfold dim0.
    cbn [fmap list_fmap sum_list sum_list_with concat]. rewrite Hb.
    cbn [hd]. unfold id. by rewrite Nat.add_0_r, app_nil_r.
  - apply dec_stable in Za, Zb. rewrite Za in Ha, Hwa. rewrite Zb in Hb, Hwb.
    injection Ha as <- <-. injection Hb as <-.
    destruct (data a); [|done]. by destruct (data b).
Qed.

Lemma stacked_has_tensor (o1 o2 output : output_t) (key : string)
  (a b : ndarray) (d1 d2 : nat) (tl : list nat) :
  stacked o1 o2 output key ->
  has_tensor o1 key (d1 :: tl) a -> has_tensor o2 key (d2 :: tl) b ->
  has_tensor output key (d1 + d2 :: tl)
    (Array (d1 + d2 :: tl) (data a ++ data b)).
Proof.
  intros (a' & b' & t & Ha' & Hb' & Hcat & Ht) (Ha & Hsa & Hwa) (Hb & Hsb & Hwb).
  rewrite Ha in Ha'. injection Ha' as <-. rewrite Hb in Hb'. injection Hb' as <-.
  rewrite (cat_pair a b d1 d2 tl) in Hcat by done. injection Hcat as <-.
  split; [done|]. split; [done|]. unfold wf in *. cbn [data shape].
  rewrite length_app, Hwa, Hwb, Hsa, Hsb.
  change (numel (?d :: tl)) with (d * numel tl)%nat. lia.
Qed.

Lemma indices_where_app {A} (p : A -> bool) (i : nat) (xs ys : list A) :
  indices_where p i (xs ++ ys)
  = indices_where p i xs ++ indices_where p (i + length xs) ys.
Proof.
  revert i. induction xs as [|x xs IH]; intros i; cbn [app indices_where length].
  - by rewrite Nat.add_0_r.
  - rewrite IH, Nat.add_succ_r. by destruct (p x).
Qed.

Lemma indices_where_shift {A} (p : A -> bool) (n i : nat) (xs : list A) :
  indices_where p (n + i) xs = (fun j => n + j)%nat <$> indices_where p i xs.
Proof.
  revert i. induction xs as [|x xs IH]; intros i; cbn [indices_where]; [done|].
  rewrite <- Nat.add_succ_r, IH. by destruct (p x).
Qed.

Lemma indices_where_lt {A} (p : A -> bool) (xs : list A) (i : nat) :
  i ∈ indices_where p 0 xs -> i < length xs.
Proof.
  intros (_ & x & Hx & _)%elem_of_indices_where.
  rewrite Nat.sub_0_r in Hx. by eapply lookup_lt_Some.
Qed.

Lemma real_subtokens_app (sh : list nat) (m1 m2 : ndarray) :
  real_subtokens (Array sh (data m1 ++ data m2))
  = real_subtokens m1
    ++ ((fun j => length (data m1) + j)%nat <$> real_subtokens m2).
Proof.
  unfold real_subtokens. cbn [data].
  rewrite indices_where_app, Nat.add_0_l.
  by rewrite <- (Nat.add_0_r (length (data m1))) at 1;
    rewrite indices_where_shift.
Qed.

Lemma expected_preds_app (sh sh' : list nat) (pl1 pl2 m1 m2 : ndarray)
  (c : nat) :
  length (data pl1) = (length (data m1) * c)%nat ->
  expected_preds (Array sh (data pl1 ++ data pl2))
    (Array sh' (data m1 ++ data m2)) c
  = expected_preds pl1 m1 c ++ expected_preds pl2 m2 c.
Proof.
  intros Hlen. unfold expected_preds. rewrite real_subtokens_app, fmap_app.
  f_equal.
  - apply list_fmap_ext. intros _ i Hi%list_elem_of_lookup_2.
    apply indices_where_lt in Hi. unfold logits_at. cbn [data].
    rewrite drop_app_le by nia. rewrite take_app_le; [done|].
    rewrite length_drop. nia.
  - rewrite <- list_fmap_compose. apply list_fmap_ext. intros _ j _.
    cbn [compose]. unfold logits_at. cbn [data].
    rewrite drop_app_ge by nia. repeat f_equal. nia.
Qed.

Lemma expected_labels_app (sh sh' : list nat) (l1 l2 m1 m2 : ndarray) :
  length (data l1) = length (data m1) ->
  expected_labels (Array sh (data l1 ++ data l2))
    (Array sh' (data m1 ++ data m2))
  = expected_labels l1 m1 ++ expected_labels l2 m2.
Proof.
  intros Hlen. unfold expected_labels. rewrite real_subtokens_app, fmap_app.
  f_equal.
  - apply list_fmap_ext. intros _ i Hi%list_elem_of_lookup_2.
    apply indices_where_lt in Hi. cbn [data].
    by rewrite app_nth1 by lia.
  - rewrite <- list_fmap_compose. apply list_fmap_ext. intros _ j _.
    cbn [compose data]. rewrite app_nth2 by lia. repeat f_equal. lia.
Qed.

Lemma init_keys_present (g : global_vars_t) :
  (forall k, k ∈ UNUSED_KEYS ++ GLOBAL_KEYS -> is_Some (g !! k)) ->
  init_keys g = g.
Proof.
  intros H. apply map_eq. intros k.
  destruct (decide (k ∈ UNUSED_KEYS ++ GLOBAL_KEYS)) as [Hk|Hk].
  - rewrite lookup_init_keys_in by done. unfold acc.
    by destruct (H k Hk) as [l ->].
  - by apply lookup_init_keys_out.
Qed.

Lemma acc_insert_eq (g : global_vars_t) (key : string) (l : list pyval) :
  acc (<[key := l]> g) key = l.
Proof. unfold acc. by rewrite lookup_insert_eq. Qed.

Lemma length_data (t : ndarray) (sh : list nat) :
  wf t -> shape t = sh -> length (data t) = numel sh.
Proof. by intros Hw <-. Qed.

Lemma numel_snoc (sh : list nat) (c : nat) :
  numel (sh ++ [c]) = (numel sh * c)%nat.
Proof.
  unfold numel. induction sh as [|d sh IH]; cbn [app foldr]; [lia|].
  rewrite IH. lia.
Qed.

(** The state after a call on a well-formed token batch without
    partial-sentence logits. *)
Lemma eval_iter_callback_token_batch (tensors : tensors_t)
  (g : global_vars_t) (output : output_t) (m pl cl plab clab : ndarray)
  (np nc : nat) :
  build_output tensors = Ok output ->
  token_batch output m pl cl plab clab np nc ->
  output !! "part_sent_logits" = None ->
  eval_iter_callback tensors g
  = (<["capit_labels" := acc g "capit_labels" ++ expected_labels clab m]>
       (<["punct_labels" := acc g "punct_labels" ++ expected_labels plab m]>
          (<["capit_preds" := acc g "capit_preds" ++ expected_preds cl m nc]>
             (<["punct_preds" := acc g "punct_preds"
                                 ++ expected_preds pl m np]>
                (init_keys g)))), Ok tt).
Proof.
  intros Hout Hb Hps. rewrite eval_iter_callback_unfold, Hout.
  rewrite (main_block_token_batch _ _ _ _ _ _ _ _ _
             (acc g "punct_preds") (acc g "capit_preds")
             (acc g "punct_labels") (acc g "capit_labels") Hb);
    try (apply lookup_init_keys_in; unfold UNUSED_KEYS, GLOBAL_KEYS; simpl;
         repeat constructor).
  by apply part_sent_block_absent.
Qed.

(** X16: a batch may come in one call or in two.  When [output] holds, for
    each of the five token-level tensors, the concatenation of the tensors
    of two well-formed batches with rows of one shape, one call of the
    callback on it leaves [global_vars] as two calls in a row on the two
    batches do. *)
Theorem eval_iter_callback_stacked (tensors1 tensors2 tensors : tensors_t)
  (global_vars : global_vars_t) (o1 o2 output : output_t)
  (m1 pl1 cl1 plab1 clab1 m2 pl2 cl2 plab2 clab2 : ndarray)
  (np nc b1 b2 : nat) (s : list nat) :
  build_output tensors1 = Ok o1 -> build_output tensors2 = Ok o2 ->
  build_output tensors = Ok output ->
  token_batch o1 m1 pl1 cl1 plab1 clab1 np nc ->
  token_batch o2 m2 pl2 cl2 plab2 clab2 np nc ->
  shape m1 = b1 :: s -> shape m2 = b2 :: s ->
  (forall key, key ∈ TOKEN_KEYS -> stacked o1 o2 output key) ->
  o1 !! "part_sent_logits" = None -> o2 !! "part_sent_logits" = None ->
  output !! "part_sent_logits" = None ->
  eval_iter_callback tensors global_vars
  = (eval_iter_callback tensors1;; eval_iter_callback tensors2) global_vars.
Proof.
  intros Ho1 Ho2 Ho Hb1 Hb2 Hs1 Hs2 Hst Hp1 Hp2 Hp.
  assert (token_batch output
            (Array (b1 + b2 :: s) (data m1 ++ data m2))
            (Array (b1 + b2 :: s ++ [np]) (data pl1 ++ data pl2))
            (Array (b1 + b2 :: s ++ [nc]) (data cl1 ++ data cl2))
            (Array (b1 + b2 :: s) (data plab1 ++ data plab2))
            (Array (b1 + b2 :: s) (data clab1 ++ data clab2)) np nc) as Hb.
  { destruct Hb1 as [A1 B1 C1 D1 E1 Hnp Hnc], Hb2 as [A2 B2 C2 D2 E2 _ _].
    rewrite Hs1 in A1, B1, C1, D1, E1. rewrite Hs2 in A2, B2, C2, D2, E2.
    split; cbn [shape]; try done;
      (eapply stacked_has_tensor;
       [apply Hst; unfold TOKEN_KEYS; repeat constructor | done | done]). }
  rewrite (eval_iter_callback_token_batch _ _ _ _ _ _ _ _ _ _ Ho Hb Hp).
  pose proof (eval_iter_callback_token_batch _ global_vars _ _ _ _ _ _ _ _
                Ho1 Hb1 Hp1) as E1.
  rewrite (bind_ok _ _ _ _ _ E1).
  rewrite (eval_iter_callback_token_batch _ _ _ _ _ _ _ _ _ _ Ho2 Hb2 Hp2).
  set (g0 := init_keys global_vars).
  assert (forall k, k ∈ UNUSED_KEYS ++ GLOBAL_KEYS ->
            g0 !! k = Some (acc global_vars k)) as Hg0.
  { intros k Hk. by apply lookup_init_keys_in. }
  rewrite init_keys_present.
  2: { intros k Hk. rewrite !lookup_insert. repeat case_decide; eauto. }
  repeat (rewrite acc_insert_eq || rewrite acc_insert_ne by done).
  destruct Hb1 as [A1 B1 C1 D1 E1' Hnp Hnc].
  assert (wf m1) as Hw1 by apply A1.
  rewrite !expected_preds_app, !expected_labels_app.
  2,3: unfold wf in Hw1; rewrite Hw1;
       (by apply length_data; [apply D1 || apply E1' | apply D1 || apply E1']).
  2,3: unfold wf in Hw1; rewrite Hw1, <- numel_snoc;
       (by apply length_data; [apply B1 || apply C1 | apply B1 || apply C1]).
  f_equal. apply map_eq. intros k. rewrite !lookup_insert.
  repeat case_decide; try done; by rewrite <- app_assoc.
Qed.

Lemma eval_iter_callback_stacked_witness :
  eval_iter_callback ex_both ∅
  = (eval_iter_callback ex_half1;; eval_iter_callback ex_half2) ∅.
Proof.
  assert (token_batch ex_output_half1 ex_mask1 ex_punct_logits1
            ex_capit_logits1 ex_punct_labels1 ex_capit_labels1 3 2) as H1
    by (by repeat split).
  assert (token_batch ex_output_half2 ex_mask2 ex_punct_logits2
            ex_capit_logits2 ex_punct_labels2 ex_capit_labels2 3 2) as H2
    by (by repeat split).
  assert (forall key, key ∈ TOKEN_KEYS ->
            stacked ex_output_half1 ex_output_half2 ex_output key) as Hst.
  { intros key Hk. unfold TOKEN_KEYS in Hk.
    rewrite !elem_of_cons, elem_of_nil in Hk.
    destruct Hk as [->|[->|[->|[->|[->|[]]]]]];
      eexists _, _, _; repeat split; reflexivity. }
  exact (eval_iter_callback_stacked ex_half1 ex_half2 ex_both ∅
           ex_output_half1 ex_output_half2 ex_output _ _ _ _ _ _ _ _ _ _
           3 2 1 1 [2%nat] eq_refl eq_refl eq_refl H1 H2 eq_refl eq_refl Hst
           eq_refl eq_refl eq_refl).
Defined.

(** *** Names of the labels *)

Lemma label_name_cases (label : string) :
  (bad_label label /\ label_name label = Raise SUBSTRING_NOT_FOUND)
  \/ (~ bad_label label /\ exists name, label_name label = Ok name).
Proof.
  unfold bad_label, label_name, str_index, str_in.
  destruct (str_find "label id" label) as [i|].
  - destruct (str_find "(label id" label) as [j|].
    + right. split; [by intros [_ ?] | by eexists].
    + by left.
  - right. split; [by intros [? _] | by eexists].
Qed.

Lemma str_find_no_paren (name rest : string) :
  str_in "(" name = false ->
  str_find "(label id" (name +:+ " (label id" +:+ rest)
  = Some (S (String.length name)).
Proof.
  induction name as [|c name IH]; intros H.
  - by destruct rest.
  - unfold str_in in H. rewrite str_find_unfold in H.
    change (String.prefix "(" (String c name))
      with (if ascii_dec "("%char c then String.prefix "" name else false) in H.
    change ((String c name) +:+ " (label id" +:+ rest)
      with (String c (name +:+ " (label id" +:+ rest)).
    rewrite str_find_unfold.
    change (String.prefix "(label id" (String c ?s))
      with (if ascii_dec "("%char c then String.prefix "label id" s else false).
    destruct (ascii_dec "("%char c) as [->|Hc].
    { by destruct name. }
    rewrite IH; [done|]. unfold str_in.
    by destruct (str_find "(" name).
Qed.

Lemma str_take_append (a b : string) : str_take (String.length a) (a +:+ b) = a.
Proof.
  induction a as [|c a IH]; [by destruct b|].
  change (String c (str_take (String.length a) (a +:+ b)) = String c a).
  by rewrite IH.
Qed.

(** X17: a label in the format of the classification report, a name
    without parenthesis followed by [ (label id: N)], is stored under its
    name. *)
Theorem label_name_format (name rest : string) :
  str_in "(" name = false ->
  label_name (name +:+ " (label id" +:+ rest) = Ok name.
Proof.
  intros H. unfold label_name.
  assert (str_in "label id" (name +:+ " (label id" +:+ rest) = true) as ->.
  { apply str_in_spec. exists (name +:+ " ("), rest.
    clear H. induction name as [|c name IH]; [done|].
    change (String c (name +:+ " (label id" +:+ rest)
            = String c ((name +:+ " (") +:+ "label id" +:+ rest)).
    by rewrite IH. }
  unfold str_index. rewrite str_find_no_paren by done.
  cbn [mbind result_bind mret result_ret]. f_equal. unfold str_slice_to.
  replace (Z.of_nat (S (String.length name)) - 1)%Z
    with (Z.of_nat (String.length name)) by lia.
  destruct (Z.ltb_spec (Z.of_nat (String.length name)) 0); [lia|].
  rewrite Nat2Z.id. apply str_take_append.
Qed.

Lemma label_name_format_witness : label_name "O (label id: 0)" = Ok "O".
Proof. exact (label_name_format "O" ": 0)" eq_refl). Defined.

(** *** The flat result dictionary *)

Lemma sub_app_l (l1 l2 l : list string) : l1 ++ l2 ⊆ l -> l1 ⊆ l.
Proof. intros H x Hx. apply H, elem_of_app. by left. Qed.

Lemma sub_app_r (l1 l : list string) (x : string) : l1 ++ [x] ⊆ l -> x ∈ l.
Proof. intros H. apply H, elem_of_app. right. by apply list_elem_of_singleton. Qed.

Lemma foldl_result_dict_raise (tag : string) (class_report : class_report_t)
  (labels : list string) (e : exn) :
  foldl (result_dict_step tag class_report) (Raise e) labels = Raise e.
Proof. by induction labels. Qed.

Lemma foldl_result_dict_dom (tag : string) (class_report : class_report_t)
  (labels : list string) :
  labels ⊆ class_report.*1 ->
  Forall (fun l => ~ bad_label l) labels ->
  exists d,
    foldl (result_dict_step tag class_report) (Ok ∅) labels = Ok d
    /\ forall k, is_Some (d !! k) <->
         exists label name, label ∈ labels /\ label_name label = Ok name
           /\ k ∈ result_keys tag name.
Proof.
  induction labels as [|label labels IH] using rev_ind; intros Hsub Hgood.
  - exists ∅. split; [done|]. intros k. rewrite lookup_empty. split.
    + by intros [? ?].
    + by intros (? & ? & ?%elem_of_nil & _).
  - apply Forall_app in Hgood as [Hgood Hlast].
    rewrite Forall_singleton in Hlast.
    destruct (label_name_cases label) as [[? _]|[_ [name Hname]]];
      [by destruct Hlast|].
    destruct IH as (d & Hd & Hdom); [by eapply sub_app_l|done|].
    destruct (report_get_in class_report label) as [m Hm];
      [by eapply sub_app_r|].
    eexists. rewrite foldl_app. cbn [foldl]. rewrite Hd.
    rewrite (result_dict_step_ok _ _ _ _ _ _ Hname Hm).
    split; [done|]. intros k. unfold result_keys.
    rewrite !lookup_insert_is_Some', Hdom. split.
    + intros [<-|[<-|[<-|(l & n & Hl & Hn & Hk)]]].
      * exists label, name. rewrite elem_of_app, list_elem_of_singleton.
        split; [by right|]. split; [done|]. rewrite !elem_of_cons. tauto.
      * exists label, name. rewrite elem_of_app, list_elem_of_singleton.
        split; [by right|]. split; [done|]. rewrite !elem_of_cons. tauto.
      * exists label, name. rewrite elem_of_app, list_elem_of_singleton.
        split; [by right|]. split; [done|]. rewrite !elem_of_cons. tauto.
      * exists l, n. rewrite elem_of_app. eauto.
    + intros (l & n & [Hl| ->%list_elem_of_singleton]%elem_of_app & Hn & Hk).
      * do 3 right. by exists l, n.
      * rewrite Hname in Hn. injection Hn as <-.
        unfold result_keys in Hk.
        rewrite !elem_of_cons, elem_of_nil in Hk.
        destruct Hk as [->|[->|[->|[]]]]; tauto.
Qed.

Lemma foldl_result_dict_bad (tag : string) (class_report : class_report_t)
  (labels : list string) :
  labels ⊆ class_report.*1 ->
  Exists bad_label labels ->
  foldl (result_dict_step tag class_report) (Ok ∅) labels
  = Raise SUBSTRING_NOT_FOUND.
Proof.
  induction labels as [|label labels IH] using rev_ind; intros Hsub Hbad.
  - by apply Exists_nil in Hbad.
  - rewrite foldl_app. cbn [foldl].
    destruct (foldl (result_dict_step tag class_report) (Ok ∅) labels)
      as [d|e] eqn:E.
    + destruct (label_name_cases label) as [[_ Hl]|[Hgood _]].
      * unfold result_dict_step. cbn [mbind result_bind]. by rewrite Hl.
      * apply Exists_app in Hbad as [Hbad|Hbad%Exists_cons].
        -- assert (labels ⊆ class_report.*1) as Hsub' by (by eapply sub_app_l).
           specialize (IH Hsub' Hbad). congruence.
        -- destruct Hbad as [?|?%Exists_nil]; done.
    + destruct (decide (Forall (fun l => ~ bad_label l) labels)) as [Hg|Hb].
      * destruct (foldl_result_dict_dom tag class_report labels)
          as (d & Hd & _); [by eapply sub_app_l|done|]. congruence.
      * apply not_Forall_Exists in Hb; [|apply _].
        assert (labels ⊆ class_report.*1) as Hsub' by (by eapply sub_app_l).
        assert (Exists bad_label labels) as Hbad'.
        { eapply Exists_impl; [exact Hb|]. intros l Hl.
          by apply dec_stable in Hl. }
        specialize (IH Hsub' Hbad'). by injection IH as ->.
Qed.

(** X18: [_get_result_dict] raises only for a report with a label that
    contains [label id] but not [(label id], and then [ValueError]; for
    every other report it returns a dictionary that holds the three tagged
    keys of every label name, and no other key. *)
Theorem get_result_dict_cases (tag : string) (class_report : class_report_t) :
  (forall e, _get_result_dict tag class_report = Raise e <->
     Exists bad_label class_report.*1 /\ e = SUBSTRING_NOT_FOUND)
  /\ (forall d, _get_result_dict tag class_report = Ok d ->
        forall k, is_Some (d !! k) <->
          exists label name, label ∈ class_report.*1
            /\ label_name label = Ok name /\ k ∈ result_keys tag name).
Proof.
  unfold _get_result_dict.
  destruct (decide (Forall (fun l => ~ bad_label l) class_report.*1))
    as [Hg|Hb].
  - destruct (foldl_result_dict_dom tag class_report class_report.*1)
      as (d & Hd & Hdom); [done..|]. rewrite Hd. split.
    + intros e. split; [done|]. intros [Hbad _].
      apply Exists_exists in Hbad as (l & Hl & Hbad).
      rewrite Forall_forall in Hg. by destruct (Hg l Hl).
    + by intros ? [= <-].
  - apply not_Forall_Exists in Hb; [|apply _].
    assert (Exists bad_label class_report.*1) as Hbad.
    { eapply Exists_impl; [exact Hb|]. intros l Hl. by apply dec_stable in Hl. }
    rewrite foldl_result_dict_bad by done. split; [|done].
    intros e. split; [by intros [= <-] | by intros [_ ->]].
Qed.

Example _get_result_dict_bad_label :
  _get_result_dict "p" ex_report_bad = Raise SUBSTRING_NOT_FOUND.
Proof. reflexivity. Qed.

Lemma _get_result_dict_keys (tag : string) (class_report : class_report_t)
  (d : results_t) :
  _get_result_dict tag class_report = Ok d ->
  forall k, is_Some (d !! k) <->
    exists label name, label ∈ class_report.*1
      /\ label_name label = Ok name /\ k ∈ result_keys tag name.
Proof.
  unfold _get_result_dict. intros Hd.
  destruct (decide (Forall (fun l => ~ bad_label l) class_report.*1))
    as [Hg|Hb].
  - destruct (foldl_result_dict_dom tag class_report class_report.*1)
      as (d' & Hd' & Hdom); [done..|].
    rewrite Hd' in Hd. by injection Hd as <-.
  - apply not_Forall_Exists in Hb; [|apply _].
    rewrite foldl_result_dict_bad in Hd; [done..|].
    eapply Exists_impl; [exact Hb|]. intros l Hl. by apply dec_stable in Hl.
Qed.

Lemma _get_result_dict_tagged (tag : string) (class_report : class_report_t)
  (d : results_t) :
  _get_result_dict tag class_report = Ok d -> tagged tag d.
Proof.
  intros Hd k v Hk.
  destruct (proj1 (_get_result_dict_keys _ _ _ Hd k)) as (l & n & _ & _ & Hin);
    [by eexists|].
  unfold result_keys, f1_key, pr_key, r_key in Hin.
  rewrite !elem_of_cons, elem_of_nil in Hin.
  destruct Hin as [->|[->|[->|[]]]]; by eexists.
Qed.

(** *** The epoch-end callback *)

Lemma bind_ok_inv {S A B} (c : py S A) (f : A -> py S B) (s s' : S) (b : B) :
  (c ≫= f) s = (s', Ok b) ->
  exists a s1, c s = (s1, Ok a) /\ f a s1 = (s', Ok b).
Proof.
  unfold mbind, py_bind. destruct (c s) as [s1 [a|e]]; [|done].
  intros H. by exists a, s1.
Qed.

Lemma lift_ok_inv {S A} (r : result A) (s s' : S) (a : A) :
  lift r s = (s', Ok a) -> r = Ok a /\ s' = s.
Proof. unfold lift. by intros [= -> ->]. Qed.

Lemma gv_getitem_ok (g : global_vars_t) (key : string) (l : list pyval) :
  gv_getitem g key = Ok l <-> g !! key = Some l.
Proof. unfold gv_getitem. destruct (g !! key); split; congruence. Qed.

Lemma truthy_Some (graph_fold : option string) (dir : string) :
  truthy graph_fold = Some dir -> graph_fold = Some dir /\ dir <> "".
Proof.
  unfold truthy. destruct graph_fold as [s|]; [|done].
  case_bool_decide; [done|]. by intros [= <-].
Qed.

Lemma emits_ret {A} (P : cb_event -> Prop) (a : A) : emits P (mret a).
Proof. intros tr. exists []. by rewrite app_nil_r. Qed.

Lemma emits_lift {A} (P : cb_event -> Prop) (r : result A) : emits P (lift r).
Proof. intros tr. exists []. by rewrite app_nil_r. Qed.

Lemma emits_emit (P : cb_event -> Prop) (e : cb_event) :
  P e -> emits P (emit e).
Proof. intros H tr. exists [e]. split; [done|]. by constructor. Qed.

Lemma emits_bind {A B} (P : cb_event -> Prop) (c : py (list cb_event) A)
  (f : A -> py (list cb_event) B) :
  emits P c -> (forall a, emits P (f a)) -> emits P (c ≫= f).
Proof.
  intros Hc Hf tr. unfold mbind, py_bind. destruct (Hc tr) as (evs & E & HP).
  destruct (c tr) as [tr1 [a|e]]; simpl in E; subst tr1.
  - destruct (Hf a (tr ++ evs)) as (evs' & E' & HP').
    exists (evs ++ evs'). rewrite E', app_assoc. split; [done|].
    by apply Forall_app.
  - by exists evs.
Qed.

Section EpochsDoneMore.
Context {label_ids_t : Type}.
Context (report_text :
           list pyval -> list pyval -> option label_ids_t -> result string).
Context (report_dict :
           list pyval -> list pyval -> option label_ids_t
           -> result class_report_t).
Context (np_mean_eq : list pyval -> list pyval -> Q).

Lemma emits_task (task_name : string) (global_vars : global_vars_t)
  (label_ids : option label_ids_t) (graph_fold : option string)
  (normalize_cm : bool) :
  task_name ∈ ["punct"; "capit"; "part_sent"] ->
  emits (plot_ok global_vars graph_fold normalize_cm)
    (_eval_epochs_done_callback report_text report_dict task_name global_vars
       label_ids graph_fold normalize_cm).
Proof.
  intros Hin. unfold _eval_epochs_done_callback, gv_getitem.
  destruct (global_vars !! (task_name +:+ "_labels")) as [labels|] eqn:El.
  2: { intros tr. rewrite bind_lift_raise. exists []. by rewrite app_nil_r. }
  destruct (global_vars !! (task_name +:+ "_preds")) as [preds|] eqn:Ep.
  2: { intros tr. rewrite bind_lift_ok, bind_lift_raise. exists [].
       by rewrite app_nil_r. }
  intros tr. rewrite !bind_lift_ok. revert tr.
  apply emits_bind.
  - destruct (truthy graph_fold) as [dir|] eqn:Et; [|apply emits_ret].
    apply truthy_Some in Et as [-> Hne]. by apply emits_emit.
  - intros _. apply emits_bind; [apply emits_lift|]. intros text.
    apply emits_bind; [by apply emits_emit|]. intros _. apply emits_lift.
Qed.

Lemma task_ok_inv (task_name : string) (global_vars : global_vars_t)
  (label_ids : option label_ids_t) (graph_fold : option string)
  (normalize_cm : bool) (tr tr' : list cb_event) (r : class_report_t) :
  _eval_epochs_done_callback report_text report_dict task_name global_vars
    label_ids graph_fold normalize_cm tr = (tr', Ok r) ->
  is_Some (global_vars !! (task_name +:+ "_labels"))
  /\ is_Some (global_vars !! (task_name +:+ "_preds")).
Proof.
  unfold _eval_epochs_done_callback.
  intros (labels & tr1 & [Hl _]%lift_ok_inv
          & (preds & tr2 & [Hp _]%lift_ok_inv & _)%bind_ok_inv)%bind_ok_inv.
  apply gv_getitem_ok in Hl, Hp. eauto.
Qed.

(** X19: called on a [global_vars] without the punctuation labels, as
    before the first batch, the epoch-end callback raises
    [KeyError('punct_labels')] and has plotted and logged nothing. *)
Theorem eval_epochs_done_callback_no_labels (global_vars : global_vars_t)
  (punct_label_ids capit_label_ids : label_ids_t)
  (part_sent_label_ids : option label_ids_t) (graph_fold : option string)
  (normalize_cm : bool) (tr : list cb_event) :
  global_vars !! "punct_labels" = None ->
  eval_epochs_done_callback report_text report_dict np_mean_eq global_vars
    punct_label_ids capit_label_ids part_sent_label_ids graph_fold
    normalize_cm tr
  = (tr, Raise (KeyError "punct_labels")).
Proof.
  intros H. unfold eval_epochs_done_callback, _eval_epochs_done_callback.
  rewrite !bind_assoc.
  assert (gv_getitem global_vars ("punct" +:+ "_labels")
          = Raise (KeyError "punct_labels")) as ->.
  { unfold gv_getitem. change ("punct" +:+ "_labels") with "punct_labels".
    by rewrite H. }
  apply bind_lift_raise.
Qed.

(** X20: whatever its arguments and however it ends, the epoch-end callback
    only adds events to the trace, and it plots a confusion matrix only
    into a folder [graph_fold] that is given and not the empty string: each
    plot is for one of the three tasks, of the labels and predictions that
    [global_vars] holds for it, with the normalization asked for. *)
Theorem eval_epochs_done_callback_plots (global_vars : global_vars_t)
  (punct_label_ids capit_label_ids : label_ids_t)
  (part_sent_label_ids : option label_ids_t) (graph_fold : option string)
  (normalize_cm : bool) :
  emits (plot_ok global_vars graph_fold normalize_cm)
    (eval_epochs_done_callback report_text report_dict np_mean_eq global_vars
       punct_label_ids capit_label_ids part_sent_label_ids graph_fold
       normalize_cm).
Proof.
  unfold eval_epochs_done_callback, part_sent_results.
  apply emits_bind; [apply emits_task; repeat constructor|]. intros rp.
  apply emits_bind; [apply emits_lift|]. intros dp.
  apply emits_bind; [apply emits_task; repeat constructor|]. intros rc.
  apply emits_bind; [apply emits_lift|]. intros dc.
  apply emits_bind.
  - case_bool_decide; [|apply emits_ret].
    apply emits_bind; [apply emits_lift|]. intros labels.
    apply emits_bind; [apply emits_lift|]. intros preds.
    apply emits_bind; [apply emits_task; repeat constructor|]. intros rt.
    apply emits_bind; [apply emits_lift|]. intros dt.
    apply emits_bind; [by apply emits_emit|]. intros _. apply emits_ret.
  - intros results. apply emits_bind; [by apply emits_emit|]. intros _.
    apply emits_ret.
Qed.

(** X21: when the epoch-end callback returns, [global_vars] holds the four
    lists of the token-level tasks, and the result has the key
    [Part_sent_acc] exactly when [global_vars] has [part_sent_preds]: its
    value is then the mean agreement of the partial-sentence labels and
    predictions times 100, rounded to two decimals; without
    [part_sent_preds] every key of the result starts with [p] or [c]. *)
Theorem eval_epochs_done_callback_part_sent_acc (global_vars : global_vars_t)
  (punct_label_ids capit_label_ids : label_ids_t)
  (part_sent_label_ids : option label_ids_t) (graph_fold : option string)
  (normalize_cm : bool) (tr tr' : list cb_event) (results : results_t) :
  eval_epochs_done_callback report_text report_dict np_mean_eq global_vars
    punct_label_ids capit_label_ids part_sent_label_ids graph_fold
    normalize_cm tr = (tr', Ok results) ->
  (forall k, k ∈ GLOBAL_KEYS -> is_Some (global_vars !! k))
  /\ (forall preds, global_vars !! "part_sent_preds" = Some preds ->
        exists labels, global_vars !! "part_sent_labels" = Some labels
          /\ results !! "Part_sent_acc"
             = Some (round2 (np_mean_eq labels preds * 100)))
  /\ (global_vars !! "part_sent_preds" = None ->
        results !! "Part_sent_acc" = None
        /\ forall k, is_Some (results !! k) ->
             exists rest, k = "p" +:+ rest \/ k = "c" +:+ rest).
Proof.
  unfold eval_epochs_done_callback.
  intros (rp & tr1 & [Hpl Hpp]%task_ok_inv
          & (dp & tr2 & [Hdp _]%lift_ok_inv
          & (rc & tr3 & [Hcl Hcp]%task_ok_inv
          & (dc & tr4 & [Hdc _]%lift_ok_inv
          & (res & tr5 & Hps
          & (? & tr6 & _ & [= _ <-])%bind_ok_inv)%bind_ok_inv)%bind_ok_inv)
             %bind_ok_inv)%bind_ok_inv)%bind_ok_inv.
  split.
  { intros k. unfold GLOBAL_KEYS. rewrite !elem_of_cons, elem_of_nil.
    intros [->|[->|[->|[->|[]]]]]; done. }
  apply _get_result_dict_tagged in Hdp, Hdc.
  unfold part_sent_results in Hps.
  split.
  - intros preds Epsp.
    rewrite bool_decide_eq_true_2 in Hps by (by rewrite Epsp).
    apply bind_ok_inv in Hps
      as (labels & ? & [Hl%gv_getitem_ok ->]%lift_ok_inv & Hps).
    apply bind_ok_inv in Hps
      as (preds' & ? & [Hp%gv_getitem_ok ->]%lift_ok_inv & Hps).
    rewrite Epsp in Hp. injection Hp as <-.
    apply bind_ok_inv in Hps as (rt & tr7 & _ & Hps).
    apply bind_ok_inv in Hps as (dt & ? & [_ ->]%lift_ok_inv & Hps).
    apply bind_ok_inv in Hps as (? & tr8 & _ & [= _ <-]).
    exists labels. split; [done|]. by rewrite lookup_insert_eq.
  - intros Epsp.
    rewrite bool_decide_eq_false_2 in Hps by (rewrite Epsp; by intros [? ?]).
    injection Hps as _ <-. unfold update. rewrite (right_id_L ∅ (∪)).
    split.
    + apply lookup_union_None. split.
      * destruct (dc !! "Part_sent_acc") eqn:E; [|done].
        by destruct (Hdc _ _ E).
      * destruct (dp !! "Part_sent_acc") eqn:E; [|done].
        by destruct (Hdp _ _ E).
    + intros k [v [Hk|[_ Hk]]%lookup_union_Some_raw].
      * destruct (Hdc _ _ Hk) as [rest ->]. eauto.
      * destruct (Hdp _ _ Hk) as [rest ->]. eauto.
Qed.
End EpochsDoneMore.

Lemma eval_epochs_done_callback_no_labels_witness :
  eval_epochs_done_callback ex_report_text ex_report_dict ex_np_mean_eq ∅
    tt tt None (Some "plots") true []
  = ([], Raise (KeyError "punct_labels")).
Proof.
  exact (eval_epochs_done_callback_no_labels ex_report_text ex_report_dict
           ex_np_mean_eq ∅ tt tt None (Some "plots") true [] eq_refl).
Defined.

Lemma eval_epochs_done_callback_part_sent_acc_witness :
  ex_results !! "Part_sent_acc" = Some (round2 ((1 # 2) * 100))
  /\ is_Some (ex_global_vars !! "capit_preds").
Proof.
  assert (ex_global_vars !! "part_sent_preds" = Some [PNum 1; PNum 0]) as Hp
    by (vm_compute; reflexivity).
  assert (eval_epochs_done_callback ex_report_text ex_report_dict
            ex_np_mean_eq ex_global_vars tt tt None None true []
          = (ex_trace, Ok ex_results)) as Hrun by reflexivity.
  destruct (eval_epochs_done_callback_part_sent_acc ex_report_text
              ex_report_dict ex_np_mean_eq ex_global_vars tt tt None None
              true [] ex_trace ex_results Hrun) as (Hkeys & Hsome & _).
  destruct (Hsome _ Hp) as (labels & _ & Hacc).
  split; [exact Hacc|]. apply Hkeys. unfold GLOBAL_KEYS. repeat constructor.
Defined.

End PunctCallbackMore.
